(** * Agent task-worker pool: a shallow embedding of
      [be/src/agent/task_worker_pool.cpp]

    The development follows the C++ file function by function.  Process-wide
    registries ([_s_task_signatures] and the three counter maps) are finite
    maps, the per-pool [_tasks] deque is a list, [uint32_t]/[int32_t]
    arithmetic is carried out on [Z] with the wrap-around written out, and
    the two [float] rates of the push scheduler are IEEE-754 values computed
    with the executable [SpecFloat] operations. *)

From Stdlib Require Import ZArith Lia Bool List Ascii String DecimalString.
From Stdlib Require Import SpecFloat.
From stdpp Require Import base decidable countable gmap strings list.

Local Open Scope Z_scope.

(** ** Machine integers *)

Module Int.

Definition uint32 (z : Z) : Z := z mod 2 ^ 32.

(** Conversion of a 32-bit pattern to [int32_t] (two's complement). *)
Definition int32 (z : Z) : Z :=
  let w := z mod 2 ^ 32 in if w <? 2 ^ 31 then w else w - 2 ^ 32.

End Int.

(** ** Thrift data model *)

(** Modelled from the spec: the generated enum [TTaskType::type]
    (gen_cpp/Types_types.h is not part of the sources at hand); the wire
    kinds are those of the spec's section 6.1, with ALTER_TABLE split into
    its two wire values as the source uses them. *)
Inductive TTaskType :=
  | CREATE | DROP | PUSH | CLONE | STORAGE_MEDIUM_MIGRATE | ROLLUP
  | SCHEMA_CHANGE | CANCEL_DELETE | MAKE_SNAPSHOT | RELEASE_SNAPSHOT
  | CHECK_CONSISTENCY | UPLOAD | RESTORE.

#[global] Instance TTaskType_eq_dec : EqDecision TTaskType.
Proof. solve_decision. Defined.

Definition TTaskType_code (k : TTaskType) : nat :=
  match k with
  | CREATE => 0 | DROP => 1 | PUSH => 2 | CLONE => 3
  | STORAGE_MEDIUM_MIGRATE => 4 | ROLLUP => 5 | SCHEMA_CHANGE => 6
  | CANCEL_DELETE => 7 | MAKE_SNAPSHOT => 8 | RELEASE_SNAPSHOT => 9
  | CHECK_CONSISTENCY => 10 | UPLOAD => 11 | RESTORE => 12
  end%nat.

Definition TTaskType_of_code (n : nat) : TTaskType :=
  match n with
  | 0 => CREATE | 1 => DROP | 2 => PUSH | 3 => CLONE
  | 4 => STORAGE_MEDIUM_MIGRATE | 5 => ROLLUP | 6 => SCHEMA_CHANGE
  | 7 => CANCEL_DELETE | 8 => MAKE_SNAPSHOT | 9 => RELEASE_SNAPSHOT
  | 10 => CHECK_CONSISTENCY | 11 => UPLOAD | _ => RESTORE
  end%nat.

#[global] Instance TTaskType_countable : Countable TTaskType.
Proof.
  apply (inj_countable' TTaskType_code TTaskType_of_code).
  intros []; reflexivity.
Defined.

Inductive TPriority := NORMAL | HIGH.

#[global] Instance TPriority_eq_dec : EqDecision TPriority.
Proof. solve_decision. Defined.

(** [OTHER_PUSH_TYPE] stands for any wire value that is none of the three
    named ones. *)
Inductive TPushType := LOAD | LOAD_DELETE | DELETE | OTHER_PUSH_TYPE.

#[global] Instance TPushType_eq_dec : EqDecision TPushType.
Proof. solve_decision. Defined.

Record TResourceInfo := { user : string; group : string }.

Record TPushReq := { push_type : TPushType; version : Z; version_hash : Z }.

(** [TAgentTaskRequest]: an optional thrift field is an [option]; [None] is
    the field whose [__isset] flag is false. *)
Record TAgentTaskRequest := {
  task_type : TTaskType;
  signature : Z;
  priority : option TPriority;
  resource_info : option TResourceInfo;
  push_req : TPushReq
}.

(** ** The signature registry and the pool *)

(** The four static maps of [TaskWorkerPool].  The functions below reach
    an entry of a [std::map] through [operator[]], which value-initialises
    a missing entry: a missing key reads as the empty set, respectively as
    0, and a read is a lookup with that default. *)
Record registry := {
  _s_task_signatures : gmap TTaskType (gset Z);
  _s_running_task_user_count : gmap TTaskType (gmap string Z);
  _s_total_task_user_count : gmap TTaskType (gmap string Z);
  _s_total_task_count : gmap TTaskType Z
}.

(** One pool: its deque of pending requests together with the shared
    registry it reads and writes. *)
Record pool := {
  _tasks : list TAgentTaskRequest;
  reg : registry
}.

Definition signature_set (m : gmap TTaskType (gset Z)) (k : TTaskType) : gset Z :=
  default ∅ (m !! k).

Definition user_count (m : gmap TTaskType (gmap string Z)) (k : TTaskType)
    (u : string) : Z :=
  default 0 (default ∅ (m !! k) !! u).

Definition type_count (m : gmap TTaskType Z) (k : TTaskType) : Z :=
  default 0 (m !! k).

(** [m[k][u] = v] *)
Definition set_user_count (m : gmap TTaskType (gmap string Z)) (k : TTaskType)
    (u : string) (v : Z) : gmap TTaskType (gmap string Z) :=
  <[k := <[u := v]> (default ∅ (m !! k))]> m.

Definition set_type_count (m : gmap TTaskType Z) (k : TTaskType) (v : Z)
    : gmap TTaskType Z :=
  <[k := v]> m.

Definition inflight (r : registry) := signature_set (_s_task_signatures r).
Definition total_by_user (r : registry) := user_count (_s_total_task_user_count r).
Definition running_by_user (r : registry) := user_count (_s_running_task_user_count r).
Definition total (r : registry) := type_count (_s_total_task_count r).

(** [bool TaskWorkerPool::_record_task_info(task_type, signature, user)] *)
Definition _record_task_info (k : TTaskType) (s : Z) (u : string) (r : registry)
    : bool * registry :=
  let signature_set := signature_set (_s_task_signatures r) k in
  if decide (s ∈ signature_set) then (false, r)
  else
    let sigs := <[k := {[s]} ∪ signature_set]> (_s_task_signatures r) in
    if decide (k = PUSH) then
      (true,
       {| _s_task_signatures := sigs;
          _s_running_task_user_count := _s_running_task_user_count r;
          _s_total_task_user_count :=
            set_user_count (_s_total_task_user_count r) k u
              (Int.uint32 (user_count (_s_total_task_user_count r) k u + 1));
          _s_total_task_count :=
            set_type_count (_s_total_task_count r) k
              (Int.uint32 (type_count (_s_total_task_count r) k + 1)) |})
    else
      (true,
       {| _s_task_signatures := sigs;
          _s_running_task_user_count := _s_running_task_user_count r;
          _s_total_task_user_count := _s_total_task_user_count r;
          _s_total_task_count := _s_total_task_count r |}).

(** The user a request is accounted to: [string user("")], overwritten when
    [task.__isset.resource_info]. *)
Definition task_user (t : TAgentTaskRequest) : string :=
  match resource_info t with
  | Some ri => user ri
  | None => ""%string
  end.

(** [void TaskWorkerPool::submit_task(const TAgentTaskRequest& task)] *)
Definition submit_task (task : TAgentTaskRequest) (p : pool) : pool :=
  let '(ret, r') := _record_task_info (task_type task) (signature task)
                      (task_user task) (reg p) in
  if ret then {| _tasks := _tasks p ++ [task]; reg := r' |}
  else {| _tasks := _tasks p; reg := r' |}.

(** ** Agent status codes *)

(** Modelled from the spec: the enum [AgentStatus] (agent/status.h is not
    part of the sources at hand); the internal error kinds are those of the
    spec's section 7. *)
Inductive AgentStatus :=
  | PALO_SUCCESS | PALO_ERROR | PALO_TASK_REQUEST_ERROR
  | PALO_CREATE_TABLE_EXIST | PALO_FILE_DOWNLOAD_FAILED.

#[global] Instance AgentStatus_eq_dec : EqDecision AgentStatus.
Proof. solve_decision. Defined.

Definition DOWNLOAD_FILE_MAX_RETRY : Z := 3.
Definition TASK_FINISH_MAX_RETRY : Z := 3.
Definition PUSH_MAX_RETRY : Z := 1.

(** Modelled from the spec: [config::sleep_one_second] (common/config.h is
    not part of the sources at hand); section 4.3 gives the pause between
    two finish attempts as one second. *)
Definition sleep_one_second : Z := 1.

(** ** The finish protocol *)

(** What a worker does that the outside can see. *)
Inductive event :=
  | FinishTaskRpc (result : AgentStatus)
  | Sleep (seconds : Z)
  | PusherProcess (result : AgentStatus).

#[global] Instance event_eq_dec : EqDecision event.
Proof. solve_decision. Defined.

(** The loop of [_finish_task]: [master_client n] is the answer of the
    coordinator to the [n]-th call of [finish_task] made by this loop.
    [fuel] bounds the number of iterations. *)
Fixpoint finish_task_loop (fuel : nat) (master_client : nat -> AgentStatus)
    (try_time : Z) (n : nat) : option (list event) :=
  match fuel with
  | O => None
  | S fuel' =>
      if try_time <? TASK_FINISH_MAX_RETRY then
        let client_status := master_client n in
        if decide (client_status = PALO_SUCCESS) then
          Some [FinishTaskRpc client_status]
        else
          match finish_task_loop fuel' master_client (try_time + 1) (S n) with
          | Some tr =>
              Some (FinishTaskRpc client_status :: Sleep sleep_one_second :: tr)
          | None => None
          end
      else Some []
  end.

(** [void TaskWorkerPool::_finish_task(const TFinishTaskRequest&)], built
    without BE_TEST. *)
Definition _finish_task (fuel : nat) (master_client : nat -> AgentStatus)
    : option (list event) :=
  finish_task_loop fuel master_client 0 0.

Definition is_rpc (e : event) : bool :=
  match e with FinishTaskRpc _ => true | _ => false end.

Definition rpc_count (tr : list event) : nat := length (List.filter is_rpc tr).

(** The coordinator has the result when some attempt was answered with
    [PALO_SUCCESS]. *)
Definition reported (tr : list event) : bool :=
  existsb (fun e => bool_decide (e = FinishTaskRpc PALO_SUCCESS)) tr.

(** The events of [k] failed attempts: each call is answered with a
    failure and followed by the pause. *)
Definition failed_attempts (master_client : nat -> AgentStatus) (k : nat)
    : list event :=
  flat_map (fun j => [FinishTaskRpc (master_client j); Sleep sleep_one_second])
           (seq 0 k).

(** ** The retry loop of a LOAD push *)

(** The [while (retry_time < PUSH_MAX_RETRY)] loop of
    [_push_worker_thread_callback]: [process n] is what the [n]-th call of
    [pusher.process] returns.  The result is the last status and the calls
    made. *)
Fixpoint push_process_loop (fuel : nat) (process : nat -> AgentStatus)
    (status : AgentStatus) (retry_time : Z) (n : nat)
    : option (AgentStatus * list event) :=
  match fuel with
  | O => None
  | S fuel' =>
      if retry_time <? PUSH_MAX_RETRY then
        let status := process n in
        if decide (status = PALO_ERROR) then
          match push_process_loop fuel' process status (retry_time + 1) (S n) with
          | Some (st, tr) => Some (st, PusherProcess status :: tr)
          | None => None
          end
        else Some (status, [PusherProcess status])
      else Some (status, [])
  end.

(** The branch of [_push_worker_thread_callback] that executes one push
    request: [init] is the result of [pusher.init()], [delete_ok] tells
    whether [delete_data] returned [OLAP_SUCCESS]. *)
Definition push_execute (fuel : nat) (req : TPushReq) (init : AgentStatus)
    (process : nat -> AgentStatus) (delete_ok : bool)
    : option (AgentStatus * list event) :=
  if decide (push_type req = LOAD \/ push_type req = LOAD_DELETE) then
    if decide (init = PALO_SUCCESS) then
      push_process_loop fuel process init 0 0
    else Some (init, [])
  else if decide (push_type req = DELETE) then
    Some (if delete_ok then PALO_SUCCESS else PALO_ERROR, [])
  else Some (PALO_TASK_REQUEST_ERROR, []).

Definition is_process (e : event) : bool :=
  match e with PusherProcess _ => true | _ => false end.

Definition process_attempts (tr : list event) : nat :=
  length (List.filter is_process tr).

(** ** Clone: the download list *)

(** The line feed, and the one-character string holding it. *)
Definition nl_char : ascii := ascii_of_nat 10.

Definition nl : string := String nl_char EmptyString.

(** [file_name.size() > 4 && file_name.substr(file_name.size() - 4, 4) == ".hdr"] *)
Definition is_header_file (file_name : string) : bool :=
  (4 <? String.length file_name)%nat
  && bool_decide (substring (String.length file_name - 4) 4 file_name = ".hdr"%string).

(** Header files go to the back of the vector, every other name to its
    front. *)
Definition add_file_name (file_name : string) (file_name_list : list string)
    : list string :=
  if is_header_file file_name then file_name_list ++ [file_name]
  else file_name :: file_name_list.

(** The [while (end_position != string::npos)] loop of [_clone_copy];
    [None] is [string::npos]. *)
Fixpoint split_loop (fuel : nat) (file_list_str : string) (start_position : nat)
    (end_position : option nat) (file_name_list : list string)
    : option (nat * list string) :=
  match fuel with
  | O => None
  | S fuel' =>
      match end_position with
      | None => Some (start_position, file_name_list)
      | Some e =>
          let file_name :=
            substring start_position (e - start_position) file_list_str in
          let file_name_list := add_file_name file_name file_name_list in
          let start_position := (e + 1)%nat in
          split_loop fuel' file_list_str start_position
            (String.index start_position nl file_list_str) file_name_list
      end
  end.

(** The vector [file_name_list] that [_clone_copy] builds from the remote
    listing and then downloads front to back. *)
Definition clone_file_name_list (fuel : nat) (file_list_str : string)
    : option (list string) :=
  match split_loop fuel file_list_str 0 (String.index 0 nl file_list_str) [] with
  | None => None
  | Some (start_position, file_name_list) =>
      if decide (start_position <> String.length file_list_str) then
        let file_name :=
          substring start_position
            (String.length file_list_str - start_position) file_list_str in
        Some (add_file_name file_name file_name_list)
      else Some file_name_list
  end.

(** [ends_with suffix s]: the last characters of [s] spell [suffix]. *)
Definition ends_with (suffix s : string) : bool :=
  (String.length suffix <=? String.length s)%nat
  && bool_decide
       (substring (String.length s - String.length suffix)
                  (String.length suffix) s = suffix).

(** The file names of a listing: the pieces between line feeds, a last
    piece counting only when it is not empty. *)
Fixpoint split_lines (s : string) : list string :=
  match s with
  | EmptyString => []
  | String c s' =>
      if decide (c = nl_char) then EmptyString :: split_lines s'
      else
        match split_lines s' with
        | [] => [String c EmptyString]
        | line :: more => String c line :: more
        end
  end.

(** The names are added to the vector in the order of the listing. *)
Definition add_all (names : list string) (file_name_list : list string)
    : list string :=
  fold_left (fun l x => add_file_name x l) names file_name_list.

(** A list whose header files all come after its other names. *)
Definition headers_last (l : list string) : Prop :=
  exists others headers,
    l = others ++ headers
    /\ Forall (fun x => is_header_file x = false) others
    /\ Forall (fun x => is_header_file x = true) headers.

(** ** Restore: renaming the downloaded files *)

(** [std::string::find(char)] and [std::string::rfind(char)]; [None] is
    [string::npos]. *)
Fixpoint find_char (c : ascii) (s : string) : option nat :=
  match s with
  | EmptyString => None
  | String a s' =>
      if decide (a = c) then Some O
      else match find_char c s' with Some p => Some (S p) | None => None end
  end.

Fixpoint rfind_char (c : ascii) (s : string) : option nat :=
  match s with
  | EmptyString => None
  | String a s' =>
      match rfind_char c s' with
      | Some p => Some (S p)
      | None => if decide (a = c) then Some O else None
      end
  end.

(** [string::npos] on a 64-bit [size_t]. *)
Definition npos : Z := 2 ^ 64 - 1.

Definition size_t_of (o : option nat) : Z :=
  match o with Some p => Z.of_nat p | None => npos end.

(** [s.substr(pos)]: throws [std::out_of_range] ([None]) when
    [pos > s.size()]. *)
Definition substr_from (s : string) (pos : Z) : option string :=
  if Z.of_nat (String.length s) <? pos then None
  else Some (substring (Z.to_nat pos) (String.length s - Z.to_nat pos) s).

(** [s.substr(0, n)] never throws; it yields [min n (s.size())]
    characters. *)
Definition substr_to (s : string) (n : Z) : string :=
  substring 0 (Z.to_nat (Z.min n (Z.of_nat (String.length s)))) s.

(** [stream << tablet_id] for the [int64_t] tablet id. *)
Definition print_int64 (z : Z) : string := NilZero.string_of_int (Z.to_int z).

Inductive rename_outcome :=
  | Unchanged                              (* [continue]: the file keeps its name *)
  | Renamed (new_file_path_str : string)   (* [boost::filesystem::rename]     *)
  | OutOfRange.                            (* [substr] throws [std::out_of_range] *)

Definition slash : ascii := "/"%char.
Definition underscore : ascii := "_"%char.
Definition dot : ascii := "."%char.

(** The body of the renaming loop of [_restore_worker_thread_callback] for
    one directory entry. *)
Definition restore_rename (tablet_id : Z) (is_directory : bool)
    (file_path_str : string) : rename_outcome :=
  if is_directory then Unchanged
  else
    let slash_pos := Int.uint32 (size_t_of (rfind_char slash file_path_str)) in
    match
      (if decide (slash_pos <> Int.uint32 (-1))
       then substr_from file_path_str (Int.uint32 (slash_pos + 1))
       else Some file_path_str)
    with
    | None => OutOfRange
    | Some file_name =>
        let file_path_str_len := Int.uint32 (Z.of_nat (String.length file_name)) in
        if file_path_str_len <=? 4 then Unchanged
        else
          match substr_from file_name (Int.uint32 (file_path_str_len - 4)) with
          | None => OutOfRange
          | Some file_path_suffix =>
              if decide (file_path_suffix <> ".hdr" /\ file_path_suffix <> ".idx"
                         /\ file_path_suffix <> ".dat")%string
              then Unchanged
              else
                let sperator :=
                  if decide (file_path_suffix = ".hdr"%string) then dot
                  else underscore in
                let sperator_pos :=
                  Int.uint32 (size_t_of (find_char sperator file_name)) in
                match substr_from file_name sperator_pos with
                | None => OutOfRange
                | Some tail =>
                    Renamed (substr_to file_path_str slash_pos +:+ "/"
                             +:+ (print_int64 tablet_id +:+ tail))
                end
          end
    end.

(** The renaming as the specification words it: the part of the name
    before the last separator gives way to the tablet id. *)
Definition rename_at_last_separator (tablet_id : Z) (file_name : string)
    : option string :=
  let sperator := if ends_with ".hdr" file_name then dot else underscore in
  match rfind_char sperator file_name with
  | Some p =>
      Some (print_int64 tablet_id
            +:+ substring p (String.length file_name - p) file_name)
  | None => None
  end.

(** ** IEEE-754 arithmetic of the scheduler *)

(** The scheduler computes its two rates in [double] and stores them in
    [float] variables.  Both formats are instances of [SpecFloat]:
    binary64 is [prec = 53], [emax = 1024]; binary32 is [prec = 24],
    [emax = 128]. *)
Module Float.

Definition double_of_Z (z : Z) : spec_float := binary_normalize 53 1024 z 0 false.

Definition double_one : spec_float := double_of_Z 1.

Definition double_mul : spec_float -> spec_float -> spec_float := SFmul 53 1024.

Definition double_div : spec_float -> spec_float -> spec_float := SFdiv 53 1024.

(** The conversion of an assignment [float x = <double expression>]:
    round to nearest, ties to even. *)
Definition float_of_double (d : spec_float) : spec_float :=
  match d with
  | S754_finite s m e => binary_round 24 128 s m e
  | _ => d
  end.

(** [x <= y]; false as soon as one side is a NaN. *)
Definition le (x y : spec_float) : bool := SFleb x y.

(** [float rate = num * 1.0 / den] for two integers: the product and the
    quotient are computed in [double], the quotient is stored in a
    [float]. *)
Definition rate (num den : Z) : spec_float :=
  float_of_double (double_div (double_mul (double_of_Z num) double_one)
                              (double_of_Z den)).

(** The rates of all pairs of a numerator below 24 and a denominator from
    1 to 23, and the check that comparing two of them as floats is
    comparing the fractions. *)
Definition small_numbers : list Z := List.map Z.of_nat (seq 0 24).

Definition small_rates : list (Z * Z * spec_float) :=
  flat_map (fun a => List.map (fun b => (a, b, rate a b)) (tl small_numbers))
           small_numbers.

Definition small_rates_exact : bool :=
  forallb (fun x =>
    forallb (fun y =>
      match x, y with
      | (a, b, ra), (c, d, rc) => Bool.eqb (le ra rc) (a * d <=? c * b)
      end) small_rates) small_rates.

End Float.

(** ** The push scheduler *)

(** [user_total_rate = _s_total_task_user_count[type][user] * 1.0 /
                       _s_total_task_count[type]] *)
Definition user_total_rate (r : registry) (k : TTaskType) (u : string)
    : spec_float :=
  Float.rate (total_by_user r k u) (total r k).

(** [user_running_rate = (_s_running_task_user_count[type][user] + 1) * 1.0 /
                         thread_count] *)
Definition user_running_rate (thread_count : Z) (r : registry) (k : TTaskType)
    (u : string) : spec_float :=
  Float.rate (Int.uint32 (running_by_user r k u + 1)) thread_count.

(** The test that ends the scan at a candidate:
    [running == 0 || user_running_rate <= user_total_rate]. *)
Definition selectable (thread_count : Z) (r : registry) (k : TTaskType) (u : string)
    : bool :=
  bool_decide (running_by_user r k u = 0)
  || Float.le (user_running_rate thread_count r k u) (user_total_rate r k u).

(** The [for] loop of [_get_next_task_index] from position [i] on.  [user]
    is the local variable of that name, which is only overwritten by a
    request that carries [resource_info]; the result is the final value of
    [index] together with the final value of [user]. *)
Fixpoint scan_tasks (thread_count : Z) (r : registry) (lane : TPriority)
    (tasks : list TAgentTaskRequest) (i : Z) (user_var : string)
    (improper_users : gset string) : Z * string :=
  match tasks with
  | [] => (-1, user_var)
  | task :: rest =>
      let user_var :=
        match resource_info task with
        | Some ri => user ri
        | None => user_var
        end in
      if decide (lane = HIGH) then
        if decide (priority task = Some HIGH) then (Int.int32 i, user_var)
        else scan_tasks thread_count r lane rest (i + 1) user_var improper_users
      else if decide (user_var ∈ improper_users) then
        scan_tasks thread_count r lane rest (i + 1) user_var improper_users
      else if selectable thread_count r (task_type task) user_var then
        (Int.int32 i, user_var)
      else
        scan_tasks thread_count r lane rest (i + 1) user_var
          ({[user_var]} ∪ improper_users)
  end.

(** [_s_running_task_user_count[type][user] += 1] *)
Definition mark_running (k : TTaskType) (u : string) (r : registry) : registry :=
  {| _s_task_signatures := _s_task_signatures r;
     _s_running_task_user_count :=
       set_user_count (_s_running_task_user_count r) k u
         (Int.uint32 (user_count (_s_running_task_user_count r) k u + 1));
     _s_total_task_user_count := _s_total_task_user_count r;
     _s_total_task_count := _s_total_task_count r |}.

(** [tasks[index]] for an [int32_t] index: outside the deque the behaviour
    is undefined ([None]). *)
Definition deque_at (tasks : list TAgentTaskRequest) (index : Z)
    : option TAgentTaskRequest :=
  if index <? 0 then None else tasks !! Z.to_nat index.

(** [uint32_t TaskWorkerPool::_get_next_task_index(thread_count, tasks,
    priority)].  The result is the returned [uint32_t] and the registry
    afterwards; [None] stands for the undefined behaviour of indexing the
    deque outside its bounds.  The deque is taken to hold fewer than [2^32]
    requests, so that the [uint32_t] counter [i] does not wrap. *)
Definition _get_next_task_index (thread_count : Z)
    (tasks : list TAgentTaskRequest) (lane : TPriority) (r : registry)
    : option (Z * registry) :=
  let '(index, user_var) := scan_tasks thread_count r lane tasks 0 ""%string ∅ in
  if decide (index = -1) then
    if decide (lane = HIGH) then Some (Int.uint32 index, r)
    else
      match deque_at tasks 0 with
      | None => None
      | Some t0 => Some (Int.uint32 0, mark_running (task_type t0) (task_user t0) r)
      end
  else
    match deque_at tasks index with
    | None => None
    | Some t => Some (Int.uint32 index, mark_running (task_type t) user_var r)
    end.

(** The selection block of [_push_worker_thread_callback], built without
    BE_TEST, entered once [_tasks] is not empty.  On a negative index the
    worker notifies, sleeps and starts over: nothing is taken ([None] in
    the first component).  Otherwise the request at [index] is erased from
    the deque and handed on with the user it is accounted to. *)
Definition push_select (thread_count : Z) (lane : TPriority) (p : pool)
    : option (option (TAgentTaskRequest * string) * pool) :=
  match _get_next_task_index thread_count (_tasks p) lane (reg p) with
  | None => None
  | Some (ret, r') =>
      let index := Int.int32 ret in
      if index <? 0 then Some (None, {| _tasks := _tasks p; reg := r' |})
      else
        match deque_at (_tasks p) index with
        | None => None
        | Some agent_task_req =>
            Some (Some (agent_task_req, task_user agent_task_req),
                  {| _tasks := delete (Z.to_nat index) (_tasks p); reg := r' |})
        end
  end.

(** ** The scheduler as the specification words it *)

(** The test on exact fractions: no running request of the user, or
    [(running + 1) / thread_count <= total_by_user / total], for a positive
    [thread_count] and a positive [total]. *)
Definition selectable_exact (thread_count : Z) (r : registry) (k : TTaskType)
    (u : string) : bool :=
  bool_decide (running_by_user r k u = 0)
  || ((running_by_user r k u + 1) * total r k <=? total_by_user r k u * thread_count).

(** The NORMAL-lane scan of the specification's section 4.5: left to
    right, a request whose user is already in [improper_users] is skipped;
    a candidate that passes the test [ok] is selected, one that fails it
    puts its user into [improper_users].  The user of a request is the one
    it is accounted to, [task_user]. *)
Fixpoint fair_scan (ok : TTaskType -> string -> bool)
    (tasks : list TAgentTaskRequest) (i : nat) (improper_users : gset string)
    : option nat :=
  match tasks with
  | [] => None
  | task :: rest =>
      if decide (task_user task ∈ improper_users) then
        fair_scan ok rest (S i) improper_users
      else if ok (task_type task) (task_user task) then Some i
      else fair_scan ok rest (S i) ({[task_user task]} ∪ improper_users)
  end.

(** The request at position [k] is a candidate of the scan started with
    [improper_users] when it passes the test, its user is not in
    [improper_users] and no request in front of it is of the same user. *)
Definition candidate (ok : TTaskType -> string -> bool)
    (tasks : list TAgentTaskRequest) (improper_users : gset string) (k : nat)
    : Prop :=
  exists t,
    tasks !! k = Some t
    /\ ok (task_type t) (task_user t) = true
    /\ (task_user t ∉ improper_users)
    /\ (forall j t', (j < k)%nat -> tasks !! j = Some t' ->
                     task_user t' <> task_user t).

(** ... and the head of the queue when the scan selects nothing. *)
Definition fair_select (ok : TTaskType -> string -> bool)
    (tasks : list TAgentTaskRequest) : nat :=
  default O (fair_scan ok tasks O ∅).






(** ** Sample data *)

Module Sample.

Definition load_req : TPushReq :=
  {| push_type := LOAD; version := 0; version_hash := 0 |}.

(** A PUSH request for [u] (or without [resource_info]) with signature [s]. *)
Definition push_task (s : Z) (u : option string) (pr : option TPriority)
    : TAgentTaskRequest :=
  {| task_type := PUSH; signature := s; priority := pr;
     resource_info :=
       match u with
       | Some name => Some {| user := name; group := ""%string |}
       | None => None
       end;
     push_req := load_req |}.

Definition empty_registry : registry :=
  {| _s_task_signatures := ∅; _s_running_task_user_count := ∅;
     _s_total_task_user_count := ∅; _s_total_task_count := ∅ |}.

Definition empty_pool : pool := {| _tasks := []; reg := empty_registry |}.

Definition always (st : AgentStatus) : nat -> AgentStatus := fun _ => st.

(** The remote listing of scenario S4. *)
Definition s4_listing : string :=
  "data_0.dat" +:+ nl +:+ "header.hdr" +:+ nl +:+ "data_1.dat".

(** The queue of scenario S3: a NORMAL request of user A in front of a HIGH
    request of user B. *)
Definition s3_pool : pool :=
  submit_task (push_task 2 (Some "B"%string) (Some HIGH))
    (submit_task (push_task 1 (Some "A"%string) (Some NORMAL)) empty_pool).

(** A queue without any HIGH request. *)
Definition normal_only_pool : pool :=
  submit_task (push_task 2 (Some "B"%string) None)
    (submit_task (push_task 1 (Some "A"%string) (Some NORMAL)) empty_pool).

(** Three requests are submitted, two of user A and then one without
    [resource_info]; one of two workers is about to take the first. *)
Definition a1 : TAgentTaskRequest := push_task 1 (Some "A"%string) None.
Definition a2 : TAgentTaskRequest := push_task 2 (Some "A"%string) None.
Definition t3 : TAgentTaskRequest := push_task 3 None None.

Definition three_submitted : pool :=
  submit_task t3 (submit_task a2 (submit_task a1 empty_pool)).


(** A listing with a file whose whole name is the header suffix. *)
Definition bare_hdr_listing : string := "x.dat" +:+ nl +:+ ".hdr".

End Sample.

(** ** Completion: leaving the registry *)

(** [void TaskWorkerPool::_remove_task_info(task_type, signature, user)].
    [_s_task_signatures[task_type]] creates the entry of the kind when it
    is missing, so the kind is present afterwards even with an empty
    set. *)
Definition _remove_task_info (k : TTaskType) (s : Z) (u : string) (r : registry)
    : registry :=
  let sigs :=
    <[k := signature_set (_s_task_signatures r) k ∖ {[s]}]> (_s_task_signatures r) in
  if decide (k = PUSH) then
    {| _s_task_signatures := sigs;
       _s_running_task_user_count :=
         set_user_count (_s_running_task_user_count r) k u
           (Int.uint32 (user_count (_s_running_task_user_count r) k u - 1));
       _s_total_task_user_count :=
         set_user_count (_s_total_task_user_count r) k u
           (Int.uint32 (user_count (_s_total_task_user_count r) k u - 1));
       _s_total_task_count :=
         set_type_count (_s_total_task_count r) k
           (Int.uint32 (type_count (_s_total_task_count r) k - 1)) |}
  else
    {| _s_task_signatures := sigs;
       _s_running_task_user_count := _s_running_task_user_count r;
       _s_total_task_user_count := _s_total_task_user_count r;
       _s_total_task_count := _s_total_task_count r |}.

(** The sum of the per-user counters of one kind, and the statement that
    the total of the PUSH kind is that sum as a [uint32_t]. *)
Definition sum_counts (m : gmap string Z) : Z :=
  map_fold (fun _ v acc => v + acc) 0 m.

Definition totals_agree (r : registry) : Prop :=
  (sum_counts (default ∅ (_s_total_task_user_count r !! PUSH)) - total r PUSH)
    mod 2 ^ 32 = 0.

(** What identifies a request for the registry. *)
Definition task_key (t : TAgentTaskRequest) : TTaskType * Z :=
  (task_type t, signature t).

(** Submitting a list of requests, first to last. *)
Definition submit_all (ts : list TAgentTaskRequest) (p : pool) : pool :=
  fold_left (fun q t => submit_task t q) ts p.

(** Every queued request is registered under its kind, and no two queued
    requests have the same kind and signature. *)
Definition queue_registered (p : pool) : Prop :=
  forall t, t ∈ _tasks p -> signature t ∈ inflight (reg p) (task_type t).

Definition queue_distinct (p : pool) : Prop :=
  NoDup (task_key <$> _tasks p).

(** Every signature in flight belongs to a queued request. *)
Definition queue_covers (p : pool) : Prop :=
  forall k s, s ∈ inflight (reg p) k -> (k, s) ∈ task_key <$> _tasks p.

(** The value of the loop variable [user] of [_get_next_task_index] after
    it has gone over [tasks], starting from [u]; and its value when the
    loop stands at position [i] of the queue. *)
Fixpoint last_user (u : string) (tasks : list TAgentTaskRequest) : string :=
  match tasks with
  | [] => u
  | task :: rest =>
      last_user (match resource_info task with
                 | Some ri => user ri
                 | None => u
                 end) rest
  end.

Definition user_in_scan (tasks : list TAgentTaskRequest) (i : nat) : string :=
  last_user ""%string (take (S i) tasks).

(** ** One turn of a push worker *)

(** Modelled from the spec: the status codes of a finish report
    ([TStatusCode::type] of gen_cpp/Status_types.h, which is not part of
    the sources at hand); section 3 names the three the agent sends. *)
Inductive TStatusCode := OK | ANALYSIS_ERROR | RUNTIME_ERROR.

#[global] Instance TStatusCode_eq_dec : EqDecision TStatusCode.
Proof. solve_decision. Defined.

(** The fields of [TFinishTaskRequest] that the workers of this file set
    from their own state; an unset optional field is [None]. *)
Record TFinishTaskRequest := {
  finish_task_type : TTaskType;
  finish_signature : Z;
  finish_status_code : TStatusCode;
  finish_error_msgs : list string;
  finish_report_version : option Z;
  finish_request_version : option (Z * Z);
  finish_tablet_infos_set : bool
}.

(** [++_s_report_version] on the [atomic_ulong]. *)
Definition next_report_version (v : Z) : Z := (v + 1) mod 2 ^ 64.

(** What the outside answers to one turn of a push worker. *)
Record push_env := {
  pusher_init : AgentStatus;
  pusher_process : nat -> AgentStatus;
  delete_data_ok : bool;
  finish_answers : nat -> AgentStatus
}.

(** The process-wide state a push worker works on. *)
Record push_world := {
  world_pool : pool;
  _s_report_version : Z
}.

(** The report built at the end of [_push_worker_thread_callback]. *)
Definition push_finish_request (t : TAgentTaskRequest) (status : AgentStatus)
    (report_version : Z) : TFinishTaskRequest :=
  {| finish_task_type := task_type t;
     finish_signature := signature t;
     finish_status_code :=
       if decide (status = PALO_SUCCESS) then OK
       else if decide (status = PALO_TASK_REQUEST_ERROR) then ANALYSIS_ERROR
       else RUNTIME_ERROR;
     finish_error_msgs :=
       if decide (status = PALO_SUCCESS) then ["push success"%string]
       else if decide (status = PALO_TASK_REQUEST_ERROR)
            then ["push request push_type invalid."%string]
            else ["push failed"%string];
     finish_report_version := Some report_version;
     finish_request_version :=
       if decide (push_type (push_req t) = DELETE)
       then Some (version (push_req t), version_hash (push_req t))
       else None;
     finish_tablet_infos_set := bool_decide (status = PALO_SUCCESS) |}.

(** One turn of the [while (true)] loop of [_push_worker_thread_callback],
    built without BE_TEST, entered with a non-empty queue.  [None] in the
    first component of the result is the turn that finds no request for
    its lane and sleeps one second; otherwise the component holds the
    report and the calls made. *)
Definition push_worker_turn (fuel : nat) (thread_count : Z) (lane : TPriority)
    (env : push_env) (w : push_world)
    : option (option (TFinishTaskRequest * list event) * push_world) :=
  match push_select thread_count lane (world_pool w) with
  | None => None
  | Some (None, p') =>
      Some (None, {| world_pool := p'; _s_report_version := _s_report_version w |})
  | Some (Some (agent_task_req, user_name), p') =>
      match push_execute fuel (push_req agent_task_req) (pusher_init env)
              (pusher_process env) (delete_data_ok env) with
      | None => None
      | Some (status, tr_push) =>
          let report_version :=
            if decide (status = PALO_SUCCESS)
            then next_report_version (_s_report_version w)
            else _s_report_version w in
          let finish_task_request :=
            push_finish_request agent_task_req status report_version in
          match _finish_task fuel (finish_answers env) with
          | None => None
          | Some tr_finish =>
              Some (Some (finish_task_request, tr_push ++ tr_finish),
                    {| world_pool :=
                         {| _tasks := _tasks p';
                            reg := _remove_task_info (task_type agent_task_req)
                                     (signature agent_task_req) user_name (reg p') |};
                       _s_report_version := report_version |})
          end
      end
  end.


(** ** The worker of the CREATE_TABLE pool *)

(** The report built by [_create_table_worker_thread_callback]; it has no
    error messages, no request version and no tablet infos. *)
Definition create_table_finish_request (t : TAgentTaskRequest) (create_ok : bool)
    (report_version : Z) : TFinishTaskRequest :=
  {| finish_task_type := task_type t;
     finish_signature := signature t;
     finish_status_code := if create_ok then OK else RUNTIME_ERROR;
     finish_error_msgs := [];
     finish_report_version := Some report_version;
     finish_request_version := None;
     finish_tablet_infos_set := false |}.

(** One turn of the [while (true)] loop of
    [_create_table_worker_thread_callback], entered with a non-empty queue
    (on an empty queue the worker waits, which is [None] here, as is a
    lack of fuel).  [create_ok] says whether [create_table] returned
    [OLAP_SUCCESS]. *)
Definition create_table_worker_turn (fuel : nat) (create_ok : bool)
    (master_client : nat -> AgentStatus) (w : push_world)
    : option (TFinishTaskRequest * list event * push_world) :=
  match _tasks (world_pool w) with
  | [] => None
  | agent_task_req :: rest =>
      let report_version :=
        if create_ok then next_report_version (_s_report_version w)
        else _s_report_version w in
      let finish_task_request :=
        create_table_finish_request agent_task_req create_ok report_version in
      match _finish_task fuel master_client with
      | None => None
      | Some tr =>
          Some (finish_task_request, tr,
                {| world_pool :=
                     {| _tasks := rest;
                        reg := _remove_task_info (task_type agent_task_req)
                                 (signature agent_task_req) ""
                                 (reg (world_pool w)) |};
                   _s_report_version := report_version |})
      end
  end.

(** [turns] turns of one worker, one after the other; the engine answers
    turn [n] with [create_table n] and the master answers its reports with
    [master_client n].  The result lists the reports in the order sent. *)
Fixpoint create_table_worker_run (fuel : nat) (create_table : nat -> bool)
    (master_client : nat -> nat -> AgentStatus) (n turns : nat) (w : push_world)
    : option (list TFinishTaskRequest * push_world) :=
  match turns with
  | O => Some ([], w)
  | S turns' =>
      match create_table_worker_turn fuel (create_table n) (master_client n) w with
      | None => None
      | Some (req, _, w') =>
          match create_table_worker_run fuel create_table master_client (S n) turns' w' with
          | None => None
          | Some (reqs, w'') => Some (req :: reqs, w'')
          end
      end
  end.

Definition finish_key (r : TFinishTaskRequest) : TTaskType * Z :=
  (finish_task_type r, finish_signature r).

(** ** The lanes of the push workers *)

(** The block at the head of [_push_worker_thread_callback], run under the
    pool's lock: the comparison of the [uint32_t] counter with the
    [int32_t] setting is made on [uint32_t].  The result is the lane of the
    worker and the new value of [s_worker_count]. *)
Definition push_worker_lane (push_worker_count_high_priority : Z)
    (s_worker_count : Z) : TPriority * Z :=
  if s_worker_count <? Int.uint32 push_worker_count_high_priority
  then (HIGH, Int.uint32 (s_worker_count + 1))
  else (NORMAL, s_worker_count).

(** The lanes of [n] workers that run this block one after the other. *)
Fixpoint push_worker_lanes (n : nat) (push_worker_count_high_priority : Z)
    (s_worker_count : Z) : list TPriority :=
  match n with
  | O => []
  | S n' =>
      let '(lane, c) :=
        push_worker_lane push_worker_count_high_priority s_worker_count in
      lane :: push_worker_lanes n' push_worker_count_high_priority c
  end.

(** ** Clone: copying the files from a source backend *)

(** Conversion to [uint64_t]. *)
Definition uint64 (z : Z) : Z := z mod 2 ^ 64.

(** The two settings [_clone_copy] reads.  Their declarations
    (common/config.h) are not part of the sources at hand; they are
    integers, and in the arithmetic with the [uint64_t] file size they are
    converted to [uint64_t]. *)
Record clone_config := {
  download_low_speed_limit_kbps : Z;
  download_low_speed_time : Z
}.

(** What one source backend answers: to [make_snapshot], and to the calls
    of the file downloaders.  [list_file_dir n] is the status and the
    value of [file_list_str] after the call made with
    [download_retry_time = n]; [get_length i n] and [download_file i n]
    answer the call for the [i]-th file of the download list made with
    [download_retry_time = n], the second component being the remote size
    reported and the size of the local file after the download. *)
Record backend_answers := {
  make_snapshot_ok : bool;
  snapshot_path : option string;
  list_file_dir : Z -> AgentStatus * string;
  get_length : nat -> Z -> AgentStatus * Z;
  download_file : nat -> Z -> AgentStatus * Z
}.

(** The calls [_clone_copy] makes, [b] being the position of the backend
    in [src_backends]. *)
Inductive clone_event :=
  | MakeSnapshot (b : nat)
  | PrepareLocalDir (b : nat)
  | ListFileDir (b : nat) (result : AgentStatus)
  | GetLength (b : nat) (file_name : string) (result : AgentStatus)
  | DownloadFile (b : nat) (file_name : string) (curl_opt_timeout : Z)
      (result : AgentStatus)
  | Chmod (b : nat) (file_name : string)
  | ReleaseSnapshot (b : nat) (path : string)
  | CloneSleep (seconds : Z).

#[global] Instance clone_event_eq_dec : EqDecision clone_event.
Proof. solve_decision. Defined.

(** A call either returns or does not: [std::string::at] throws on the
    empty snapshot path, and the division by a zero speed limit has no
    defined result. *)
Inductive outcome (A : Type) :=
  | Returns (a : A)
  | Fails.

Arguments Returns {A} a.
Arguments Fails {A}.

(** The loop around [list_file_dir]. *)
Fixpoint list_file_dir_loop (fuel : nat) (b : nat) (env : backend_answers)
    (status : AgentStatus) (download_retry_time : Z)
    (download_status : AgentStatus) (file_list_str : string)
    : option (AgentStatus * string * list clone_event) :=
  match fuel with
  | O => None
  | S fuel' =>
      if bool_decide (status = PALO_SUCCESS)
         && (download_retry_time <? DOWNLOAD_FILE_MAX_RETRY)
      then
        let '(st, str) := list_file_dir env download_retry_time in
        if decide (st <> PALO_SUCCESS) then
          let retry := Int.uint32 (download_retry_time + 1) in
          match list_file_dir_loop fuel' b env status retry st str with
          | None => None
          | Some (ds, s, tr) =>
              Some (ds, s, ListFileDir b st :: CloneSleep retry :: tr)
          end
        else Some (st, str, [ListFileDir b st])
      else Some (download_status, file_list_str, [])
  end.

(** The loop around [get_length] for the [i]-th file. *)
Fixpoint get_length_loop (fuel : nat) (b : nat) (env : backend_answers)
    (i : nat) (file_name : string) (download_retry_time : Z)
    (download_status : AgentStatus) (file_size : Z)
    : option (AgentStatus * Z * list clone_event) :=
  match fuel with
  | O => None
  | S fuel' =>
      if download_retry_time <? DOWNLOAD_FILE_MAX_RETRY then
        let '(st, size) := get_length env i download_retry_time in
        if decide (st <> PALO_SUCCESS) then
          let retry := Int.uint32 (download_retry_time + 1) in
          match get_length_loop fuel' b env i file_name retry st size with
          | None => None
          | Some (ds, sz, tr) =>
              Some (ds, sz, GetLength b file_name st :: CloneSleep retry :: tr)
          end
        else Some (st, size, [GetLength b file_name st])
      else Some (download_status, file_size, [])
  end.

(** The time allowed for the download of a file of [file_size] bytes;
    [None] when the speed limit is 0. *)
Definition estimate_time_out (cfg : clone_config) (file_size : Z) : option Z :=
  let kbps := uint64 (download_low_speed_limit_kbps cfg) in
  if decide (kbps = 0) then None
  else
    let estimate := file_size / kbps / 1024 in
    Some (if estimate <? uint64 (download_low_speed_time cfg)
          then uint64 (download_low_speed_time cfg)
          else estimate).

(** The loop around [download_file] for the [i]-th file: a download whose
    local size differs from [file_size] counts as failed. *)
Fixpoint download_file_loop (fuel : nat) (b : nat) (env : backend_answers)
    (i : nat) (file_name : string) (file_size : Z) (curl_opt_timeout : Z)
    (download_retry_time : Z) (download_status : AgentStatus)
    : option (AgentStatus * list clone_event) :=
  match fuel with
  | O => None
  | S fuel' =>
      if download_retry_time <? DOWNLOAD_FILE_MAX_RETRY then
        let '(st, local_file_size) := download_file env i download_retry_time in
        let retry := Int.uint32 (download_retry_time + 1) in
        let again (ds : AgentStatus) :=
          match download_file_loop fuel' b env i file_name file_size
                  curl_opt_timeout retry ds with
          | None => None
          | Some (ds', tr) =>
              Some (ds', DownloadFile b file_name curl_opt_timeout st
                           :: CloneSleep retry :: tr)
          end in
        if decide (st <> PALO_SUCCESS) then again st
        else if decide (local_file_size <> file_size)
             then again PALO_FILE_DOWNLOAD_FAILED
             else Some (st, [DownloadFile b file_name curl_opt_timeout st;
                             Chmod b file_name])
      else Some (download_status, [])
  end.

(** The loop over [file_name_list], [i] counting the files. *)
Fixpoint clone_files (fuel : nat) (cfg : clone_config) (b : nat)
    (env : backend_answers) (i : nat) (file_name_list : list string)
    (status download_status : AgentStatus)
    : option (outcome AgentStatus * list clone_event) :=
  match file_name_list with
  | [] => Some (Returns status, [])
  | file_name :: rest =>
      match get_length_loop fuel b env i file_name 0 download_status 0 with
      | None => None
      | Some (ds, file_size, tr1) =>
          if decide (ds <> PALO_SUCCESS) then Some (Returns PALO_ERROR, tr1)
          else
            match estimate_time_out cfg file_size with
            | None => Some (Fails, tr1)
            | Some estimate =>
                match download_file_loop fuel b env i file_name file_size
                        estimate 0 ds with
                | None => None
                | Some (ds', tr2) =>
                    if decide (ds' <> PALO_SUCCESS)
                    then Some (Returns PALO_ERROR, tr1 ++ tr2)
                    else
                      match clone_files fuel cfg b env (S i) rest status ds' with
                      | None => None
                      | Some (o, tr3) => Some (o, tr1 ++ tr2 ++ tr3)
                      end
                end
            end
      end
  end.

(** The body of the loop over [src_backends] for the backend at position
    [b], built without BE_TEST; the result is the value of [status] at the
    end of the body. *)
Definition clone_from_backend (fuel : nat) (cfg : clone_config) (b : nat)
    (env : backend_answers) : option (outcome AgentStatus * list clone_event) :=
  if make_snapshot_ok env then
    match snapshot_path env with
    | Some path =>
        if decide (path = ""%string) then Some (Fails, [MakeSnapshot b])
        else
          match list_file_dir_loop fuel b env PALO_SUCCESS 0 PALO_SUCCESS "" with
          | None => None
          | Some (ds, file_list_str, tr1) =>
              match
                (if decide (ds <> PALO_SUCCESS) then Some (PALO_ERROR, [])
                 else
                   match clone_file_name_list fuel file_list_str with
                   | None => None
                   | Some l => Some (PALO_SUCCESS, l)
                   end)
              with
              | None => None
              | Some (status, file_name_list) =>
                  match clone_files fuel cfg b env 0 file_name_list status ds with
                  | None => None
                  | Some (Fails, tr2) =>
                      Some (Fails,
                            [MakeSnapshot b; PrepareLocalDir b] ++ tr1 ++ tr2)
                  | Some (Returns status', tr2) =>
                      Some (Returns status',
                            [MakeSnapshot b; PrepareLocalDir b] ++ tr1 ++ tr2
                            ++ [ReleaseSnapshot b path])
                  end
              end
          end
    | None => Some (Returns PALO_ERROR, [MakeSnapshot b])
    end
  else Some (Returns PALO_ERROR, [MakeSnapshot b]).

(** The loop over [src_backends]: it ends at the first backend that
    leaves [status] at [PALO_SUCCESS]. *)
Fixpoint clone_backends (fuel : nat) (cfg : clone_config) (b : nat)
    (src_backends : list backend_answers) (status : AgentStatus)
    : option (outcome AgentStatus * list clone_event) :=
  match src_backends with
  | [] => Some (Returns status, [])
  | env :: rest =>
      match clone_from_backend fuel cfg b env with
      | None => None
      | Some (Fails, tr) => Some (Fails, tr)
      | Some (Returns status', tr) =>
          if decide (status' = PALO_SUCCESS) then Some (Returns status', tr)
          else
            match clone_backends fuel cfg (S b) rest status' with
            | None => None
            | Some (o, tr') => Some (o, tr ++ tr')
            end
      end
  end.

Definition _clone_copy (fuel : nat) (cfg : clone_config)
    (src_backends : list backend_answers)
    : option (outcome AgentStatus * list clone_event) :=
  clone_backends fuel cfg 0 src_backends PALO_SUCCESS.

(** The files made readable, in the order of the calls; the calls of one
    kind in a trace. *)
Definition chmod_names (tr : list clone_event) : list string :=
  omap (fun e => match e with Chmod _ f => Some f | _ => None end) tr.

Definition is_download (e : clone_event) : bool :=
  match e with DownloadFile _ _ _ _ => true | _ => false end.

Definition sleeps (tr : list clone_event) : list Z :=
  omap (fun e => match e with CloneSleep s => Some s | _ => None end) tr.

Definition contacted (tr : list clone_event) : list nat :=
  omap (fun e => match e with MakeSnapshot b => Some b | _ => None end) tr.

Definition released (tr : list clone_event) : list nat :=
  omap (fun e => match e with ReleaseSnapshot b _ => Some b | _ => None end) tr.

(** The backends whose [make_snapshot] answers [OK] with a snapshot path. *)
Definition snapshot_usable (env : backend_answers) : bool :=
  make_snapshot_ok env && bool_decide (is_Some (snapshot_path env)).

Definition usable_at (src_backends : list backend_answers) (b : nat) : bool :=
  match src_backends !! b with
  | Some env => snapshot_usable env
  | None => false
  end.

(** A trace without [make_snapshot], [release_snapshot] and [chmod]. *)
Definition quiet (tr : list clone_event) : Prop :=
  chmod_names tr = [] /\ contacted tr = [] /\ released tr = [].

Module CloneSample.

Definition cfg : clone_config :=
  {| download_low_speed_limit_kbps := 50; download_low_speed_time := 300 |}.

(** A backend that answers every call with success: its listing is the
    one of scenario S4 and every file has 10 bytes. *)
Definition good_backend : backend_answers :=
  {| make_snapshot_ok := true;
     snapshot_path := Some "/snapshot"%string;
     list_file_dir := fun _ => (PALO_SUCCESS, Sample.s4_listing);
     get_length := fun _ _ => (PALO_SUCCESS, 10);
     download_file := fun _ _ => (PALO_SUCCESS, 10) |}.

(** A backend whose snapshot works but whose downloads are always one
    byte short, and a backend that refuses the snapshot. *)
Definition short_backend : backend_answers :=
  {| make_snapshot_ok := true;
     snapshot_path := Some "/snapshot/"%string;
     list_file_dir := fun _ => (PALO_SUCCESS, Sample.s4_listing);
     get_length := fun _ _ => (PALO_SUCCESS, 10);
     download_file := fun _ _ => (PALO_SUCCESS, 9) |}.

Definition refusing_backend : backend_answers :=
  {| make_snapshot_ok := false;
     snapshot_path := None;
     list_file_dir := fun _ => (PALO_ERROR, ""%string);
     get_length := fun _ _ => (PALO_ERROR, 0);
     download_file := fun _ _ => (PALO_ERROR, 0) |}.

End CloneSample.

(** ** The alter worker *)

(** The values of [AlterTableStatus] that [_alter_table] names, and any
    other value of the enum, whose declaration is not part of the sources
    at hand. *)
Inductive AlterTableStatus :=
  | ALTER_TABLE_WAITING | ALTER_TABLE_DONE | ALTER_TABLE_FAILED
  | ALTER_TABLE_OTHER.

#[global] Instance AlterTableStatus_eq_dec : EqDecision AlterTableStatus.
Proof. solve_decision. Defined.

(** What the engine answers during one [_alter_table]: the status of the
    last alter, and whether [drop_table], the alter itself
    ([create_rollup_table] or [schema_change]) and [report_tablet_info]
    return [OLAP_SUCCESS]; and the text [print_agent_status] gives. *)
Record alter_env := {
  show_alter_table_status : AlterTableStatus;
  drop_table_ok : bool;
  alter_ok : bool;
  report_tablet_info_ok : bool;
  print_agent_status : AgentStatus -> string
}.

Inductive alter_event :=
  | ShowAlterTableStatus | DropTable | CreateRollupTable | SchemaChange
  | ReportTabletInfo.

#[global] Instance alter_event_eq_dec : EqDecision alter_event.
Proof. solve_decision. Defined.

Definition _drop_table (drop_ok : bool) : AgentStatus :=
  if drop_ok then PALO_SUCCESS else PALO_ERROR.

Definition _get_tablet_info (report_ok : bool) : AgentStatus :=
  if report_ok then PALO_SUCCESS else PALO_ERROR.

(** [_alter_table]: the report, the calls to the engine and the new value
    of [_s_report_version]. *)
Definition _alter_table (env : alter_env) (signature : Z) (task_type : TTaskType)
    (report_version : Z) : TFinishTaskRequest * list alter_event * Z :=
  let process_name :=
    match task_type with
    | ROLLUP => "roll up"%string
    | SCHEMA_CHANGE => "schema change"%string
    | _ => ""%string
    end in
  let status0 :=
    match task_type with
    | ROLLUP | SCHEMA_CHANGE => PALO_SUCCESS
    | _ => PALO_TASK_REQUEST_ERROR
    end in
  let '(status1, error_msgs1, tr1) :=
    if decide (status0 = PALO_SUCCESS) then
      let alter_table_status := show_alter_table_status env in
      let '(status_d, msgs_d, tr_d) :=
        if decide (alter_table_status = ALTER_TABLE_FAILED) then
          let st := _drop_table (drop_table_ok env) in
          (st,
           if decide (st <> PALO_SUCCESS)
           then [("delete failed rollup file failed, signature: "
                  +:+ print_int64 signature)%string]
           else [],
           [ShowAlterTableStatus; DropTable])
        else (status0, [], [ShowAlterTableStatus]) in
      if decide (status_d = PALO_SUCCESS) then
        if bool_decide (alter_table_status = ALTER_TABLE_DONE)
           || bool_decide (alter_table_status = ALTER_TABLE_FAILED)
           || bool_decide (alter_table_status = ALTER_TABLE_WAITING)
        then
          match task_type with
          | ROLLUP =>
              (if alter_ok env then status_d else PALO_ERROR, msgs_d,
               tr_d ++ [CreateRollupTable])
          | SCHEMA_CHANGE =>
              (if alter_ok env then status_d else PALO_ERROR, msgs_d,
               tr_d ++ [SchemaChange])
          | _ => (status_d, msgs_d, tr_d)
          end
        else (status_d, msgs_d, tr_d)
      else (status_d, msgs_d, tr_d)
    else (status0, [], []) in
  let report_version' :=
    if decide (status1 = PALO_SUCCESS) then next_report_version report_version
    else report_version in
  let '(status2, tr2) :=
    if decide (status1 = PALO_SUCCESS)
    then (_get_tablet_info (report_tablet_info_ok env), tr1 ++ [ReportTabletInfo])
    else (status1, tr1) in
  ({| finish_task_type := task_type;
      finish_signature := signature;
      finish_status_code :=
        if decide (status2 = PALO_SUCCESS) then OK
        else if decide (status2 = PALO_TASK_REQUEST_ERROR) then ANALYSIS_ERROR
        else RUNTIME_ERROR;
      finish_error_msgs :=
        error_msgs1 ++
        (if decide (status2 = PALO_SUCCESS) then [process_name +:+ " success"]
         else if decide (status2 = PALO_TASK_REQUEST_ERROR)
              then ["alter table request new tablet id or schema count invalid."]
              else [process_name +:+ " failed";
                    "status: " +:+ print_agent_status env status2])%string;
      finish_report_version := Some report_version';
      finish_request_version := None;
      finish_tablet_infos_set := bool_decide (status2 = PALO_SUCCESS) |},
   tr2, report_version').

(** The [switch] of [_alter_table_worker_thread_callback]: the report is
    [None] when the request is of neither alter kind, the worker then
    sending a [TFinishTaskRequest] on which it has set nothing. *)
Definition alter_table_worker_report (env : alter_env) (t : TAgentTaskRequest)
    (report_version : Z) : option TFinishTaskRequest * list alter_event * Z :=
  match task_type t with
  | SCHEMA_CHANGE | ROLLUP =>
      let '(req, calls, v) :=
        _alter_table env (signature t) (task_type t) report_version in
      (Some req, calls, v)
  | _ => (None, [], report_version)
  end.

(** One turn of [_alter_table_worker_thread_callback], entered with a
    non-empty queue. *)
Definition alter_table_worker_turn (fuel : nat) (env : alter_env)
    (master_client : nat -> AgentStatus) (w : push_world)
    : option (option TFinishTaskRequest * list alter_event * list event
              * push_world) :=
  match _tasks (world_pool w) with
  | [] => None
  | agent_task_req :: rest =>
      let '(finish_task_request, calls, report_version) :=
        alter_table_worker_report env agent_task_req (_s_report_version w) in
      match _finish_task fuel master_client with
      | None => None
      | Some tr =>
          Some (finish_task_request, calls, tr,
                {| world_pool :=
                     {| _tasks := rest;
                        reg := _remove_task_info (task_type agent_task_req)
                                 (signature agent_task_req) ""
                                 (reg (world_pool w)) |};
                   _s_report_version := report_version |})
      end
  end.

Module AlterSample.

(** An engine on which the last alter is done and every call succeeds. *)
Definition done_env : alter_env :=
  {| show_alter_table_status := ALTER_TABLE_DONE;
     drop_table_ok := true; alter_ok := true; report_tablet_info_ok := true;
     print_agent_status := fun _ => "error"%string |}.

(** A ROLLUP request with signature 9, alone in the queue. *)
Definition rollup_task : TAgentTaskRequest :=
  {| task_type := ROLLUP; signature := 9; priority := None;
     resource_info := None; push_req := Sample.load_req |}.

Definition rollup_submitted : pool := submit_task rollup_task Sample.empty_pool.

End AlterSample.

(** ** The clone worker *)

(** The two optional fields of [TCloneReq] the worker compares with the
    cloned tablet. *)
Record TCloneReq := {
  committed_version : option Z;
  committed_version_hash : option Z
}.

(** What the engine answers during one clone task: whether [get_table]
    finds the tablet, whether [obtain_shard_path], [load_header] and
    [report_tablet_info] return [OLAP_SUCCESS], and the version and
    version hash [report_tablet_info] fills in; the result of the
    [drop_table] of a stale tablet is only logged. *)
Record clone_env := {
  get_table_exists : bool;
  obtain_shard_path_ok : bool;
  load_header_ok : bool;
  clone_report_tablet_info_ok : bool;
  tablet_info_version : Z;
  tablet_info_version_hash : Z
}.

Inductive clone_call :=
  | GetTable | ObtainShardPath
  | CloneCopy (tr : list clone_event)
  | LoadHeader | RemoveLocalDir | CloneReportTabletInfo | CloneDropTable.

(** The test that makes the worker drop the tablet it has just cloned or
    found. *)
Definition is_stale (clone_req : TCloneReq) (version version_hash : Z) : bool :=
  match committed_version clone_req, committed_version_hash clone_req with
  | Some cv, Some ch =>
      (version <? cv) || ((version =? cv) && negb (version_hash =? ch))
  | _, _ => false
  end.

(** The body of [_clone_worker_thread_callback] between taking the request
    and sending the report, built without BE_TEST: the status code of the
    report, whether [finish_tablet_infos] is set, and the calls made.  The
    error messages of the report are left out. *)
Definition clone_task (fuel : nat) (cfg : clone_config) (env : clone_env)
    (clone_req : TCloneReq) (src_backends : list backend_answers)
    : option (outcome (TStatusCode * bool * list clone_call)) :=
  let status0 :=
    if get_table_exists env then PALO_CREATE_TABLE_EXIST else PALO_SUCCESS in
  let '(status1, tr1) :=
    if decide (status0 = PALO_SUCCESS)
    then (if obtain_shard_path_ok env then status0 else PALO_ERROR,
          [GetTable; ObtainShardPath])
    else (status0, [GetTable]) in
  match
    (if decide (status1 = PALO_SUCCESS) then
       match _clone_copy fuel cfg src_backends with
       | None => None
       | Some (Fails, _) => Some Fails
       | Some (Returns st, tr) => Some (Returns (st, tr1 ++ [CloneCopy tr]))
       end
     else Some (Returns (status1, tr1)))
  with
  | None => None
  | Some Fails => Some Fails
  | Some (Returns (status2, tr2)) =>
      let '(status3, tr3) :=
        if decide (status2 = PALO_SUCCESS)
        then (if load_header_ok env then status2 else PALO_ERROR,
              tr2 ++ [LoadHeader])
        else (status2, tr2) in
      let tr4 :=
        if decide (status3 <> PALO_SUCCESS /\ status3 <> PALO_CREATE_TABLE_EXIST)
        then tr3 ++ [RemoveLocalDir] else tr3 in
      let '(status5, tr5) :=
        if decide (status3 = PALO_SUCCESS \/ status3 = PALO_CREATE_TABLE_EXIST)
        then
          if decide (_get_tablet_info (clone_report_tablet_info_ok env)
                     <> PALO_SUCCESS)
          then (PALO_ERROR, tr4 ++ [CloneReportTabletInfo])
          else if is_stale clone_req (tablet_info_version env)
                    (tablet_info_version_hash env)
               then (PALO_ERROR, tr4 ++ [CloneReportTabletInfo; CloneDropTable])
               else (status3, tr4 ++ [CloneReportTabletInfo])
        else (status3, tr4) in
      if decide (status5 <> PALO_SUCCESS /\ status5 <> PALO_CREATE_TABLE_EXIST)
      then Some (Returns (RUNTIME_ERROR, false, tr5))
      else Some (Returns (OK, true, tr5))
  end.

(** Whether the copy from the source backends ends with [PALO_SUCCESS]. *)
Definition clone_copy_ok (fuel : nat) (cfg : clone_config)
    (src_backends : list backend_answers) : bool :=
  match _clone_copy fuel cfg src_backends with
  | Some (Returns PALO_SUCCESS, _) => true
  | _ => false
  end.

(** ** The task reporter *)

(** The [tasks] field of the request [_report_task_worker_thread_callback]
    sends: the whole map of signatures, kinds with an empty set included. *)
Definition report_task_request (r : registry) : gmap TTaskType (gset Z) :=
  _s_task_signatures r.

Definition is_clone_copy (c : clone_call) : bool :=
  match c with CloneCopy _ => true | _ => false end.

Definition is_clone_drop_table (c : clone_call) : bool :=
  match c with CloneDropTable => true | _ => false end.

Definition is_remove_local_dir (c : clone_call) : bool :=
  match c with RemoveLocalDir => true | _ => false end.

(** ** The push pool between its calls *)

(** The pool together with the requests that workers have taken and not
    yet removed. *)
Record push_pool_state := {
  ps_pool : pool;
  in_progress : list TAgentTaskRequest
}.

(** The calls that change the accounts of the pool, each taken as a whole:
    [submit_task]; the selection block of a NORMAL-lane worker; and the
    [_remove_task_info] at the end of the turn of the worker that holds the
    [j]-th request in progress. *)
Inductive push_op :=
  | OpSubmit (t : TAgentTaskRequest)
  | OpSelect
  | OpFinish (j : nat).

(** [None] when the call cannot be made: a selection on an empty queue
    waits, and there is no worker to finish a request that is not in
    progress. *)
Definition push_op_step (thread_count : Z) (op : push_op) (s : push_pool_state)
    : option push_pool_state :=
  match op with
  | OpSubmit t =>
      Some {| ps_pool := submit_task t (ps_pool s); in_progress := in_progress s |}
  | OpSelect =>
      match push_select thread_count NORMAL (ps_pool s) with
      | Some (Some (t, _), p') =>
          Some {| ps_pool := p'; in_progress := in_progress s ++ [t] |}
      | _ => None
      end
  | OpFinish j =>
      match in_progress s !! j with
      | Some t =>
          Some {| ps_pool :=
                    {| _tasks := _tasks (ps_pool s);
                       reg := _remove_task_info (task_type t) (signature t)
                                (task_user t) (reg (ps_pool s)) |};
                  in_progress := delete j (in_progress s) |}
      | None => None
      end
  end.

Fixpoint push_ops_run (thread_count : Z) (ops : list push_op) (s : push_pool_state)
    : option push_pool_state :=
  match ops with
  | [] => Some s
  | op :: ops' =>
      match push_op_step thread_count op s with
      | Some s' => push_ops_run thread_count ops' s'
      | None => None
      end
  end.

(** The requests of a list that are accounted to user [u]. *)
Definition count_user (u : string) (l : list TAgentTaskRequest) : nat :=
  length (List.filter (fun t => bool_decide (task_user t = u)) l).

(** The counters say what is there: the running count of a user is the
    number of his requests in progress, his total the number of his
    requests queued or in progress, and the PUSH total the number of all
    requests queued or in progress. *)
Definition accounts_exact (s : push_pool_state) : Prop :=
  (forall u, running_by_user (reg (ps_pool s)) PUSH u
             = Z.of_nat (count_user u (in_progress s)))
  /\ (forall u, total_by_user (reg (ps_pool s)) PUSH u
                = Z.of_nat (count_user u (_tasks (ps_pool s))
                            + count_user u (in_progress s)))
  /\ total (reg (ps_pool s)) PUSH
     = Z.of_nat (length (_tasks (ps_pool s)) + length (in_progress s)).

(** Every request queued or in progress is a PUSH request; and how many
    there are. *)
Definition all_push (s : push_pool_state) : Prop :=
  forall t, t ∈ _tasks (ps_pool s) ++ in_progress s -> task_type t = PUSH.

Definition state_size (s : push_pool_state) : nat :=
  (length (_tasks (ps_pool s)) + length (in_progress s))%nat.

(** ** The restore worker *)

(** What the outside answers during one restore task: whether
    [write_json_to_file], [obtain_shard_path], [exec_cmd] and [load_header]
    succeed, whether the local directory exists after the download, the
    entries the recursive directory iterator yields (each with the answer
    of [is_directory]), and whether [report_tablet_info] succeeds. *)
Record restore_env := {
  write_json_to_file_ok : bool;
  restore_shard_path_ok : bool;
  exec_cmd_ok : bool;
  local_file_path_exists : bool;
  directory_entries : list (bool * string);
  restore_load_header_ok : bool;
  restore_tablet_info_ok : bool
}.

Inductive restore_call :=
  | WriteJsonToFile | RestoreObtainShardPath | ExecCmd
  | Rename (file_path_str new_file_path_str : string)
  | RestoreLoadHeader | RestoreReportTabletInfo.

(** The renaming loop over the directory entries; it does not return when
    [substr] throws. *)
Fixpoint restore_rename_loop (tablet_id : Z) (entries : list (bool * string))
    : outcome (list restore_call) :=
  match entries with
  | [] => Returns []
  | (is_directory, file_path_str) :: rest =>
      match restore_rename tablet_id is_directory file_path_str with
      | Unchanged => restore_rename_loop tablet_id rest
      | Renamed new_file_path_str =>
          match restore_rename_loop tablet_id rest with
          | Returns calls => Returns (Rename file_path_str new_file_path_str :: calls)
          | Fails => Fails
          end
      | OutOfRange => Fails
      end
  end.

(** The body of [_restore_worker_thread_callback] between taking the
    request and sending the report: the status code of the report, the
    number of tablet infos in [finish_tablet_infos] (which is always set),
    and the calls made. *)
Definition restore_task (tablet_id : Z) (env : restore_env)
    : outcome (TStatusCode * nat * list restore_call) :=
  let status1 := if write_json_to_file_ok env then OK else RUNTIME_ERROR in
  let '(status2, tr2) :=
    if decide (status1 = OK)
    then (if restore_shard_path_ok env then status1 else RUNTIME_ERROR,
          [WriteJsonToFile; RestoreObtainShardPath])
    else (status1, [WriteJsonToFile]) in
  let '(status3, tr3) :=
    if decide (status2 = OK)
    then (if exec_cmd_ok env then status2 else RUNTIME_ERROR, tr2 ++ [ExecCmd])
    else (status2, tr2) in
  match
    (if bool_decide (status3 = OK) && local_file_path_exists env
     then restore_rename_loop tablet_id (directory_entries env)
     else Returns [])
  with
  | Fails => Fails
  | Returns renames =>
      let '(status4, tr4) :=
        if decide (status3 = OK)
        then (if restore_load_header_ok env then status3 else RUNTIME_ERROR,
              tr3 ++ renames ++ [RestoreLoadHeader])
        else (status3, tr3 ++ renames) in
      if decide (status4 = OK)
      then Returns (status4,
                    if decide (_get_tablet_info (restore_tablet_info_ok env)
                               <> PALO_SUCCESS)
                    then 0%nat else 1%nat,
                    tr4 ++ [RestoreReportTabletInfo])
      else Returns (status4, 0%nat, tr4)
  end.

Definition is_rename (c : restore_call) : bool :=
  match c with Rename _ _ => true | _ => false end.

Module RestoreSample.

(** A restore whose every step succeeds but the tablet info lookup, with
    one header file in the directory. *)
Definition lookup_fails : restore_env :=
  {| write_json_to_file_ok := true;
     restore_shard_path_ok := true;
     exec_cmd_ok := true;
     local_file_path_exists := true;
     directory_entries := [(true, "/d/sub"%string); (false, "/d/10_3.hdr"%string)];
     restore_load_header_ok := true;
     restore_tablet_info_ok := false |}.

End RestoreSample.

(** * Properties *)

Module IntFacts.
Import Int.

Lemma uint32_small z : 0 <= z < 2 ^ 32 -> uint32 z = z.
Proof. intros H. unfold uint32. now apply Z.mod_small. Qed.

Lemma uint32_range z : 0 <= uint32 z < 2 ^ 32.
Proof. unfold uint32. apply Z.mod_pos_bound. lia. Qed.

Lemma int32_small z : - 2 ^ 31 <= z < 2 ^ 31 -> int32 z = z.
Proof.
  intros H. unfold int32.
  destruct (Z_lt_le_dec z 0) as [Hn | Hp].
  - replace (z mod 2 ^ 32) with (z + 2 ^ 32).
    + destruct (Z.ltb_spec (z + 2 ^ 32) (2 ^ 31)); lia.
    + apply Z.mod_unique with (q := -1); lia.
  - rewrite Z.mod_small by lia.
    destruct (Z.ltb_spec z (2 ^ 31)); lia.
Qed.

Lemma int32_uint32 z : int32 (uint32 z) = int32 z.
Proof. unfold int32, uint32. now rewrite Z.mod_mod by lia. Qed.

End IntFacts.

(** ** The registry accessors *)

Section Registry.

Implicit Types (k : TTaskType) (u : string) (s v : Z).

Lemma signature_set_insert (m : gmap TTaskType (gset Z)) k k' (S : gset Z) :
  signature_set (<[k := S]> m) k' = if decide (k' = k) then S else signature_set m k'.
Proof.
  unfold signature_set. destruct (decide (k' = k)) as [-> | Hne].
  - now rewrite lookup_insert_eq.
  - now rewrite lookup_insert_ne by congruence.
Qed.

Lemma user_count_set (m : gmap TTaskType (gmap string Z)) k u v k' u' :
  user_count (set_user_count m k u v) k' u'
  = if decide (k' = k /\ u' = u) then v else user_count m k' u'.
Proof.
  unfold user_count, set_user_count.
  destruct (decide (k' = k)) as [-> | Hk].
  - rewrite lookup_insert_eq. simpl.
    destruct (decide (u' = u)) as [-> | Hu].
    + rewrite lookup_insert_eq. simpl. now rewrite decide_True.
    + rewrite lookup_insert_ne by congruence. rewrite decide_False; [done | tauto].
  - rewrite lookup_insert_ne by congruence. rewrite decide_False; [done | tauto].
Qed.

Lemma type_count_set (m : gmap TTaskType Z) k v k' :
  type_count (set_type_count m k v) k' = if decide (k' = k) then v else type_count m k'.
Proof.
  unfold type_count, set_type_count. destruct (decide (k' = k)) as [-> | Hk].
  - now rewrite lookup_insert_eq.
  - now rewrite lookup_insert_ne by congruence.
Qed.

Lemma record_task_info_present k s u r :
  s ∈ inflight r k -> _record_task_info k s u r = (false, r).
Proof. intros Hin. unfold _record_task_info. now rewrite decide_True. Qed.

Lemma record_task_info_fresh k s u r :
  s ∉ inflight r k ->
  exists r', _record_task_info k s u r = (true, r')
    /\ _s_task_signatures r' = <[k := {[s]} ∪ inflight r k]> (_s_task_signatures r)
    /\ _s_running_task_user_count r' = _s_running_task_user_count r
    /\ _s_total_task_user_count r'
       = (if decide (k = PUSH)
          then set_user_count (_s_total_task_user_count r) k u
                 (Int.uint32 (total_by_user r k u + 1))
          else _s_total_task_user_count r)
    /\ _s_total_task_count r'
       = (if decide (k = PUSH)
          then set_type_count (_s_total_task_count r) k (Int.uint32 (total r k + 1))
          else _s_total_task_count r).
Proof.
  intros Hout. unfold _record_task_info.
  rewrite decide_False by exact Hout.
  destruct (decide (k = PUSH)); eexists; (split; [reflexivity |]); simpl; auto.
Qed.

End Registry.

(** ** Submission *)

(** C3.  Submitting a request whose signature is already registered for its
    kind changes nothing at all: the pool (queue and registry) afterwards is
    the pool before.  Submitting a fresh signature appends the request to
    the queue and adds the signature to the set of its kind only; for a PUSH
    request the total of its user and the total of the kind go up by one
    (as [uint32_t] values, hence by exactly one below [2^32 - 1]) while
    every other counter keeps its value; for any other kind no counter
    changes. *)
Theorem submit_task_registers_once (task : TAgentTaskRequest) (p : pool) :
  let k := task_type task in
  let s := signature task in
  let u := task_user task in
  let p' := submit_task task p in
  (s ∈ inflight (reg p) k -> p' = p)
  /\ (s ∉ inflight (reg p) k ->
      _tasks p' = _tasks p ++ [task]
      /\ (forall k', inflight (reg p') k'
                     = if decide (k' = k) then {[s]} ∪ inflight (reg p) k
                       else inflight (reg p) k')
      /\ (forall k' u', total_by_user (reg p') k' u'
                     = if decide (k = PUSH /\ k' = PUSH /\ u' = u)
                       then Int.uint32 (total_by_user (reg p) PUSH u + 1)
                       else total_by_user (reg p) k' u')
      /\ (forall k', total (reg p') k'
                     = if decide (k = PUSH /\ k' = PUSH)
                       then Int.uint32 (total (reg p) PUSH + 1)
                       else total (reg p) k')
      /\ (k = PUSH -> 0 <= total_by_user (reg p) PUSH u < 2 ^ 32 - 1 ->
          total_by_user (reg p') PUSH u = total_by_user (reg p) PUSH u + 1)
      /\ (k = PUSH -> 0 <= total (reg p) PUSH < 2 ^ 32 - 1 ->
          total (reg p') PUSH = total (reg p) PUSH + 1)
      /\ _s_running_task_user_count (reg p') = _s_running_task_user_count (reg p)).
Proof.
  intros k s u p'. subst p'. unfold submit_task. fold k s u. split.
  - intros Hin. rewrite (record_task_info_present k s u _ Hin).
    destruct p; reflexivity.
  - intros Hout.
    destruct (record_task_info_fresh k s u _ Hout)
      as (r' & -> & Hsig & Hrun & Htu & Htot).
    simpl.
    assert (Hu : forall k' u', total_by_user r' k' u'
                   = if decide (k = PUSH /\ k' = PUSH /\ u' = u)
                     then Int.uint32 (total_by_user (reg p) PUSH u + 1)
                     else total_by_user (reg p) k' u').
    { intros k' u'. unfold total_by_user at 1. rewrite Htu.
      destruct (decide (k = PUSH)) as [Hk | Hk].
      - rewrite user_count_set, Hk.
        destruct (decide (k' = PUSH /\ u' = u)) as [[-> ->] | Hn].
        + now rewrite decide_True.
        + rewrite decide_False; [done | tauto].
      - rewrite decide_False; [done | tauto]. }
    assert (Ht : forall k', total r' k'
                   = if decide (k = PUSH /\ k' = PUSH)
                     then Int.uint32 (total (reg p) PUSH + 1)
                     else total (reg p) k').
    { intros k'. unfold total at 1. rewrite Htot.
      destruct (decide (k = PUSH)) as [Hk | Hk].
      - rewrite type_count_set, Hk.
        destruct (decide (k' = PUSH)) as [-> | Hn].
        + now rewrite decide_True.
        + rewrite decide_False; [done | tauto].
      - rewrite decide_False; [done | tauto]. }
    repeat split; try assumption.
    + intros k'. unfold inflight at 1. rewrite Hsig. apply signature_set_insert.
    + intros Hk Hr. rewrite Hu, decide_True by tauto.
      apply IntFacts.uint32_small. lia.
    + intros Hk Hr. rewrite Ht, decide_True by tauto.
      apply IntFacts.uint32_small. lia.
Qed.

Lemma submit_task_registers_once_witness :
  let t := Sample.push_task 7 (Some "alice"%string) None in
  let p1 := submit_task t Sample.empty_pool in
  submit_task t p1 = p1 /\ total (reg p1) PUSH = 1.
Proof.
  intros t p1. split.
  - apply (proj1 (submit_task_registers_once t p1)).
    apply (bool_decide_unpack _). vm_compute. exact I.
  - apply (proj2 (submit_task_registers_once t Sample.empty_pool)).
    + apply (bool_decide_unpack _). vm_compute. exact I.
    + reflexivity.
    + vm_compute. split; [discriminate | reflexivity].
Defined.

(** ** Finish protocol *)

Lemma reported_failure st tr :
  st <> PALO_SUCCESS ->
  reported (FinishTaskRpc st :: Sleep sleep_one_second :: tr) = reported tr.
Proof.
  intros Hne. unfold reported. simpl.
  rewrite bool_decide_eq_false_2 by congruence. reflexivity.
Qed.

(** C8.  Whatever the coordinator answers, [_finish_task] returns (four
    iterations of fuel are enough), having called [finish_task] at most 3
    times.  Either some attempt [k < 3] is the first to succeed: the trace
    is [k] failed calls, each followed by a pause of one second, then the
    successful call, after which nothing more happens; or the first three
    attempts all fail: the trace is three failed calls, each followed by the
    pause, no fourth call is made and the result has reached nobody. *)
Theorem finish_task_at_most_three_attempts (master_client : nat -> AgentStatus)
    (extra : nat) :
  exists tr,
    _finish_task (4 + extra) master_client = Some tr
    /\ (rpc_count tr <= 3)%nat
    /\ ((exists k, (k < 3)%nat
           /\ (forall j, (j < k)%nat -> master_client j <> PALO_SUCCESS)
           /\ master_client k = PALO_SUCCESS
           /\ tr = failed_attempts master_client k ++ [FinishTaskRpc PALO_SUCCESS]
           /\ reported tr = true)
        \/ ((forall j, (j < 3)%nat -> master_client j <> PALO_SUCCESS)
            /\ tr = failed_attempts master_client 3
            /\ reported tr = false)).
Proof.
  unfold _finish_task. cbn [Nat.add finish_task_loop].
  change (0 <? TASK_FINISH_MAX_RETRY) with true. cbn iota.
  destruct (decide (master_client 0%nat = PALO_SUCCESS)) as [H0 | H0].
  { eexists. split; [reflexivity |]. split; [cbn; lia |].
    left. exists 0%nat. repeat split; try lia; try assumption.
    - cbn. now rewrite H0.
    - rewrite H0. reflexivity. }
  change (0 + 1 <? TASK_FINISH_MAX_RETRY) with true. cbn iota.
  destruct (decide (master_client 1%nat = PALO_SUCCESS)) as [H1 | H1].
  { eexists. split; [reflexivity |]. split; [cbn; lia |].
    left. exists 1%nat. repeat split; try lia; try assumption.
    - intros j Hj. replace j with 0%nat by lia. assumption.
    - cbn. now rewrite H1.
    - rewrite reported_failure by assumption. rewrite H1. reflexivity. }
  change (0 + 1 + 1 <? TASK_FINISH_MAX_RETRY) with true. cbn iota.
  destruct (decide (master_client 2%nat = PALO_SUCCESS)) as [H2 | H2].
  { eexists. split; [reflexivity |]. split; [cbn; lia |].
    left. exists 2%nat. repeat split; try lia; try assumption.
    - intros j Hj.
      assert (j = 0 \/ j = 1)%nat as [-> | ->] by lia; assumption.
    - cbn. now rewrite H2.
    - rewrite !reported_failure by assumption. rewrite H2. reflexivity. }
  change (0 + 1 + 1 + 1 <? TASK_FINISH_MAX_RETRY) with false. cbn iota.
  eexists. split; [reflexivity |]. split; [cbn; lia |].
  right. repeat split.
  - intros j Hj.
    assert (j = 0 \/ j = 1 \/ j = 2)%nat as [-> | [-> | ->]] by lia; assumption.
  - rewrite !reported_failure by assumption. reflexivity.
Qed.

(** ** Push execution *)

(** C4, as the code has it.  For a LOAD or LOAD_DELETE request whose
    [init] succeeds, [process] is called exactly once, whatever it returns:
    a PALO_ERROR raises [retry_time] to [PUSH_MAX_RETRY = 1], which ends
    the loop, and any other status leaves it at once.  The status of that
    single call is the status of the push. *)
Theorem push_process_attempted_once (req : TPushReq) (init : AgentStatus)
    (process : nat -> AgentStatus) (delete_ok : bool) (extra : nat) :
  push_type req = LOAD \/ push_type req = LOAD_DELETE ->
  init = PALO_SUCCESS ->
  push_execute (2 + extra) req init process delete_ok
  = Some (process 0%nat, [PusherProcess (process 0%nat)])
  /\ forall st tr,
       push_execute (2 + extra) req init process delete_ok = Some (st, tr) ->
       process_attempts tr = 1%nat.
Proof.
  intros Hty Hinit.
  assert (E : push_execute (2 + extra) req init process delete_ok
              = Some (process 0%nat, [PusherProcess (process 0%nat)])).
  { unfold push_execute. rewrite decide_True by assumption.
    rewrite decide_True by assumption.
    cbn [Nat.add push_process_loop].
    change (0 <? PUSH_MAX_RETRY) with true. cbn iota.
    destruct (decide (process 0%nat = PALO_ERROR)) as [He | He]; [| reflexivity].
    change (0 + 1 <? PUSH_MAX_RETRY) with false. cbn iota. reflexivity. }
  split; [exact E |].
  intros st tr H. rewrite E in H. injection H as <- <-. reflexivity.
Qed.

Lemma push_process_attempted_once_witness :
  push_execute 2 Sample.load_req PALO_SUCCESS (Sample.always PALO_ERROR) true
  = Some (PALO_ERROR, [PusherProcess PALO_ERROR]).
Proof.
  apply (push_process_attempted_once Sample.load_req PALO_SUCCESS
           (Sample.always PALO_ERROR) true 0).
  - left. reflexivity.
  - reflexivity.
Defined.

(** C4 as the specification words it fails: with [process] answering
    PALO_ERROR every time, a LOAD push whose [init] succeeded sees one call
    of [process], not two. *)
Lemma push_transient_error_not_retried :
  exists st tr,
    push_execute 8 Sample.load_req PALO_SUCCESS (Sample.always PALO_ERROR) true
    = Some (st, tr)
    /\ st = PALO_ERROR
    /\ process_attempts tr = 1%nat
    /\ process_attempts tr <> 2%nat.
Proof.
  exists PALO_ERROR, [PusherProcess PALO_ERROR].
  repeat split. vm_compute. discriminate.
Qed.

(** ** Strings *)

Section Strings.

Implicit Types (a b s : string) (c : ascii).

Lemma append_nil b : EmptyString +:+ b = b.
Proof. reflexivity. Qed.

Lemma append_cons c a b : String c a +:+ b = String c (a +:+ b).
Proof. reflexivity. Qed.

Lemma append_assoc a b s : (a +:+ b) +:+ s = a +:+ (b +:+ s).
Proof.
  induction a as [| x a IH]; [reflexivity |].
  rewrite !append_cons. now rewrite IH.
Qed.

Lemma length_append a b :
  String.length (a +:+ b) = (String.length a + String.length b)%nat.
Proof.
  induction a as [| x a IH]; [reflexivity |].
  rewrite append_cons. cbn. now rewrite IH.
Qed.

Lemma substring_all s : substring 0 (String.length s) s = s.
Proof. induction s as [| x s IH]; cbn; [reflexivity | now rewrite IH]. Qed.

Lemma substring_skip a b n :
  substring (String.length a) n (a +:+ b) = substring 0 n b.
Proof.
  induction a as [| x a IH]; [reflexivity |].
  rewrite append_cons. cbn. exact IH.
Qed.

Lemma substring_tail a b :
  substring (String.length a) (String.length b) (a +:+ b) = b.
Proof. rewrite substring_skip. apply substring_all. Qed.

Lemma substring_head a b : substring 0 (String.length a) (a +:+ b) = a.
Proof.
  induction a as [| x a IH].
  - rewrite append_nil. destruct b; reflexivity.
  - rewrite append_cons. cbn. now rewrite IH.
Qed.

Lemma find_char_first c a b :
  find_char c a = None -> find_char c (a +:+ String c b) = Some (String.length a).
Proof.
  induction a as [| x a IH]; intros H.
  - rewrite append_nil. cbn. now rewrite decide_True.
  - rewrite append_cons. cbn in *.
    destruct (decide (x = c)); [discriminate |].
    destruct (find_char c a); [discriminate |]. now rewrite IH.
Qed.

Lemma find_char_bound c s :
  forall p, find_char c s = Some p -> (p < String.length s)%nat.
Proof.
  induction s as [| x s IH]; intros p H; [discriminate |].
  cbn in H. destruct (decide (x = c)).
  - injection H as <-. cbn. lia.
  - destruct (find_char c s) as [q |]; [| discriminate].
    injection H as <-. specialize (IH q eq_refl). cbn. lia.
Qed.

Lemma rfind_char_last c a b :
  rfind_char c b = None -> rfind_char c (a +:+ String c b) = Some (String.length a).
Proof.
  intros H. induction a as [| x a IH].
  - rewrite append_nil. cbn. rewrite H. now rewrite decide_True.
  - rewrite append_cons. cbn. now rewrite IH.
Qed.

End Strings.

(** ** Clone: the download list *)

Section CloneList.

Lemma index_bounds (sep : ascii) (s : string) :
  forall n m, String.index n (String sep EmptyString) s = Some m ->
              (n <= m < String.length s)%nat.
Proof.
  induction s as [| b s IH]; intros n m H.
  - destruct n; discriminate H.
  - destruct n as [| n]; cbn [String.index] in H.
    + destruct (String.prefix (String sep "") (String b s)).
      * injection H as <-. cbn. lia.
      * destruct (String.index 0 (String sep "") s) as [q |] eqn:E; [| discriminate].
        injection H as <-. apply IH in E. cbn. lia.
    + destruct (String.index n (String sep "") s) as [q |] eqn:E; [| discriminate].
      injection H as <-. apply IH in E. cbn. lia.
Qed.

Lemma is_header_file_spec (x : string) :
  is_header_file x = true
  <-> (4 < String.length x)%nat /\ ends_with ".hdr" x = true.
Proof.
  unfold is_header_file, ends_with. cbn [String.length].
  rewrite !andb_true_iff, Nat.ltb_lt, Nat.leb_le. split.
  - intros [Hl Hs]. repeat split; [lia | lia | exact Hs].
  - intros [Hl [_ Hs]]. split; [lia | exact Hs].
Qed.

Lemma add_file_name_headers_last (x : string) (l : list string) :
  headers_last l -> headers_last (add_file_name x l).
Proof.
  intros (others & headers & -> & Ho & Hh). unfold add_file_name.
  destruct (is_header_file x) eqn:E.
  - exists others, (headers ++ [x]). rewrite <- app_assoc.
    repeat split; [assumption |]. apply Forall_app. auto.
  - exists (x :: others), headers. repeat split; [| assumption].
    constructor; assumption.
Qed.

Lemma split_loop_headers_last (fuel : nat) (s : string) :
  forall start e l res_start res,
    headers_last l ->
    split_loop fuel s start e l = Some (res_start, res) ->
    headers_last res.
Proof.
  induction fuel as [| fuel IH]; intros start e l rs res Hl H; [discriminate |].
  destruct e as [e |]; cbn [split_loop] in H.
  - eapply IH; [| exact H]. now apply add_file_name_headers_last.
  - injection H as <- <-. assumption.
Qed.

(** Enough fuel: the loop leaves after at most one round per character
    that is still ahead. *)
Lemma split_loop_returns (s : string) (fuel : nat) :
  forall start e l,
    (String.length s - start < fuel)%nat ->
    match e with
    | Some e' => (start <= e' < String.length s)%nat
    | None => True
    end ->
    exists res, split_loop fuel s start e l = Some res.
Proof.
  induction fuel as [| fuel IH]; intros start e l Hf He; [lia |].
  destruct e as [e |]; cbn [split_loop].
  - apply IH; [lia |].
    destruct (String.index (e + 1) nl s) as [e2 |] eqn:E; [| exact I].
    apply index_bounds in E. exact E.
  - eexists. reflexivity.
Qed.

Lemma split_loop_more_fuel (s : string) (fuel : nat) :
  forall fuel' start e l res,
    split_loop fuel s start e l = Some res -> (fuel <= fuel')%nat ->
    split_loop fuel' s start e l = Some res.
Proof.
  induction fuel as [| fuel IH]; intros fuel' start e l res H Hle; [discriminate |].
  destruct fuel' as [| fuel']; [lia |].
  destruct e as [e |]; cbn [split_loop] in *.
  - apply IH; [exact H | lia].
  - exact H.
Qed.

Lemma clone_file_name_list_more_fuel (s : string) (fuel fuel' : nat) (l : list string) :
  clone_file_name_list fuel s = Some l -> (fuel <= fuel')%nat ->
  clone_file_name_list fuel' s = Some l.
Proof.
  unfold clone_file_name_list. intros H Hle.
  destruct (split_loop fuel s 0 (String.index 0 nl s) []) as [[st fl] |] eqn:E;
    [| discriminate].
  now rewrite (split_loop_more_fuel _ _ _ _ _ _ _ E Hle).
Qed.

Lemma clone_file_name_list_returns (s : string) (fuel : nat) :
  (String.length s < fuel)%nat ->
  exists l, clone_file_name_list fuel s = Some l /\ headers_last l.
Proof.
  intros Hf. unfold clone_file_name_list.
  destruct (split_loop_returns s fuel 0 (String.index 0 nl s) []) as [[st fl] E].
  - lia.
  - destruct (String.index 0 nl s) as [e |] eqn:Ei; [| exact I].
    apply index_bounds in Ei. exact Ei.
  - rewrite E.
    assert (Hfl : headers_last fl).
    { eapply split_loop_headers_last; [| exact E].
      exists [], []. repeat split; constructor. }
    destruct (decide (st <> String.length s)); eexists; (split; [reflexivity |]).
    + now apply add_file_name_headers_last.
    + assumption.
Qed.

Lemma headers_last_positions (l : list string) :
  headers_last l ->
  forall i j hdr other,
    l !! i = Some hdr -> l !! j = Some other ->
    is_header_file hdr = true -> is_header_file other = false ->
    (j < i)%nat.
Proof.
  intros (others & headers & -> & Ho & Hh) i j hdr other Hi Hj Hhdr Hoth.
  rewrite Forall_forall in Ho, Hh.
  destruct (Nat.lt_ge_cases i (length others)) as [Hlt | Hge].
  - rewrite lookup_app_l in Hi by exact Hlt.
    apply list_elem_of_lookup_2, Ho in Hi. congruence.
  - destruct (Nat.lt_ge_cases j (length others)) as [Hjl | Hjg]; [lia |].
    rewrite lookup_app_r in Hj by exact Hjg.
    apply list_elem_of_lookup_2, Hh in Hj. congruence.
Qed.

(** *** The download list holds the names of the listing *)

Lemma index_skip (sep pre rest : string) (n : nat) :
  String.index (String.length pre + n) sep (pre +:+ rest)
  = option_map (fun m => (String.length pre + m)%nat) (String.index n sep rest).
Proof.
  induction pre as [| b pre IH].
  - rewrite append_nil. cbn [String.length Nat.add].
    destruct (String.index n sep rest); reflexivity.
  - rewrite append_cons. cbn [String.length Nat.add String.index].
    rewrite IH. destruct (String.index n sep rest); reflexivity.
Qed.

Lemma index_skip_all (sep pre rest : string) :
  String.index (String.length pre) sep (pre +:+ rest)
  = option_map (fun m => (String.length pre + m)%nat) (String.index 0 sep rest).
Proof. rewrite <- index_skip. now rewrite Nat.add_0_r. Qed.

Lemma index_first_char (c : ascii) (s : string) :
  String.index 0 (String c EmptyString) s = find_char c s.
Proof.
  induction s as [| b s IH]; [reflexivity |].
  cbn [String.index find_char].
  destruct (String.prefix (String c "") (String b s)) eqn:Ep.
  - apply prefix_correct in Ep. cbn in Ep. injection Ep as -> _.
    now rewrite decide_True.
  - destruct (decide (b = c)) as [-> | Hne].
    + assert (Hp : String.prefix (String c "") (String c s) = true)
        by (apply prefix_correct; destruct s; reflexivity).
      congruence.
    + rewrite IH. reflexivity.
Qed.

Lemma find_char_split (c : ascii) (s : string) :
  forall e, find_char c s = Some e ->
  exists seg rest,
    s = seg +:+ String c rest /\ String.length seg = e /\ find_char c seg = None.
Proof.
  induction s as [| b s IH]; intros e H; [discriminate |].
  cbn [find_char] in H. destruct (decide (b = c)) as [-> | Hne].
  - injection H as <-. exists EmptyString, s. repeat split.
  - destruct (find_char c s) as [q |] eqn:E; [| discriminate].
    injection H as <-. destruct (IH q eq_refl) as (seg & rest & -> & Hl & Hn).
    exists (String b seg), rest. rewrite append_cons. repeat split.
    + cbn. now rewrite Hl.
    + cbn. now rewrite decide_False, Hn by assumption.
Qed.

Lemma split_lines_segment (seg rest : string) :
  find_char nl_char seg = None ->
  split_lines (seg +:+ String nl_char rest) = seg :: split_lines rest.
Proof.
  induction seg as [| b seg IH]; intros H.
  - rewrite append_nil. cbn [split_lines]. now rewrite decide_True.
  - cbn [find_char] in H. destruct (decide (b = nl_char)); [discriminate |].
    destruct (find_char nl_char seg); [discriminate |].
    rewrite append_cons. cbn [split_lines].
    rewrite decide_False by assumption. now rewrite IH.
Qed.

Lemma split_lines_last (s : string) :
  find_char nl_char s = None ->
  split_lines s = if decide (s = EmptyString) then [] else [s].
Proof.
  induction s as [| b s IH]; intros H; [reflexivity |].
  cbn [find_char] in H. destruct (decide (b = nl_char)); [discriminate |].
  destruct (find_char nl_char s); [discriminate |].
  cbn [split_lines]. rewrite decide_False by assumption.
  rewrite IH by reflexivity.
  rewrite (decide_False (P := String b s = EmptyString)) by discriminate.
  destruct (decide (s = EmptyString)) as [-> | _]; reflexivity.
Qed.

Lemma split_loop_lines (fuel : nat) :
  forall pre rest acc st l,
    split_loop fuel (pre +:+ rest) (String.length pre)
      (String.index (String.length pre) nl (pre +:+ rest)) acc = Some (st, l) ->
    exists pre' rest',
      pre +:+ rest = pre' +:+ rest' /\ st = String.length pre'
      /\ find_char nl_char rest' = None
      /\ add_all (split_lines rest) acc = add_all (split_lines rest') l.
Proof.
  induction fuel as [| fuel IH]; intros pre rest acc st l H; [discriminate |].
  cbn [split_loop] in H.
  unfold nl in H at 1. rewrite index_skip_all, index_first_char in H.
  destruct (find_char nl_char rest) as [e |] eqn:Ef; cbn [option_map] in H.
  - destruct (find_char_split _ _ _ Ef) as (seg & rest2 & -> & <- & Hn).
    replace (String.length pre + String.length seg - String.length pre)%nat
      with (String.length seg) in H by lia.
    rewrite substring_skip, substring_head in H.
    assert (Hs : pre +:+ seg +:+ String nl_char rest2
                 = (pre +:+ seg +:+ nl) +:+ rest2).
    { unfold nl. rewrite !append_assoc. reflexivity. }
    assert (Hp : (String.length pre + String.length seg + 1)%nat
                 = String.length (pre +:+ seg +:+ nl)).
    { rewrite !length_append. cbn. lia. }
    rewrite Hp, Hs in H.
    destruct (IH _ _ _ _ _ H) as (pre' & rest' & Heq & -> & Hnone & Hadd).
    exists pre', rest'. repeat split; try assumption.
    + now rewrite Hs.
    + rewrite split_lines_segment by assumption. exact Hadd.
  - injection H as <- <-. exists pre, rest. repeat split. assumption.
Qed.

(** The download list is what one obtains by adding the names of the
    listing one after the other. *)
Lemma clone_file_name_list_lines (fuel : nat) (s : string) (l : list string) :
  clone_file_name_list fuel s = Some l -> l = add_all (split_lines s) [].
Proof.
  unfold clone_file_name_list. intros H.
  destruct (split_loop fuel s 0 (String.index 0 nl s) []) as [[st fl] |] eqn:E;
    [| discriminate].
  destruct (split_loop_lines fuel EmptyString s [] st fl E)
    as (pre' & rest' & Heq & -> & Hnone & Hadd).
  rewrite append_nil in Heq. rewrite Hadd, (split_lines_last _ Hnone).
  subst s. rewrite length_append in H.
  destruct (decide (rest' = EmptyString)) as [-> | Hne].
  - cbn [String.length] in H. rewrite decide_False in H by lia.
    now injection H as <-.
  - rewrite decide_True in H by (destruct rest'; [contradiction | cbn; lia]).
    replace (String.length pre' + String.length rest' - String.length pre')%nat
      with (String.length rest') in H by lia.
    rewrite substring_tail in H. now injection H as <-.
Qed.

Lemma add_all_permutation (names acc : list string) :
  add_all names acc ≡ₚ acc ++ names.
Proof.
  revert acc. induction names as [| x names IH]; intros acc; cbn.
  - now rewrite app_nil_r.
  - unfold add_all in IH. rewrite IH. unfold add_file_name.
    destruct (is_header_file x).
    + now rewrite <- app_assoc.
    + rewrite (Permutation_middle acc names x). reflexivity.
Qed.

End CloneList.

(** C5, as the code has it.  For the listing of scenario S4 the download
    list is [data_1.dat; data_0.dat; header.hdr]: the header comes last, and
    the two data files come in the reverse of their order in the listing,
    because each one is inserted at the front of the vector. *)
Theorem clone_s4_download_order (fuel : nat) :
  (String.length Sample.s4_listing < fuel)%nat ->
  clone_file_name_list fuel Sample.s4_listing
  = Some ["data_1.dat"; "data_0.dat"; "header.hdr"]%string.
Proof.
  intros Hf. apply (clone_file_name_list_more_fuel _ 33).
  - vm_compute. reflexivity.
  - change (String.length Sample.s4_listing) with 32%nat in Hf. lia.
Qed.

Lemma clone_s4_download_order_witness :
  clone_file_name_list 40 Sample.s4_listing
  = Some ["data_1.dat"; "data_0.dat"; "header.hdr"]%string.
Proof.
  apply (clone_s4_download_order 40). vm_compute. lia.
Defined.

(** C5 as the specification words it fails: the download list of the S4
    listing is not [data_0.dat; data_1.dat; header.hdr]. *)
Lemma clone_s4_order_is_not_listing_order :
  exists l,
    clone_file_name_list 33 Sample.s4_listing = Some l
    /\ l <> ["data_0.dat"; "data_1.dat"; "header.hdr"]%string.
Proof.
  exists ["data_1.dat"; "data_0.dat"; "header.hdr"]%string.
  split; [vm_compute; reflexivity | discriminate].
Qed.

(** C6, as the code has it.  For every listing the download list is built
    (fuel above the length of the listing is enough); it holds the file
    names of the listing, each as often as the listing has it, and in it
    every name of more than 4 characters that ends in [.hdr] stands after
    every other name, that is, after every name that does not end in
    [.hdr] or has at most 4 characters. *)
Theorem clone_headers_downloaded_last (file_list_str : string) (fuel : nat) :
  (String.length file_list_str < fuel)%nat ->
  exists file_name_list,
    clone_file_name_list fuel file_list_str = Some file_name_list
    /\ file_name_list ≡ₚ split_lines file_list_str
    /\ forall i j hdr other,
         file_name_list !! i = Some hdr ->
         file_name_list !! j = Some other ->
         (4 < String.length hdr)%nat -> ends_with ".hdr" hdr = true ->
         ends_with ".hdr" other = false \/ (String.length other <= 4)%nat ->
         (j < i)%nat.
Proof.
  intros Hf.
  destruct (clone_file_name_list_returns file_list_str fuel Hf) as (l & E & Hl).
  exists l. split; [exact E |]. split.
  - rewrite (clone_file_name_list_lines _ _ _ E). apply add_all_permutation.
  - intros i j hdr other Hi Hj Hlen Hend Hoth.
    apply (headers_last_positions l Hl i j hdr other Hi Hj).
    + apply is_header_file_spec. auto.
    + destruct (is_header_file other) eqn:Eo; [| reflexivity].
      apply is_header_file_spec in Eo. destruct Eo as [Hlo Heo].
      destruct Hoth as [Hn | Hn]; [congruence | lia].
Qed.

Lemma clone_headers_downloaded_last_witness :
  exists file_name_list,
    clone_file_name_list 40 Sample.s4_listing = Some file_name_list
    /\ file_name_list ≡ₚ split_lines Sample.s4_listing
    /\ forall i j hdr other,
         file_name_list !! i = Some hdr ->
         file_name_list !! j = Some other ->
         (4 < String.length hdr)%nat -> ends_with ".hdr" hdr = true ->
         ends_with ".hdr" other = false \/ (String.length other <= 4)%nat ->
         (j < i)%nat.
Proof.
  apply (clone_headers_downloaded_last Sample.s4_listing 40). vm_compute. lia.
Defined.

(** C6 as the specification words it fails: a file whose whole name is
    [.hdr] ends in [.hdr], yet it is put in front of [x.dat], which does
    not. *)
Lemma clone_bare_hdr_name_goes_first :
  exists l i j hdr other,
    clone_file_name_list 11 Sample.bare_hdr_listing = Some l
    /\ l !! i = Some hdr /\ l !! j = Some other
    /\ ends_with ".hdr" hdr = true /\ ends_with ".hdr" other = false
    /\ (i < j)%nat.
Proof.
  exists [".hdr"; "x.dat"]%string, 0%nat, 1%nat, ".hdr"%string, "x.dat"%string.
  repeat split; try (vm_compute; reflexivity); lia.
Qed.

(** ** Restore: renaming the downloaded files *)

Section RestoreRename.

Variable tablet_id : Z.

Lemma substr_from_tail (a b : string) :
  substr_from (a +:+ b) (Z.of_nat (String.length a)) = Some b.
Proof.
  unfold substr_from. rewrite length_append.
  destruct (Z.ltb_spec (Z.of_nat (String.length a + String.length b))
                       (Z.of_nat (String.length a))) as [H | H]; [lia |].
  rewrite Nat2Z.id.
  replace (String.length a + String.length b - String.length a)%nat
    with (String.length b) by lia.
  now rewrite substring_tail.
Qed.

Lemma substr_from_suffix (s : string) (n : nat) :
  (n <= String.length s)%nat ->
  substr_from s (Z.of_nat (String.length s - n))
  = Some (substring (String.length s - n) n s).
Proof.
  intros H. unfold substr_from.
  destruct (Z.ltb_spec (Z.of_nat (String.length s))
                       (Z.of_nat (String.length s - n))) as [H' | H']; [lia |].
  rewrite Nat2Z.id.
  now replace (String.length s - (String.length s - n))%nat with n by lia.
Qed.

(** The loop body on a regular file [dir/name], [name] free of slashes,
    with the positions of the path fitting [uint32_t]. *)
Lemma restore_rename_regular (dir name : string) :
  Z.of_nat (String.length (dir +:+ String slash name)) < 2 ^ 32 - 1 ->
  rfind_char slash name = None ->
  restore_rename tablet_id false (dir +:+ String slash name)
  = if (String.length name <=? 4)%nat then Unchanged
    else
      let suffix := substring (String.length name - 4) 4 name in
      if decide (suffix <> ".hdr" /\ suffix <> ".idx" /\ suffix <> ".dat")%string
      then Unchanged
      else
        let sep := if decide (suffix = ".hdr"%string) then dot else underscore in
        match find_char sep name with
        | None => OutOfRange
        | Some p =>
            Renamed (dir +:+ "/" +:+ print_int64 tablet_id
                     +:+ substring p (String.length name - p) name)
        end.
Proof.
  intros Hlen Hns.
  assert (Hl : String.length (dir +:+ String slash name)
               = (String.length dir + S (String.length name))%nat).
  { rewrite length_append. reflexivity. }
  unfold restore_rename.
  rewrite (rfind_char_last slash dir name Hns).
  set (path := dir +:+ String slash name) in *.
  cbn [size_t_of].
  rewrite (IntFacts.uint32_small (Z.of_nat (String.length dir))) by lia.
  replace (Int.uint32 (-1)) with (2 ^ 32 - 1) by reflexivity.
  rewrite decide_True by lia.
  rewrite (IntFacts.uint32_small (Z.of_nat (String.length dir) + 1)) by lia.
  assert (Hname : substr_from path (Z.of_nat (String.length dir) + 1) = Some name).
  { subst path.
    change (dir +:+ String slash name) with (dir +:+ (String slash "" +:+ name)).
    rewrite <- append_assoc.
    replace (Z.of_nat (String.length dir) + 1)
      with (Z.of_nat (String.length (dir +:+ String slash ""))).
    - apply substr_from_tail.
    - rewrite length_append. cbn [String.length]. lia. }
  rewrite Hname.
  rewrite (IntFacts.uint32_small (Z.of_nat (String.length name))) by lia.
  destruct (Nat.leb_spec (String.length name) 4) as [Hle | Hgt].
  { destruct (Z.leb_spec (Z.of_nat (String.length name)) 4); [reflexivity | lia]. }
  destruct (Z.leb_spec (Z.of_nat (String.length name)) 4) as [Hle' | _]; [lia |].
  rewrite (IntFacts.uint32_small (Z.of_nat (String.length name) - 4)) by lia.
  replace (Z.of_nat (String.length name) - 4)
    with (Z.of_nat (String.length name - 4)) by lia.
  rewrite (substr_from_suffix name 4) by lia.
  cbv zeta.
  set (suffix := substring (String.length name - 4) 4 name).
  destruct (decide (suffix <> ".hdr" /\ suffix <> ".idx" /\ suffix <> ".dat")%string);
    [reflexivity |].
  set (sep := if decide (suffix = ".hdr"%string) then dot else underscore).
  destruct (find_char sep name) as [p |] eqn:Ef; cbn [size_t_of].
  - assert (Hp : (p < String.length name)%nat).
    { exact (find_char_bound sep name p Ef). }
    rewrite (IntFacts.uint32_small (Z.of_nat p)) by lia.
    unfold substr_from at 1.
    destruct (Z.ltb_spec (Z.of_nat (String.length name)) (Z.of_nat p)); [lia |].
    rewrite Nat2Z.id.
    unfold substr_to. rewrite Z.min_l by lia. rewrite Nat2Z.id.
    unfold path. rewrite substring_head. reflexivity.
  - replace (Int.uint32 npos) with (2 ^ 32 - 1) by reflexivity.
    unfold substr_from.
    destruct (Z.ltb_spec (Z.of_nat (String.length name)) (2 ^ 32 - 1)); [reflexivity | lia].
Qed.

End RestoreRename.

Lemma ends_with_suffix4 (suf name : string) :
  String.length suf = 4%nat -> (4 < String.length name)%nat ->
  ends_with suf name
  = bool_decide (substring (String.length name - 4) 4 name = suf).
Proof.
  intros Hs Hn. unfold ends_with. rewrite Hs.
  destruct (Nat.leb_spec 4 (String.length name)); [reflexivity | lia].
Qed.

(** C9, as the code has it.  Take a regular file [dir/name], [name] being
    the part after the last slash.  If [name] has more than 4 characters,
    ends in [.hdr], [.idx] or [.dat] and contains the separator (a dot for
    [.hdr], an underscore otherwise), the file is renamed to [dir/] followed
    by the tablet id in decimal and by [name] from the FIRST separator on.
    If [name] has at most 4 characters or none of the three suffixes, the
    file keeps its name; so does every directory. *)
Theorem restore_rename_from_first_separator (tablet_id : Z) (dir name : string) :
  Z.of_nat (String.length (dir +:+ "/" +:+ name)) < 2 ^ 32 - 1 ->
  rfind_char slash name = None ->
  (forall sep pre rest,
      (4 < String.length name)%nat ->
      (ends_with ".hdr" name = true /\ sep = dot)
      \/ ((ends_with ".idx" name = true \/ ends_with ".dat" name = true)
          /\ sep = underscore) ->
      name = pre +:+ String sep rest -> find_char sep pre = None ->
      restore_rename tablet_id false (dir +:+ "/" +:+ name)
      = Renamed (dir +:+ "/" +:+ print_int64 tablet_id +:+ String sep rest))
  /\ ((String.length name <= 4)%nat
      \/ (ends_with ".hdr" name = false /\ ends_with ".idx" name = false
          /\ ends_with ".dat" name = false) ->
      restore_rename tablet_id false (dir +:+ "/" +:+ name) = Unchanged)
  /\ (forall path, restore_rename tablet_id true path = Unchanged).
Proof.
  intros Hlen Hns.
  change (dir +:+ "/" +:+ name) with (dir +:+ String slash name) in *.
  rewrite (restore_rename_regular tablet_id dir name Hlen Hns).
  split; [| split].
  - intros sep pre rest Hgt Hsuf Hname Hfirst.
    destruct (Nat.leb_spec (String.length name) 4) as [Hle | _]; [lia |].
    cbv zeta.
    rewrite !ends_with_suffix4 in Hsuf by (reflexivity || assumption).
    set (suffix := substring (String.length name - 4) 4 name) in *.
    assert (Hsep : (if decide (suffix = ".hdr"%string) then dot else underscore) = sep
                   /\ ~ (suffix <> ".hdr" /\ suffix <> ".idx" /\ suffix <> ".dat")%string).
    { destruct Hsuf as [[Hh ->] | [[Hi | Hd] ->]].
      - apply bool_decide_eq_true_1 in Hh. rewrite decide_True by assumption.
        split; [reflexivity | tauto].
      - apply bool_decide_eq_true_1 in Hi. rewrite decide_False by (rewrite Hi; discriminate).
        split; [reflexivity | tauto].
      - apply bool_decide_eq_true_1 in Hd. rewrite decide_False by (rewrite Hd; discriminate).
        split; [reflexivity | tauto]. }
    destruct Hsep as [-> Hmem].
    rewrite decide_False by exact Hmem.
    rewrite Hname at 1. rewrite (find_char_first sep pre rest Hfirst).
    replace (String.length name - String.length pre)%nat
      with (String.length (String sep rest))
      by (rewrite Hname, length_append; lia).
    rewrite Hname. now rewrite substring_tail.
  - intros [Hle | (Hh & Hi & Hd)].
    + destruct (Nat.leb_spec (String.length name) 4); [reflexivity | lia].
    + destruct (Nat.leb_spec (String.length name) 4) as [| Hgt]; [reflexivity |].
      cbv zeta.
      rewrite ends_with_suffix4 in Hh, Hi, Hd by (reflexivity || assumption).
      apply bool_decide_eq_false_1 in Hh, Hi, Hd.
      now rewrite decide_True by tauto.
  - reflexivity.
Qed.

Lemma restore_rename_from_first_separator_witness :
  restore_rename 7 false "/d/10_2_3.dat" = Renamed "/d/7_2_3.dat".
Proof.
  apply (proj1 (restore_rename_from_first_separator 7 "/d" "10_2_3.dat"
                  ltac:(vm_compute; reflexivity) ltac:(reflexivity))
               underscore "10"%string "2_3.dat"%string).
  - vm_compute. lia.
  - right. split; [right; reflexivity | reflexivity].
  - reflexivity.
  - reflexivity.
Defined.

(** C9 as the specification words it fails: in [10_2_3.dat] the last
    underscore is not the first one.  Replacing what stands before the last
    underscore would give [7_3.dat]; the code renames to [7_2_3.dat]. *)
Lemma restore_rename_not_at_last_separator :
  restore_rename 7 false "/d/10_2_3.dat" = Renamed "/d/7_2_3.dat"
  /\ rename_at_last_separator 7 "10_2_3.dat" = Some "7_3.dat"%string
  /\ restore_rename 7 false "/d/10_2_3.dat" <> Renamed ("/d/" +:+ "7_3.dat").
Proof.
  split; [vm_compute; reflexivity |].
  split; [vm_compute; reflexivity |].
  vm_compute. discriminate.
Qed.

(** A data file without any underscore: [find] yields [npos], and
    [substr] throws. *)
Lemma restore_rename_without_separator_throws :
  restore_rename 7 false "/d/abcd.dat" = OutOfRange.
Proof. vm_compute. reflexivity. Qed.

(** ** The push scheduler *)

Section Scheduler.

Variable thread_count : Z.

Implicit Types (r : registry) (tasks : list TAgentTaskRequest)
  (improper : gset string) (u : string).

Lemma int32_range z : - 2 ^ 31 <= Int.int32 z < 2 ^ 31.
Proof.
  unfold Int.int32. cbv zeta.
  pose proof (Z.mod_pos_bound z (2 ^ 32) ltac:(lia)) as H.
  destruct (Z.ltb_spec (z mod 2 ^ 32) (2 ^ 31)); lia.
Qed.

(** The index left by the loop is an [int32_t]. *)
Lemma scan_tasks_index_range r lane tasks :
  forall i u improper,
    - 2 ^ 31 <= fst (scan_tasks thread_count r lane tasks i u improper) < 2 ^ 31.
Proof.
  induction tasks as [| t rest IH]; intros i u improper; cbn [scan_tasks].
  - cbn. lia.
  - repeat case_decide; try apply IH; try (cbn [fst]; apply int32_range).
    destruct (selectable _ _ _ _); [cbn [fst]; apply int32_range | apply IH].
Qed.

(** The HIGH lane: the loop stops at the first request whose priority is
    set to HIGH. *)
Lemma scan_tasks_high r tasks :
  forall i u improper,
    fst (scan_tasks thread_count r HIGH tasks i u improper)
    = match list_find (fun t => priority t = Some HIGH) tasks with
      | Some (k, _) => Int.int32 (i + Z.of_nat k)
      | None => -1
      end.
Proof.
  induction tasks as [| t rest IH]; intros i u improper; cbn [scan_tasks list_find].
  - reflexivity.
  - rewrite decide_True by reflexivity.
    destruct (decide (priority t = Some HIGH)) as [Hp | Hp].
    + cbn. now rewrite Z.add_0_r.
    + rewrite IH.
      destruct (list_find (λ t0, priority t0 = Some HIGH) rest) as [[k x] |]; cbn.
      * f_equal. lia.
      * reflexivity.
Qed.

End Scheduler.

Lemma deque_at_nat (tasks : list TAgentTaskRequest) (k : nat) :
  deque_at tasks (Z.of_nat k) = tasks !! k.
Proof.
  unfold deque_at. destruct (Z.ltb_spec (Z.of_nat k) 0); [lia |].
  now rewrite Nat2Z.id.
Qed.

Lemma pool_eta (p : pool) : {| _tasks := _tasks p; reg := reg p |} = p.
Proof. destruct p; reflexivity. Qed.

(** What a HIGH-lane worker gets, by cases on the first request whose
    priority is set to HIGH. *)
Lemma high_lane_cases (thread_count : Z) (p : pool) :
  Z.of_nat (length (_tasks p)) < 2 ^ 31 ->
  match list_find (fun t => priority t = Some HIGH) (_tasks p) with
  | Some (k, t) =>
      exists r',
        _get_next_task_index thread_count (_tasks p) HIGH (reg p)
        = Some (Z.of_nat k, r')
        /\ push_select thread_count HIGH p
           = Some (Some (t, task_user t),
                   {| _tasks := delete k (_tasks p); reg := r' |})
  | None =>
      _get_next_task_index thread_count (_tasks p) HIGH (reg p)
      = Some (Int.uint32 (-1), reg p)
      /\ push_select thread_count HIGH p = Some (None, p)
  end.
Proof.
  intros Hlen. unfold push_select, _get_next_task_index.
  pose proof (scan_tasks_high thread_count (reg p) (_tasks p) 0 ""%string ∅) as Hs.
  destruct (scan_tasks thread_count (reg p) HIGH (_tasks p) 0 "" ∅)
    as [index user_var] eqn:E.
  cbn [fst] in Hs.
  destruct (list_find (λ t, priority t = Some HIGH) (_tasks p)) as [[k t] |] eqn:Ef.
  - apply list_find_Some in Ef. destruct Ef as (Hk & _ & _).
    pose proof (lookup_lt_Some _ _ _ Hk) as Hlt.
    rewrite Z.add_0_l, IntFacts.int32_small in Hs by lia. subst index.
    rewrite decide_False by lia. rewrite deque_at_nat, Hk.
    rewrite IntFacts.uint32_small by lia.
    eexists. split; [reflexivity |].
    rewrite IntFacts.int32_small by lia.
    destruct (Z.ltb_spec (Z.of_nat k) 0); [lia |].
    rewrite deque_at_nat, Hk, Nat2Z.id. reflexivity.
  - subst index. rewrite decide_True by reflexivity.
    rewrite decide_True by reflexivity.
    split; [reflexivity |].
    change (Int.int32 (Int.uint32 (-1)) <? 0) with true. cbn iota.
    now rewrite pool_eta.
Qed.

(** C2.  With fewer than [2^31] requests queued, a HIGH-lane worker
    obtains the index of the first request whose priority is set and equal
    to HIGH, and takes that very request out of the queue; when no request
    has its priority set to HIGH the function yields the [uint32_t] that
    the caller reads as -1, and nothing is taken.  Hence whatever a
    HIGH-lane worker takes has priority HIGH. *)
Theorem high_lane_takes_first_high_task (thread_count : Z) (p : pool) :
  Z.of_nat (length (_tasks p)) < 2 ^ 31 ->
  (forall i t,
      _tasks p !! i = Some t -> priority t = Some HIGH ->
      (forall j t', _tasks p !! j = Some t' -> (j < i)%nat ->
                    priority t' <> Some HIGH) ->
      exists r',
        _get_next_task_index thread_count (_tasks p) HIGH (reg p)
        = Some (Z.of_nat i, r')
        /\ push_select thread_count HIGH p
           = Some (Some (t, task_user t),
                   {| _tasks := delete i (_tasks p); reg := r' |}))
  /\ ((forall t, t ∈ _tasks p -> priority t <> Some HIGH) ->
      exists ret,
        _get_next_task_index thread_count (_tasks p) HIGH (reg p)
        = Some (ret, reg p)
        /\ Int.int32 ret = -1
        /\ push_select thread_count HIGH p = Some (None, p))
  /\ (forall t u p',
        push_select thread_count HIGH p = Some (Some (t, u), p') ->
        priority t = Some HIGH).
Proof.
  intros Hlen. pose proof (high_lane_cases thread_count p Hlen) as Hc.
  split; [| split].
  - intros i t Hi Hp Hmin.
    assert (Ef : list_find (λ t, priority t = Some HIGH) (_tasks p) = Some (i, t)).
    { apply list_find_Some. auto. }
    rewrite Ef in Hc. exact Hc.
  - intros Hnone.
    assert (Ef : list_find (λ t, priority t = Some HIGH) (_tasks p) = None).
    { apply list_find_None, Forall_forall. exact Hnone. }
    rewrite Ef in Hc. destruct Hc as [Hg Hs].
    exists (Int.uint32 (-1)). repeat split; assumption.
  - intros t u p' Hsel.
    destruct (list_find (λ t, priority t = Some HIGH) (_tasks p))
      as [[k t0] |] eqn:Ef.
    + destruct Hc as (r' & _ & Hs). rewrite Hs in Hsel.
      injection Hsel as <- _ _. apply list_find_Some in Ef. tauto.
    + destruct Hc as [_ Hs]. rewrite Hs in Hsel. discriminate.
Qed.

Lemma high_lane_takes_first_high_task_witness :
  exists r',
    _get_next_task_index 1 (_tasks Sample.s3_pool) HIGH (reg Sample.s3_pool)
    = Some (1, r')
    /\ push_select 1 HIGH Sample.s3_pool
       = Some (Some (Sample.push_task 2 (Some "B"%string) (Some HIGH), "B"%string),
               {| _tasks := delete 1%nat (_tasks Sample.s3_pool); reg := r' |}).
Proof.
  apply (proj1 (high_lane_takes_first_high_task 1 Sample.s3_pool
                  ltac:(vm_compute; reflexivity))
               1%nat (Sample.push_task 2 (Some "B"%string) (Some HIGH))).
  - reflexivity.
  - reflexivity.
  - intros j t' Hj Hlt. assert (j = 0%nat) as -> by lia.
    injection Hj as <-. discriminate.
Defined.

(** C10.  When the call of a HIGH-lane worker yields the value that reads
    as -1, the registry it leaves is the registry it found (signatures,
    totals and running counts alike), and the selection block of the worker
    takes no request: the pool afterwards is the pool before. *)
Theorem high_lane_miss_changes_nothing (thread_count : Z) (p : pool)
    (ret : Z) (r' : registry) :
  _get_next_task_index thread_count (_tasks p) HIGH (reg p) = Some (ret, r') ->
  Int.int32 ret = -1 ->
  r' = reg p /\ push_select thread_count HIGH p = Some (None, p).
Proof.
  intros Hg Hret. unfold push_select. rewrite Hg.
  unfold _get_next_task_index in Hg.
  pose proof (scan_tasks_index_range thread_count (reg p) HIGH (_tasks p)
                0 ""%string ∅) as Hr.
  destruct (scan_tasks thread_count (reg p) HIGH (_tasks p) 0 "" ∅)
    as [index user_var].
  cbn [fst] in Hr.
  destruct (decide (index = -1)) as [-> | Hne].
  - rewrite decide_True in Hg by reflexivity. injection Hg as <- <-.
    split; [reflexivity |].
    change (Int.int32 (Int.uint32 (-1)) <? 0) with true. cbn iota.
    now rewrite pool_eta.
  - destruct (deque_at (_tasks p) index); [| discriminate].
    injection Hg as <- <-.
    rewrite IntFacts.int32_uint32, IntFacts.int32_small in Hret by lia.
    contradiction.
Qed.

Lemma high_lane_miss_changes_nothing_witness :
  push_select 2 HIGH Sample.normal_only_pool = Some (None, Sample.normal_only_pool).
Proof.
  apply (high_lane_miss_changes_nothing 2 Sample.normal_only_pool
           (Int.uint32 (-1)) (reg Sample.normal_only_pool)).
  - vm_compute. reflexivity.
  - vm_compute. reflexivity.
Defined.

(** ** The float test on small counters *)

Section SmallRates.

Lemma small_numbers_spec (a : Z) : 0 <= a < 24 -> In a Float.small_numbers.
Proof.
  intros H. unfold Float.small_numbers.
  replace a with (Z.of_nat (Z.to_nat a)) by lia.
  apply in_map, in_seq. lia.
Qed.

Lemma small_rates_spec (a b : Z) :
  0 <= a < 24 -> 0 < b < 24 -> In (a, b, Float.rate a b) Float.small_rates.
Proof.
  intros Ha Hb. unfold Float.small_rates. apply in_flat_map.
  exists a. split; [now apply small_numbers_spec |].
  apply (in_map (fun b => (a, b, Float.rate a b))).
  replace b with (Z.of_nat (Z.to_nat b)) by lia.
  change (tl Float.small_numbers) with (List.map Z.of_nat (seq 1 23)).
  apply in_map, in_seq. lia.
Qed.

Lemma small_rates_exact_true : Float.small_rates_exact = true.
Proof. vm_compute. reflexivity. Qed.

(** For numerators below 24 and denominators from 1 to 23 the comparison
    of the two [float] rates is the comparison of the exact fractions. *)
Lemma rate_le_exact (a b c d : Z) :
  0 <= a < 24 -> 0 < b < 24 -> 0 <= c < 24 -> 0 < d < 24 ->
  Float.le (Float.rate a b) (Float.rate c d) = (a * d <=? c * b).
Proof.
  intros Ha Hb Hc Hd.
  pose proof small_rates_exact_true as H. unfold Float.small_rates_exact in H.
  rewrite forallb_forall in H.
  specialize (H _ (small_rates_spec a b Ha Hb)). cbv beta iota in H.
  rewrite forallb_forall in H.
  specialize (H _ (small_rates_spec c d Hc Hd)). cbv beta iota in H.
  now apply Bool.eqb_prop in H.
Qed.

(** With fewer than 24 workers and fewer than 24 requests in each counter
    the test of the code is the test on exact fractions. *)
Lemma selectable_exact_small (thread_count : Z) (r : registry) (k : TTaskType)
    (u : string) :
  0 < thread_count < 24 -> 0 < total r k < 24 ->
  0 <= total_by_user r k u < 24 -> 0 <= running_by_user r k u < 23 ->
  selectable thread_count r k u = selectable_exact thread_count r k u.
Proof.
  intros Htc Ht Htu Hr. unfold selectable, selectable_exact. f_equal.
  unfold user_running_rate, user_total_rate.
  rewrite IntFacts.uint32_small by lia.
  apply rate_le_exact; lia.
Qed.

End SmallRates.

(** ** The specified scan selects the leftmost candidate *)

Section FairScan.

Variable ok : TTaskType -> string -> bool.

Implicit Types (tasks : list TAgentTaskRequest) (improper : gset string).

Lemma candidate_head t rest improper :
  candidate ok (t :: rest) improper 0
  <-> ok (task_type t) (task_user t) = true /\ task_user t ∉ improper.
Proof.
  unfold candidate. split.
  - intros (t0 & Ht0 & Hok & Hin & _). injection Ht0 as <-. auto.
  - intros [Hok Hin]. exists t. repeat split; try assumption. intros j t' Hj. lia.
Qed.

Lemma candidate_skip_improper t rest improper k :
  task_user t ∈ improper ->
  candidate ok (t :: rest) improper (S k) <-> candidate ok rest improper k.
Proof.
  intros Ht. unfold candidate. split.
  - intros (t0 & Ht0 & Hok & Hin & Hfirst). exists t0. repeat split; try assumption.
    intros j t' Hj Hl. apply (Hfirst (S j) t'); [lia | exact Hl].
  - intros (t0 & Ht0 & Hok & Hin & Hfirst). exists t0. repeat split; try assumption.
    intros [| j] t' Hj Hl.
    + injection Hl as <-. intros E. rewrite E in Ht. contradiction.
    + apply (Hfirst j t'); [lia | exact Hl].
Qed.

Lemma candidate_skip_failed t rest improper k :
  candidate ok (t :: rest) improper (S k)
  <-> candidate ok rest ({[task_user t]} ∪ improper) k.
Proof.
  unfold candidate. split.
  - intros (t0 & Ht0 & Hok & Hin & Hfirst). exists t0. repeat split; try assumption.
    + pose proof (Hfirst 0%nat t ltac:(lia) eq_refl) as Hne.
      rewrite elem_of_union, elem_of_singleton.
      intros [E | E]; [congruence | contradiction].
    + intros j t' Hj Hl. apply (Hfirst (S j) t'); [lia | exact Hl].
  - intros (t0 & Ht0 & Hok & Hin & Hfirst). exists t0. repeat split; try assumption.
    + set_solver.
    + intros [| j] t' Hj Hl.
      * injection Hl as <-. set_solver.
      * apply (Hfirst j t'); [lia | exact Hl].
Qed.

(** The scan of the specification returns the position of the leftmost
    candidate, and nothing when there is none. *)
Lemma fair_scan_leftmost tasks :
  forall i improper n,
    fair_scan ok tasks i improper = Some n
    <-> exists k, n = (i + k)%nat /\ candidate ok tasks improper k
                  /\ forall j, (j < k)%nat -> ~ candidate ok tasks improper j.
Proof.
  induction tasks as [| t rest IH]; intros i improper n; cbn [fair_scan].
  - split; [discriminate |].
    intros (k & _ & (t0 & Ht0 & _) & _). discriminate Ht0.
  - destruct (decide (task_user t ∈ improper)) as [Hin | Hout].
    + rewrite IH. split.
      * intros (k & -> & Hc & Hmin). exists (S k). split; [lia |]. split.
        -- now apply candidate_skip_improper.
        -- intros [| j] Hj.
           ++ rewrite candidate_head. tauto.
           ++ rewrite candidate_skip_improper by assumption. apply Hmin. lia.
      * intros (k & -> & Hc & Hmin). destruct k as [| k].
        -- apply candidate_head in Hc. tauto.
        -- exists k. split; [lia |]. split.
           ++ now apply candidate_skip_improper in Hc.
           ++ intros j Hj Hcj. apply (Hmin (S j)); [lia |].
              now apply candidate_skip_improper.
    + destruct (ok (task_type t) (task_user t)) eqn:Hok.
      * split.
        -- intros [= <-]. exists 0%nat. split; [lia |]. split.
           ++ apply candidate_head. auto.
           ++ intros j Hj. lia.
        -- intros (k & -> & Hc & Hmin). destruct k as [| k]; [f_equal; lia |].
           exfalso. apply (Hmin 0%nat); [lia |]. apply candidate_head. auto.
      * rewrite IH. split.
        -- intros (k & -> & Hc & Hmin). exists (S k). split; [lia |]. split.
           ++ now apply candidate_skip_failed.
           ++ intros [| j] Hj.
              ** rewrite candidate_head. intros [E _]. congruence.
              ** rewrite candidate_skip_failed. apply Hmin. lia.
        -- intros (k & -> & Hc & Hmin). destruct k as [| k].
           ++ apply candidate_head in Hc. destruct Hc as [E _]. congruence.
           ++ exists k. split; [lia |]. split.
              ** now apply candidate_skip_failed in Hc.
              ** intros j Hj Hcj. apply (Hmin (S j)); [lia |].
                 now apply candidate_skip_failed.
Qed.

Lemma fair_scan_none tasks :
  forall i improper,
    fair_scan ok tasks i improper = None ->
    forall k, ~ candidate ok tasks improper k.
Proof.
  induction tasks as [| t rest IH]; intros i improper H k; cbn [fair_scan] in H.
  - intros (t0 & Ht0 & _). discriminate Ht0.
  - destruct (decide (task_user t ∈ improper)) as [Hin | Hout].
    + destruct k as [| k].
      * rewrite candidate_head. tauto.
      * rewrite candidate_skip_improper by assumption. eapply IH, H.
    + destruct (ok (task_type t) (task_user t)) eqn:Hok; [discriminate |].
      destruct k as [| k].
      * rewrite candidate_head. intros [E _]. congruence.
      * rewrite candidate_skip_failed. eapply IH, H.
Qed.

End FairScan.

(** ** The NORMAL lane *)

Section NormalLane.

Variable thread_count : Z.
Variable r : registry.

Implicit Types (tasks : list TAgentTaskRequest) (improper : gset string)
  (u : string).


(** On a queue whose requests all carry [resource_info], the loop of the
    NORMAL lane is the scan of the specification with the test [selectable],
    and the variable [user] ends as the user of the selected request. *)
Lemma scan_tasks_normal tasks :
  Forall (fun t => is_Some (resource_info t)) tasks ->
  forall (i : nat) u improper,
    match fair_scan (selectable thread_count r) tasks i improper with
    | Some n =>
        exists t, tasks !! (n - i)%nat = Some t /\ (i <= n)%nat
          /\ scan_tasks thread_count r NORMAL tasks (Z.of_nat i) u improper
             = (Int.int32 (Z.of_nat n), task_user t)
    | None =>
        fst (scan_tasks thread_count r NORMAL tasks (Z.of_nat i) u improper) = -1
    end.
Proof.
  induction 1 as [| t rest [ri Hri] Hall IH]; intros i u improper;
    cbn [scan_tasks fair_scan].
  - reflexivity.
  - assert (Hu : task_user t = user ri) by (unfold task_user; now rewrite Hri).
    rewrite Hri, Hu.
    destruct (decide (NORMAL = HIGH)) as [Hd | _]; [discriminate Hd |].
    replace (Z.of_nat i + 1) with (Z.of_nat (S i)) by lia.
    assert (Hrec : forall improper',
      match fair_scan (selectable thread_count r) rest (S i) improper' with
      | Some n =>
          exists t0, (t :: rest) !! (n - i)%nat = Some t0 /\ (i <= n)%nat
            /\ scan_tasks thread_count r NORMAL rest (Z.of_nat (S i)) (user ri) improper'
               = (Int.int32 (Z.of_nat n), task_user t0)
      | None =>
          fst (scan_tasks thread_count r NORMAL rest (Z.of_nat (S i)) (user ri) improper')
          = -1
      end).
    { intros improper'. specialize (IH (S i) (user ri) improper').
      destruct (fair_scan (selectable thread_count r) rest (S i) improper') as [n |];
        [| exact IH].
      destruct IH as (t0 & Ht0 & Hle & Hs). exists t0.
      repeat split; [| lia | exact Hs].
      replace (n - i)%nat with (S (n - S i)) by lia. exact Ht0. }
    destruct (decide (user ri ∈ improper)); [apply Hrec |].
    destruct (selectable thread_count r (task_type t) (user ri)); [| apply Hrec].
    exists t. rewrite Nat.sub_diag, Hu. repeat split. lia.
Qed.

Lemma fair_scan_bound ok tasks :
  forall i improper n,
    fair_scan ok tasks i improper = Some n -> (i <= n < i + length tasks)%nat.
Proof.
  induction tasks as [| t rest IH]; intros i improper n H; cbn [fair_scan] in H.
  - discriminate.
  - destruct (decide (task_user t ∈ improper)).
    + apply IH in H. cbn. lia.
    + destruct (ok (task_type t) (task_user t)).
      * injection H as <-. cbn. lia.
      * apply IH in H. cbn. lia.
Qed.

(** The index obtained by a NORMAL-lane worker on such a queue, and the
    running count it raises. *)
Lemma get_next_task_index_normal tasks :
  Forall (fun t => is_Some (resource_info t)) tasks ->
  tasks <> [] -> Z.of_nat (length tasks) < 2 ^ 31 ->
  exists t,
    tasks !! fair_select (selectable thread_count r) tasks = Some t
    /\ _get_next_task_index thread_count tasks NORMAL r
       = Some (Z.of_nat (fair_select (selectable thread_count r) tasks),
               mark_running (task_type t) (task_user t) r).
Proof.
  intros Hall Hne Hlen. unfold _get_next_task_index, fair_select.
  pose proof (scan_tasks_normal tasks Hall 0 ""%string ∅) as Hs.
  destruct (fair_scan (selectable thread_count r) tasks 0 ∅) as [n |] eqn:Ef.
  - destruct Hs as (t & Ht & _ & Hs). change (Z.of_nat 0) with 0 in Hs. rewrite Hs.
    apply fair_scan_bound in Ef. rewrite Nat.sub_0_r in Ht.
    rewrite IntFacts.int32_small by lia.
    rewrite decide_False by lia. rewrite deque_at_nat, Ht.
    rewrite IntFacts.uint32_small by lia.
    exists t. split; [exact Ht | reflexivity].
  - change (Z.of_nat 0) with 0 in Hs.
    destruct (scan_tasks thread_count r NORMAL tasks 0 "" ∅) as [index uv].
    cbn [fst] in Hs. subst index.
    rewrite decide_True by reflexivity.
    destruct (decide (NORMAL = HIGH)) as [Hd | _]; [discriminate Hd |].
    destruct tasks as [| t0 rest]; [contradiction |].
    exists t0. split; reflexivity.
Qed.


(** On a queue whose requests all carry [resource_info], a NORMAL-lane
    worker obtains the position of the leftmost candidate, and 0 when the
    queue has no candidate. *)
Lemma get_next_task_index_normal_leftmost tasks :
  Forall (fun t => is_Some (resource_info t)) tasks ->
  tasks <> [] -> Z.of_nat (length tasks) < 2 ^ 31 ->
  exists ret r',
    _get_next_task_index thread_count tasks NORMAL r = Some (ret, r')
    /\ ((exists k, ret = Z.of_nat k
                   /\ candidate (selectable thread_count r) tasks ∅ k
                   /\ forall j, (j < k)%nat ->
                                ~ candidate (selectable thread_count r) tasks ∅ j)
        \/ (ret = 0
            /\ forall k, ~ candidate (selectable thread_count r) tasks ∅ k)).
Proof.
  intros Hall Hne Hlen.
  destruct (get_next_task_index_normal tasks Hall Hne Hlen) as (t & _ & ->).
  eexists _, _. split; [reflexivity |]. unfold fair_select.
  destruct (fair_scan (selectable thread_count r) tasks 0 ∅) as [n |] eqn:Ef.
  - left. apply fair_scan_leftmost in Ef. destruct Ef as (k & -> & Hc & Hmin).
    exists k. auto.
  - right. split; [reflexivity |].
    exact (fair_scan_none _ tasks 0%nat ∅ Ef).
Qed.

End NormalLane.

(** ** Shares when nothing is admitted *)

(** *** The rates are positive

    The quotient of two positive counts, computed as the code computes it,
    is a positive [float]: no rounding step takes it to zero. *)

Section Digits.









End Digits.

Section Shift.






End Shift.

Section RoundAux.

Variables prec emax : Z.
Hypothesis Hprec : 0 < prec.



End RoundAux.

Section FloatPositive.











End FloatPositive.







(** ** The user of a request without [resource_info] *)

(** C1 at a queue the code can meet.  Two requests of user A and one
    request without [resource_info] are submitted and the first is taken by
    one of two workers.  For the second worker the request of A fails the
    test (2/2 against 2/3); the request without [resource_info] is then
    looked at under the user A still held by the loop variable, found
    improper and skipped, and the fallback returns index 0, charging a
    second running request to A.  The scan of the specification accounts
    that request to the empty user, who has nothing running, and selects
    index 1. *)
Theorem normal_lane_stale_user_skips_fair_candidate :
  exists p1 r',
    push_select 2 NORMAL Sample.three_submitted
    = Some (Some (Sample.a1, "A"%string), p1)
    /\ _tasks p1 = [Sample.a2; Sample.t3]
    /\ running_by_user (reg p1) PUSH "" = 0
    /\ selectable 2 (reg p1) PUSH "A" = false
    /\ _get_next_task_index 2 (_tasks p1) NORMAL (reg p1) = Some (0, r')
    /\ running_by_user r' PUSH "A" = 2
    /\ fair_select (selectable 2 (reg p1)) (_tasks p1) = 1%nat.
Proof.
  eexists. eexists.
  split; [vm_compute; reflexivity |].
  split; [vm_compute; reflexivity |].
  split; [vm_compute; reflexivity |].
  split; [vm_compute; reflexivity |].
  split; [vm_compute; reflexivity |].
  split; vm_compute; reflexivity.
Qed.

(** * Further properties of the code *)

(** ** The registry over the life of a request *)

Section RegistryLife.

Implicit Types (k : TTaskType) (u : string) (s : Z) (r : registry).

Lemma uint32_succ_pred (x : Z) :
  0 <= x < 2 ^ 32 -> Int.uint32 (Int.uint32 (x + 1) - 1) = x.
Proof.
  intros H. unfold Int.uint32.
  rewrite Zminus_mod_idemp_l. replace (x + 1 - 1) with x by lia.
  now apply Z.mod_small.
Qed.

Lemma inflight_remove k s u r k' :
  inflight (_remove_task_info k s u r) k'
  = if decide (k' = k) then inflight r k ∖ {[s]} else inflight r k'.
Proof.
  unfold inflight, _remove_task_info.
  destruct (decide (k = PUSH)); cbn [_s_task_signatures];
    apply signature_set_insert.
Qed.

Lemma total_by_user_remove k s u r k' u' :
  total_by_user (_remove_task_info k s u r) k' u'
  = if decide (k = PUSH /\ k' = PUSH /\ u' = u)
    then Int.uint32 (total_by_user r PUSH u - 1)
    else total_by_user r k' u'.
Proof.
  unfold total_by_user, _remove_task_info.
  destruct (decide (k = PUSH)) as [-> | Hk]; cbn [_s_total_task_user_count].
  - rewrite user_count_set.
    destruct (decide (k' = PUSH /\ u' = u)) as [[-> ->] | Hn].
    + now rewrite decide_True.
    + rewrite decide_False; [done | tauto].
  - rewrite decide_False; [done | tauto].
Qed.

Lemma running_by_user_remove k s u r k' u' :
  running_by_user (_remove_task_info k s u r) k' u'
  = if decide (k = PUSH /\ k' = PUSH /\ u' = u)
    then Int.uint32 (running_by_user r PUSH u - 1)
    else running_by_user r k' u'.
Proof.
  unfold running_by_user, _remove_task_info.
  destruct (decide (k = PUSH)) as [-> | Hk]; cbn [_s_running_task_user_count].
  - rewrite user_count_set.
    destruct (decide (k' = PUSH /\ u' = u)) as [[-> ->] | Hn].
    + now rewrite decide_True.
    + rewrite decide_False; [done | tauto].
  - rewrite decide_False; [done | tauto].
Qed.

Lemma total_remove k s u r k' :
  total (_remove_task_info k s u r) k'
  = if decide (k = PUSH /\ k' = PUSH)
    then Int.uint32 (total r PUSH - 1)
    else total r k'.
Proof.
  unfold total, _remove_task_info.
  destruct (decide (k = PUSH)) as [-> | Hk]; cbn [_s_total_task_count].
  - rewrite type_count_set.
    destruct (decide (k' = PUSH)) as [-> | Hn].
    + now rewrite decide_True.
    + rewrite decide_False; [done | tauto].
  - rewrite decide_False; [done | tauto].
Qed.

Lemma running_by_user_mark k u r k' u' :
  running_by_user (mark_running k u r) k' u'
  = if decide (k' = k /\ u' = u)
    then Int.uint32 (running_by_user r k u + 1)
    else running_by_user r k' u'.
Proof. unfold running_by_user, mark_running. cbn. apply user_count_set. Qed.

End RegistryLife.

Section RegistryRoundTrip.

Implicit Types (k : TTaskType) (u : string) (s : Z) (r : registry).

Lemma uint32_pred_succ (x : Z) :
  0 <= x < 2 ^ 32 -> Int.uint32 (Int.uint32 (x - 1) + 1) = x.
Proof.
  intros H. unfold Int.uint32.
  rewrite Zplus_mod_idemp_l. replace (x - 1 + 1) with x by lia.
  now apply Z.mod_small.
Qed.

Lemma union_difference_fresh (x : Z) (X : gset Z) :
  x ∉ X -> ({[x]} ∪ X) ∖ {[x]} = X.
Proof.
  intros H. apply set_eq. intros y.
  rewrite elem_of_difference, elem_of_union, elem_of_singleton. split.
  - intros [[-> | Hy] Hn]; [contradiction | exact Hy].
  - intros Hy. split; [right; exact Hy | intros ->; contradiction].
Qed.

Lemma record_task_info_counts k s u r :
  s ∉ inflight r k ->
  let r1 := snd (_record_task_info k s u r) in
  (forall k', inflight r1 k'
              = if decide (k' = k) then {[s]} ∪ inflight r k else inflight r k')
  /\ (forall k' u', total_by_user r1 k' u'
                    = if decide (k = PUSH /\ k' = PUSH /\ u' = u)
                      then Int.uint32 (total_by_user r PUSH u + 1)
                      else total_by_user r k' u')
  /\ (forall k', total r1 k'
                 = if decide (k = PUSH /\ k' = PUSH)
                   then Int.uint32 (total r PUSH + 1) else total r k')
  /\ _s_running_task_user_count r1 = _s_running_task_user_count r.
Proof.
  intros Hout.
  destruct (record_task_info_fresh k s u r Hout) as (r' & E & Hsig & Hrun & Htu & Htot).
  rewrite E. cbn [snd]. repeat split.
  - intros k'. unfold inflight at 1. rewrite Hsig. apply signature_set_insert.
  - intros k' u'. unfold total_by_user at 1. rewrite Htu.
    destruct (decide (k = PUSH)) as [Hk | Hk].
    + rewrite user_count_set, Hk.
      destruct (decide (k' = PUSH /\ u' = u)) as [[-> ->] | Hn].
      * now rewrite decide_True.
      * rewrite decide_False; [done | tauto].
    + rewrite decide_False; [done | tauto].
  - intros k'. unfold total at 1. rewrite Htot.
    destruct (decide (k = PUSH)) as [Hk | Hk].
    + rewrite type_count_set, Hk.
      destruct (decide (k' = PUSH)) as [-> | Hn].
      * now rewrite decide_True.
      * rewrite decide_False; [done | tauto].
    + rewrite decide_False; [done | tauto].
  - exact Hrun.
Qed.

End RegistryRoundTrip.

(** X1.  A request that is registered, selected by a push worker when it
    is a PUSH request, and then removed leaves the registry as it found
    it: the in-flight set of every kind and every total and running
    counter read as before, provided the three counters it touches held
    [uint32_t] values. *)
Theorem record_select_remove_round_trip (k : TTaskType) (s : Z) (u : string)
    (r : registry) :
  s ∉ inflight r k ->
  0 <= total_by_user r k u < 2 ^ 32 ->
  0 <= total r k < 2 ^ 32 ->
  0 <= running_by_user r k u < 2 ^ 32 ->
  let r1 := snd (_record_task_info k s u r) in
  let r2 := if decide (k = PUSH) then mark_running k u r1 else r1 in
  let r3 := _remove_task_info k s u r2 in
  (forall k', inflight r3 k' = inflight r k')
  /\ (forall k' u', total_by_user r3 k' u' = total_by_user r k' u')
  /\ (forall k', total r3 k' = total r k')
  /\ (forall k' u', running_by_user r3 k' u' = running_by_user r k' u').
Proof.
  intros Hout Htu Ht Hr r1 r2 r3.
  destruct (record_task_info_counts k s u r Hout) as (Hi1 & Hu1 & Ht1 & Hr1).
  fold r1 in Hi1, Hu1, Ht1, Hr1.
  assert (Hi2 : forall k', inflight r2 k' = inflight r1 k').
  { intros k'. subst r2. destruct (decide (k = PUSH)); reflexivity. }
  assert (Hu2 : forall k' u', total_by_user r2 k' u' = total_by_user r1 k' u').
  { intros k' u'. subst r2. destruct (decide (k = PUSH)); reflexivity. }
  assert (Ht2 : forall k', total r2 k' = total r1 k').
  { intros k'. subst r2. destruct (decide (k = PUSH)); reflexivity. }
  assert (Hr2 : forall k' u', running_by_user r2 k' u'
                  = if decide (k = PUSH /\ k' = PUSH /\ u' = u)
                    then Int.uint32 (running_by_user r PUSH u + 1)
                    else running_by_user r k' u').
  { intros k' u'. subst r2. destruct (decide (k = PUSH)) as [-> | Hk].
    - rewrite running_by_user_mark. unfold running_by_user at 1 2. rewrite Hr1.
      destruct (decide (k' = PUSH /\ u' = u)) as [[-> ->] | Hn].
      + now rewrite decide_True.
      + rewrite decide_False; [done | tauto].
    - unfold running_by_user at 1. rewrite Hr1.
      rewrite decide_False; [done | tauto]. }
  subst r3. repeat split.
  - intros k'. rewrite inflight_remove, !Hi2, !Hi1.
    destruct (decide (k' = k)) as [-> | Hne]; [| reflexivity].
    rewrite decide_True by reflexivity. now apply union_difference_fresh.
  - intros k' u'. rewrite total_by_user_remove, !Hu2, !Hu1.
    destruct (decide (k = PUSH /\ k' = PUSH /\ u' = u)) as [(-> & -> & ->) | Hn].
    + rewrite decide_True by tauto. now apply uint32_succ_pred.
    + reflexivity.
  - intros k'. rewrite total_remove, !Ht2, !Ht1.
    destruct (decide (k = PUSH /\ k' = PUSH)) as [(-> & ->) | Hn].
    + now apply uint32_succ_pred.
    + reflexivity.
  - intros k' u'. rewrite running_by_user_remove, !Hr2.
    destruct (decide (k = PUSH /\ k' = PUSH /\ u' = u)) as [(-> & -> & ->) | Hn].
    + rewrite decide_True by tauto. now apply uint32_succ_pred.
    + reflexivity.
Qed.

Lemma record_select_remove_round_trip_witness :
  let r3 := _remove_task_info PUSH 7 "A"
              (mark_running PUSH "A"
                 (snd (_record_task_info PUSH 7 "A" Sample.empty_registry))) in
  (forall k', inflight r3 k' = inflight Sample.empty_registry k')
  /\ (forall k' u', total_by_user r3 k' u' = total_by_user Sample.empty_registry k' u')
  /\ (forall k', total r3 k' = total Sample.empty_registry k')
  /\ (forall k' u', running_by_user r3 k' u'
                    = running_by_user Sample.empty_registry k' u').
Proof.
  apply (record_select_remove_round_trip PUSH 7 "A" Sample.empty_registry).
  - apply (bool_decide_unpack _). vm_compute. exact I.
  - vm_compute. split; [discriminate | reflexivity].
  - vm_compute. split; [discriminate | reflexivity].
  - vm_compute. split; [discriminate | reflexivity].
Defined.

(** ** The totals of the PUSH kind *)

Section Totals.

Lemma sum_counts_insert (m : gmap string Z) (u : string) (v : Z) :
  sum_counts (<[u := v]> m) = sum_counts m - default 0 (m !! u) + v.
Proof.
  assert (Hfresh : forall (m' : gmap string Z) w,
             m' !! u = None -> sum_counts (<[u := w]> m') = w + sum_counts m').
  { intros m' w Hn. unfold sum_counts.
    apply (map_fold_insert_L (fun _ v acc => v + acc)); [| exact Hn].
    intros j1 j2 z1 z2 y _ _ _. cbv beta. lia. }
  destruct (m !! u) as [x |] eqn:E; cbn [default].
  - rewrite <- (insert_delete_eq m u v).
    rewrite <- (insert_delete_id m u x E) at 2.
    rewrite !Hfresh by apply lookup_delete_eq. unfold id. lia.
  - rewrite Hfresh by exact E. lia.
Qed.

Lemma totals_agree_update (r r' : registry) (u : string) (d : Z) :
  totals_agree r ->
  default ∅ (_s_total_task_user_count r' !! PUSH)
  = <[u := Int.uint32 (total_by_user r PUSH u + d)]>
      (default ∅ (_s_total_task_user_count r !! PUSH)) ->
  total r' PUSH = Int.uint32 (total r PUSH + d) ->
  totals_agree r'.
Proof.
  unfold totals_agree. intros H Hm Ht. rewrite Hm, Ht, sum_counts_insert.
  unfold total_by_user, user_count, Int.uint32 in *.
  set (S := sum_counts (default ∅ (_s_total_task_user_count r !! PUSH))) in *.
  set (x := default 0 (default ∅ (_s_total_task_user_count r !! PUSH) !! u)).
  set (T := total r PUSH) in *.
  change (2 ^ 32) with 4294967296 in *.
  apply Z.mod_divide in H; [| lia]. destruct H as [q Hq].
  pose proof (Z.div_mod (x + d) 4294967296 ltac:(lia)) as H1.
  pose proof (Z.div_mod (T + d) 4294967296 ltac:(lia)) as H2.
  replace (S - x + (x + d) mod 4294967296 - (T + d) mod 4294967296)
    with ((q + (T + d) / 4294967296 - (x + d) / 4294967296) * 4294967296) by lia.
  apply Z_mod_mult.
Qed.

End Totals.

(** X2.  Registering and removing a request both keep the PUSH total equal,
    as a [uint32_t], to the sum of the PUSH totals of all users: if the two
    agree modulo [2^32] before [_record_task_info] or [_remove_task_info],
    whatever the kind, signature and user, they agree afterwards. *)
Theorem totals_agree_preserved (k : TTaskType) (s : Z) (u : string) (r : registry) :
  totals_agree r ->
  totals_agree (snd (_record_task_info k s u r))
  /\ totals_agree (_remove_task_info k s u r).
Proof.
  intros H. split.
  - unfold _record_task_info.
    destruct (decide (s ∈ signature_set (_s_task_signatures r) k)); [exact H |].
    destruct (decide (k = PUSH)) as [-> | Hk]; cbn [snd]; [| exact H].
    apply (totals_agree_update r _ u 1 H).
    + cbn [_s_total_task_user_count]. unfold set_user_count.
      now rewrite lookup_insert_eq.
    + unfold total. cbn [_s_total_task_count]. unfold set_type_count, type_count.
      now rewrite lookup_insert_eq.
  - unfold _remove_task_info.
    destruct (decide (k = PUSH)) as [-> | Hk]; [| exact H].
    apply (totals_agree_update r _ u (-1) H).
    + cbn [_s_total_task_user_count]. unfold set_user_count.
      now rewrite lookup_insert_eq.
    + unfold total. cbn [_s_total_task_count]. unfold set_type_count, type_count.
      now rewrite lookup_insert_eq.
Qed.

Lemma totals_agree_preserved_witness :
  totals_agree (snd (_record_task_info PUSH 7 "A" Sample.empty_registry))
  /\ totals_agree (_remove_task_info PUSH 7 "A" Sample.empty_registry).
Proof.
  apply (totals_agree_preserved PUSH 7 "A" Sample.empty_registry).
  vm_compute. reflexivity.
Defined.

(** ** The queue under submission *)

Section QueueDistinct.

Lemma submit_task_cases (t : TAgentTaskRequest) (p : pool) :
  (signature t ∈ inflight (reg p) (task_type t) /\ submit_task t p = p)
  \/ ((signature t ∉ inflight (reg p) (task_type t))
      /\ _tasks (submit_task t p) = _tasks p ++ [t]
      /\ forall k, inflight (reg (submit_task t p)) k
                   = if decide (k = task_type t)
                     then {[signature t]} ∪ inflight (reg p) (task_type t)
                     else inflight (reg p) k).
Proof.
  unfold submit_task.
  destruct (decide (signature t ∈ inflight (reg p) (task_type t))) as [Hin | Hout].
  - left. split; [exact Hin |].
    rewrite (record_task_info_present _ _ (task_user t) _ Hin). apply pool_eta.
  - right. split; [exact Hout |].
    destruct (record_task_info_fresh _ _ (task_user t) _ Hout)
      as (r' & -> & Hsig & _).
    cbn [_tasks reg]. split; [reflexivity |].
    intros k. unfold inflight at 1. rewrite Hsig. apply signature_set_insert.
Qed.

Lemma inflight_submit_mono (t : TAgentTaskRequest) (p : pool) k s :
  s ∈ inflight (reg p) k -> s ∈ inflight (reg (submit_task t p)) k.
Proof.
  intros H. destruct (submit_task_cases t p) as [[_ ->] | (_ & _ & Hi)]; [exact H |].
  rewrite Hi. destruct (decide (k = task_type t)) as [-> | _]; [| exact H].
  apply elem_of_union. now right.
Qed.

Lemma inflight_submit_self (t : TAgentTaskRequest) (p : pool) :
  signature t ∈ inflight (reg (submit_task t p)) (task_type t).
Proof.
  destruct (submit_task_cases t p) as [[Hin ->] | (_ & _ & Hi)]; [exact Hin |].
  rewrite Hi, decide_True by reflexivity.
  apply elem_of_union. left. now apply elem_of_singleton.
Qed.

Lemma submit_task_queue (t : TAgentTaskRequest) (p : pool) :
  queue_registered p -> queue_distinct p ->
  queue_registered (submit_task t p) /\ queue_distinct (submit_task t p)
  /\ (_tasks (submit_task t p) = _tasks p
      \/ _tasks (submit_task t p) = _tasks p ++ [t]).
Proof.
  intros Hreg Hdis.
  destruct (submit_task_cases t p) as [[Hin ->] | (Hout & Hq & _)].
  - auto.
  - repeat split.
    + intros t' Ht'. rewrite Hq in Ht'. apply elem_of_app in Ht'.
      destruct Ht' as [Ht' | Ht'].
      * apply inflight_submit_mono. now apply Hreg.
      * apply list_elem_of_singleton in Ht'. subst t'. apply inflight_submit_self.
    + unfold queue_distinct. rewrite Hq, fmap_app. apply NoDup_app.
      split; [exact Hdis |]. split; [| apply NoDup_singleton].
      intros key Hkey Hkey'. apply list_elem_of_singleton in Hkey'. subst key.
      apply list_elem_of_fmap in Hkey. destruct Hkey as (t' & Heq & Ht').
      apply Hreg in Ht'. unfold task_key in Heq. injection Heq as Hk Hs.
      rewrite <- Hk, <- Hs in Ht'. contradiction.
    + now right.
Qed.

Lemma submit_all_snoc (ts : list TAgentTaskRequest) (t : TAgentTaskRequest) (p : pool) :
  submit_all (ts ++ [t]) p = submit_task t (submit_all ts p).
Proof. unfold submit_all. now rewrite fold_left_app. Qed.

End QueueDistinct.

(** X3.  Submission never queues a request twice.  From a pool in which
    every queued request is registered and no two queued requests share
    kind and signature, submitting any list of requests gives a pool with
    the same two properties; the queue has only grown at its back, by
    requests of the list in the order of the list; and the signature of
    every submitted request is in flight. *)
Theorem submit_all_keeps_queue_distinct (ts : list TAgentTaskRequest) (p : pool) :
  queue_registered p -> queue_distinct p ->
  queue_registered (submit_all ts p)
  /\ queue_distinct (submit_all ts p)
  /\ (exists added, _tasks (submit_all ts p) = _tasks p ++ added
                    /\ added `sublist_of` ts)
  /\ (forall t, t ∈ ts ->
                signature t ∈ inflight (reg (submit_all ts p)) (task_type t)).
Proof.
  intros Hreg Hdis. induction ts as [| t ts IH] using rev_ind.
  - repeat split; try assumption.
    + exists []. split; [now rewrite app_nil_r | constructor].
    + intros t Ht. apply elem_of_nil in Ht. contradiction.
  - destruct IH as (Hr & Hd & (added & Hq & Hsub) & Hall).
    rewrite submit_all_snoc.
    destruct (submit_task_queue t (submit_all ts p) Hr Hd) as (Hr' & Hd' & Hq').
    repeat split; try assumption.
    + destruct Hq' as [Hq' | Hq']; rewrite Hq', Hq.
      * exists added. split; [reflexivity |]. now apply sublist_inserts_r.
      * exists (added ++ [t]). split; [now rewrite app_assoc |].
        now apply sublist_app.
    + intros t' Ht'. apply elem_of_app in Ht'. destruct Ht' as [Ht' | Ht'].
      * apply inflight_submit_mono. now apply Hall.
      * apply list_elem_of_singleton in Ht'. subst t'. apply inflight_submit_self.
Qed.

Lemma submit_all_keeps_queue_distinct_witness :
  queue_distinct (submit_all [Sample.a1; Sample.a1; Sample.a2] Sample.empty_pool).
Proof.
  apply (submit_all_keeps_queue_distinct [Sample.a1; Sample.a1; Sample.a2]
           Sample.empty_pool).
  - intros t Ht. apply elem_of_nil in Ht. contradiction.
  - constructor.
Defined.

(** ** Whose running count a selection raises *)

Section ChargedUser.

Variable thread_count : Z.
Variable r : registry.

Implicit Types (tasks : list TAgentTaskRequest) (improper : gset string)
  (u : string).

Lemma scan_tasks_high_user tasks :
  forall i u improper,
    scan_tasks thread_count r HIGH tasks i u improper
    = match list_find (fun t => priority t = Some HIGH) tasks with
      | Some (k, _) => (Int.int32 (i + Z.of_nat k), last_user u (take (S k) tasks))
      | None => (-1, last_user u tasks)
      end.
Proof.
  induction tasks as [| t rest IH]; intros i u improper;
    cbn [scan_tasks list_find last_user].
  - reflexivity.
  - rewrite decide_True by reflexivity.
    destruct (decide (priority t = Some HIGH)) as [Hp | Hp].
    + cbn. rewrite Z.add_0_r. now rewrite take_0.
    + rewrite IH.
      destruct (list_find (λ t0, priority t0 = Some HIGH) rest) as [[k x] |]; cbn.
      * f_equal. f_equal. lia.
      * reflexivity.
Qed.

(** In the NORMAL lane the loop variable only ever differs from the user
    of the request at hand when it is already improper. *)
Lemma scan_tasks_normal_user tasks :
  forall i u improper,
    u ∈ improper \/ u = ""%string ->
    let res := scan_tasks thread_count r NORMAL tasks i u improper in
    fst res = -1
    \/ exists k t, tasks !! k = Some t
                   /\ fst res = Int.int32 (i + Z.of_nat k)
                   /\ snd res = task_user t.
Proof.
  induction tasks as [| t rest IH]; intros i u improper Hu; cbn [scan_tasks].
  - left. reflexivity.
  - destruct (decide (NORMAL = HIGH)) as [Hd | _]; [discriminate Hd |].
    set (u' := match resource_info t with Some ri => user ri | None => u end).
    assert (Hrec : forall improper',
               u' ∈ improper' ->
               let res := scan_tasks thread_count r NORMAL rest (i + 1) u' improper' in
               fst res = -1
               \/ exists k t0, (t :: rest) !! k = Some t0
                               /\ fst res = Int.int32 (i + Z.of_nat k)
                               /\ snd res = task_user t0).
    { intros improper' Hin.
      destruct (IH (i + 1) u' improper' (or_introl Hin)) as [H | (k & t0 & Hk & Hi & Hs)].
      - left. exact H.
      - right. exists (S k), t0. repeat split; [exact Hk | | exact Hs].
        cbv zeta in Hi. rewrite Hi. f_equal. lia. }
    cbv zeta. destruct (decide (u' ∈ improper)) as [Hin | Hout].
    + now apply Hrec.
    + destruct (selectable thread_count r (task_type t) u').
      * right. exists 0%nat, t. repeat split.
        -- cbn [fst]. f_equal. lia.
        -- cbn [snd]. unfold task_user. subst u'.
           destruct (resource_info t); [reflexivity |].
           destruct Hu as [Hu | Hu]; [contradiction | exact Hu].
      * apply Hrec. apply elem_of_union. left. now apply elem_of_singleton.
Qed.

End ChargedUser.

(** The selection block of the worker hands on the request at the index
    [_get_next_task_index] returns. *)
Lemma push_select_taken (thread_count : Z) (lane : TPriority) (p : pool)
    (i : nat) (t : TAgentTaskRequest) (r' : registry) :
  Z.of_nat (length (_tasks p)) < 2 ^ 31 ->
  _tasks p !! i = Some t ->
  _get_next_task_index thread_count (_tasks p) lane (reg p)
  = Some (Z.of_nat i, r') ->
  push_select thread_count lane p
  = Some (Some (t, task_user t), {| _tasks := delete i (_tasks p); reg := r' |}).
Proof.
  intros Hlen Hi Hg. unfold push_select. rewrite Hg.
  pose proof (lookup_lt_Some _ _ _ Hi) as Hlt.
  rewrite IntFacts.int32_small by lia.
  destruct (Z.ltb_spec (Z.of_nat i) 0); [lia |].
  now rewrite deque_at_nat, Hi, Nat2Z.id.
Qed.

Lemma normal_lane_index (thread_count : Z) (p : pool) :
  _tasks p <> [] -> Z.of_nat (length (_tasks p)) < 2 ^ 31 ->
  exists i t,
    _tasks p !! i = Some t
    /\ _get_next_task_index thread_count (_tasks p) NORMAL (reg p)
       = Some (Z.of_nat i, mark_running (task_type t) (task_user t) (reg p)).
Proof.
  intros Hne Hlen. unfold _get_next_task_index.
  pose proof (scan_tasks_normal_user thread_count (reg p) (_tasks p) 0 ""%string ∅
                (or_intror eq_refl)) as Hs.
  destruct (scan_tasks thread_count (reg p) NORMAL (_tasks p) 0 "" ∅)
    as [index uv].
  cbv zeta in Hs. cbn [fst snd] in Hs.
  destruct Hs as [-> | (k & t & Hk & -> & ->)].
  - rewrite decide_True by reflexivity.
    destruct (decide (NORMAL = HIGH)) as [Hd | _]; [discriminate Hd |].
    destruct (_tasks p) as [| t0 rest] eqn:Et; [contradiction |].
    exists 0%nat, t0. split; [reflexivity |].
    change (deque_at (t0 :: rest) 0) with (Some t0). reflexivity.
  - pose proof (lookup_lt_Some _ _ _ Hk) as Hlt.
    rewrite Z.add_0_l, IntFacts.int32_small by lia.
    rewrite decide_False by lia. rewrite deque_at_nat, Hk.
    rewrite IntFacts.uint32_small by lia.
    exists k, t. split; [exact Hk | reflexivity].
Qed.

(** X4.  A NORMAL-lane worker never idles on a non-empty queue, and what it
    charges is the user of the request it takes: for a queue of at least
    one and fewer than [2^31] requests, [_get_next_task_index] yields the
    position of some queued request and raises the running count of that
    request's own user, and the selection block of the worker takes
    exactly that request out of the queue. *)
Theorem normal_lane_takes_a_request_and_charges_its_user (thread_count : Z)
    (p : pool) :
  _tasks p <> [] -> Z.of_nat (length (_tasks p)) < 2 ^ 31 ->
  exists i t,
    _tasks p !! i = Some t
    /\ _get_next_task_index thread_count (_tasks p) NORMAL (reg p)
       = Some (Z.of_nat i, mark_running (task_type t) (task_user t) (reg p))
    /\ push_select thread_count NORMAL p
       = Some (Some (t, task_user t),
               {| _tasks := delete i (_tasks p);
                  reg := mark_running (task_type t) (task_user t) (reg p) |}).
Proof.
  intros Hne Hlen.
  destruct (normal_lane_index thread_count p Hne Hlen) as (i & t & Hi & Hg).
  exists i, t. split; [exact Hi |]. split; [exact Hg |].
  exact (push_select_taken thread_count NORMAL p i t _ Hlen Hi Hg).
Qed.

Lemma normal_lane_takes_a_request_and_charges_its_user_witness :
  exists i t,
    _tasks Sample.three_submitted !! i = Some t
    /\ _get_next_task_index 2 (_tasks Sample.three_submitted) NORMAL
         (reg Sample.three_submitted)
       = Some (Z.of_nat i,
               mark_running (task_type t) (task_user t) (reg Sample.three_submitted))
    /\ push_select 2 NORMAL Sample.three_submitted
       = Some (Some (t, task_user t),
               {| _tasks := delete i (_tasks Sample.three_submitted);
                  reg := mark_running (task_type t) (task_user t)
                           (reg Sample.three_submitted) |}).
Proof.
  apply (normal_lane_takes_a_request_and_charges_its_user 2 Sample.three_submitted).
  - vm_compute. discriminate.
  - vm_compute. reflexivity.
Defined.

Lemma high_lane_index (thread_count : Z)
    (tasks : list TAgentTaskRequest) (r : registry) (i : nat)
    (t : TAgentTaskRequest) :
  Z.of_nat (length tasks) < 2 ^ 31 ->
  tasks !! i = Some t -> priority t = Some HIGH ->
  (forall j t', tasks !! j = Some t' -> (j < i)%nat -> priority t' <> Some HIGH) ->
  _get_next_task_index thread_count tasks HIGH r
  = Some (Z.of_nat i, mark_running (task_type t) (user_in_scan tasks i) r).
Proof.
  intros Hlen Hi Hp Hmin.
  assert (Ef : list_find (λ t, priority t = Some HIGH) tasks = Some (i, t))
    by (apply list_find_Some; auto).
  pose proof (lookup_lt_Some _ _ _ Hi) as Hlt.
  unfold _get_next_task_index. rewrite scan_tasks_high_user, Ef.
  rewrite Z.add_0_l, IntFacts.int32_small by lia.
  rewrite decide_False by lia. rewrite deque_at_nat, Hi.
  now rewrite IntFacts.uint32_small by lia.
Qed.

Lemma last_user_own (t : TAgentTaskRequest) (ri : TResourceInfo) :
  resource_info t = Some ri ->
  forall l u, last_user u (l ++ [t]) = user ri.
Proof.
  intros Hri l. induction l as [| x l IH]; intros u; cbn.
  - now rewrite Hri.
  - apply IH.
Qed.

Lemma last_user_front (t' t : TAgentTaskRequest) (ri : TResourceInfo) :
  resource_info t' = Some ri -> resource_info t = None ->
  forall l u, last_user u (l ++ [t'] ++ [t]) = user ri.
Proof.
  intros Hri Hnone l. induction l as [| x l IH]; intros u; cbn.
  - now rewrite Hri, Hnone.
  - apply IH.
Qed.

Lemma user_in_scan_front (tasks : list TAgentTaskRequest) (i : nat)
    (t t' : TAgentTaskRequest) (front : list TAgentTaskRequest) :
  tasks !! i = Some t -> resource_info t = None ->
  tasks = front ++ [t'] ++ drop i tasks ->
  is_Some (resource_info t') ->
  user_in_scan tasks i = task_user t'.
Proof.
  intros Hi Hnone Hsplit [ri Hri]. unfold user_in_scan.
  pose proof (lookup_lt_Some _ _ _ Hi) as Hlt.
  assert (Hlen' : length front = (i - 1)%nat /\ (0 < i)%nat).
  { apply (f_equal length) in Hsplit.
    rewrite !length_app, length_drop in Hsplit. cbn in Hsplit. lia. }
  destruct Hlen' as [Hfl Hpos].
  assert (Htake : take (S i) tasks = front ++ [t'] ++ [t]).
  { rewrite (take_S_r tasks i t Hi).
    rewrite Hsplit at 1. rewrite app_assoc.
    rewrite take_app_length' by (rewrite length_app; cbn; lia).
    now rewrite <- app_assoc. }
  rewrite Htake, (last_user_front t' t ri Hri Hnone).
  unfold task_user. now rewrite Hri.
Qed.

(** X5.  A HIGH-lane worker charges the user held by the loop variable,
    not the user of the request it takes: when the first request with
    priority HIGH stands at position [i] of a queue of fewer than [2^31]
    requests, the running count raised is that of the last request among
    positions 0 to [i] that carries [resource_info] (the empty user when
    there is none).  That is the user of the taken request when this
    request carries [resource_info]; a request without it is charged to the
    user of a request in front of it. *)
Theorem high_lane_charges_the_scan_user (thread_count : Z)
    (tasks : list TAgentTaskRequest) (r : registry) (i : nat)
    (t : TAgentTaskRequest) :
  Z.of_nat (length tasks) < 2 ^ 31 ->
  tasks !! i = Some t -> priority t = Some HIGH ->
  (forall j t', tasks !! j = Some t' -> (j < i)%nat -> priority t' <> Some HIGH) ->
  _get_next_task_index thread_count tasks HIGH r
  = Some (Z.of_nat i, mark_running (task_type t) (user_in_scan tasks i) r)
  /\ (is_Some (resource_info t) -> user_in_scan tasks i = task_user t)
  /\ (resource_info t = None ->
      forall front t', tasks = front ++ [t'] ++ drop i tasks ->
                       is_Some (resource_info t') ->
                       user_in_scan tasks i = task_user t').
Proof.
  intros Hlen Hi Hp Hmin. split; [| split].
  - exact (high_lane_index thread_count tasks r i t Hlen Hi Hp Hmin).
  - intros [ri Hri]. unfold user_in_scan.
    rewrite (take_S_r tasks i t Hi), (last_user_own t ri Hri).
    unfold task_user. now rewrite Hri.
  - intros Hnone front t' Hsplit Hsome.
    exact (user_in_scan_front tasks i t t' front Hi Hnone Hsplit Hsome).
Qed.

Lemma high_lane_charges_the_scan_user_witness :
  let q := [Sample.push_task 1 (Some "A"%string) None;
            Sample.push_task 2 None (Some HIGH)] in
  _get_next_task_index 2 q HIGH Sample.empty_registry
  = Some (1, mark_running PUSH "A" Sample.empty_registry).
Proof.
  intros q.
  apply (proj1 (high_lane_charges_the_scan_user 2 q Sample.empty_registry 1%nat
                  (Sample.push_task 2 None (Some HIGH))
                  ltac:(vm_compute; reflexivity) eq_refl eq_refl
                  ltac:(intros j t' Hj Hlt; assert (j = 0%nat) as -> by lia;
                        injection Hj as <-; discriminate))).
Defined.

(** ** One turn of a push worker *)

Section PushTurn.

Lemma finish_task_returns (master_client : nat -> AgentStatus) (extra : nat) :
  exists tr, _finish_task (4 + extra) master_client = Some tr
             /\ (1 <= rpc_count tr <= 3)%nat
             /\ process_attempts tr = 0%nat.
Proof.
  unfold _finish_task. cbn [Nat.add finish_task_loop].
  change (0 <? TASK_FINISH_MAX_RETRY) with true. cbn iota.
  destruct (decide (master_client 0%nat = PALO_SUCCESS));
    [eexists; split; [reflexivity | cbn; lia] |].
  change (0 + 1 <? TASK_FINISH_MAX_RETRY) with true. cbn iota.
  destruct (decide (master_client 1%nat = PALO_SUCCESS));
    [eexists; split; [reflexivity | cbn; lia] |].
  change (0 + 1 + 1 <? TASK_FINISH_MAX_RETRY) with true. cbn iota.
  destruct (decide (master_client 2%nat = PALO_SUCCESS));
    [eexists; split; [reflexivity | cbn; lia] |].
  change (0 + 1 + 1 + 1 <? TASK_FINISH_MAX_RETRY) with false. cbn iota.
  eexists; split; [reflexivity | cbn; lia].
Qed.

(** The status a push ends with, by subtype. *)
Lemma push_execute_cases (req : TPushReq) (init : AgentStatus)
    (process : nat -> AgentStatus) (delete_ok : bool) (extra : nat) :
  exists status tr,
    push_execute (2 + extra) req init process delete_ok = Some (status, tr)
    /\ rpc_count tr = 0%nat
    /\ ((push_type req = LOAD \/ push_type req = LOAD_DELETE) ->
        (init = PALO_SUCCESS -> status = process 0%nat /\ process_attempts tr = 1%nat)
        /\ (init <> PALO_SUCCESS -> status = init /\ process_attempts tr = 0%nat))
    /\ (push_type req = DELETE ->
        status = (if delete_ok then PALO_SUCCESS else PALO_ERROR)
        /\ process_attempts tr = 0%nat)
    /\ (push_type req = OTHER_PUSH_TYPE ->
        status = PALO_TASK_REQUEST_ERROR /\ process_attempts tr = 0%nat).
Proof.
  unfold push_execute.
  destruct (decide (push_type req = LOAD \/ push_type req = LOAD_DELETE)) as [Hl | Hl].
  - destruct (decide (init = PALO_SUCCESS)) as [Hi | Hi].
    + cbn [Nat.add push_process_loop].
      change (0 <? PUSH_MAX_RETRY) with true. cbn iota.
      exists (process 0%nat), [PusherProcess (process 0%nat)].
      split.
      * destruct extra; cbn [push_process_loop];
          change (0 + 1 <? PUSH_MAX_RETRY) with false; cbn iota;
          destruct (decide (process 0%nat = PALO_ERROR)); reflexivity.
      * split; [reflexivity |]. split; [| split].
        -- intros _. split; [intros _; split; reflexivity | contradiction].
        -- intros Hd. destruct Hl as [Hl | Hl]; rewrite Hl in Hd; discriminate.
        -- intros Hd. destruct Hl as [Hl | Hl]; rewrite Hl in Hd; discriminate.
    + exists init, []. split; [reflexivity |]. split; [reflexivity |].
      split; [| split].
      * intros _. split; [contradiction | intros _; split; reflexivity].
      * intros Hd. destruct Hl as [Hl | Hl]; rewrite Hl in Hd; discriminate.
      * intros Hd. destruct Hl as [Hl | Hl]; rewrite Hl in Hd; discriminate.
  - destruct (decide (push_type req = DELETE)) as [Hd | Hd].
    + eexists _, []. split; [reflexivity |]. split; [reflexivity |].
      split; [| split].
      * intros H. contradiction.
      * intros _. split; reflexivity.
      * intros H. rewrite H in Hd. discriminate.
    + eexists _, []. split; [reflexivity |]. split; [reflexivity |].
      split; [| split].
      * intros H. contradiction.
      * intros H. contradiction.
      * intros _. split; reflexivity.
Qed.

Lemma rpc_count_app (a b : list event) :
  rpc_count (a ++ b) = (rpc_count a + rpc_count b)%nat.
Proof. unfold rpc_count. now rewrite List.filter_app, length_app. Qed.

Lemma process_attempts_app (a b : list event) :
  process_attempts (a ++ b) = (process_attempts a + process_attempts b)%nat.
Proof. unfold process_attempts. now rewrite List.filter_app, length_app. Qed.

(** A turn that takes a request always ends with a report for it. *)
Lemma push_worker_turn_taken (extra : nat) (thread_count : Z) (lane : TPriority)
    (env : push_env) (w : push_world) (t : TAgentTaskRequest) (u : string)
    (p' : pool) :
  push_select thread_count lane (world_pool w) = Some (Some (t, u), p') ->
  exists status tr_push tr_finish,
    push_execute (4 + extra) (push_req t) (pusher_init env) (pusher_process env)
      (delete_data_ok env) = Some (status, tr_push)
    /\ _finish_task (4 + extra) (finish_answers env) = Some tr_finish
    /\ push_worker_turn (4 + extra) thread_count lane env w
       = Some (Some (push_finish_request t status
                       (if decide (status = PALO_SUCCESS)
                        then next_report_version (_s_report_version w)
                        else _s_report_version w),
                     tr_push ++ tr_finish),
               {| world_pool :=
                    {| _tasks := _tasks p';
                       reg := _remove_task_info (task_type t) (signature t) u (reg p') |};
                  _s_report_version :=
                    if decide (status = PALO_SUCCESS)
                    then next_report_version (_s_report_version w)
                    else _s_report_version w |}).
Proof.
  intros Hsel. unfold push_worker_turn. rewrite Hsel.
  destruct (push_execute_cases (push_req t) (pusher_init env) (pusher_process env)
              (delete_data_ok env) (2 + extra)) as (status & tr_push & E & _).
  change (2 + (2 + extra))%nat with (4 + extra)%nat in E.
  destruct (finish_task_returns (finish_answers env) extra) as (tr_finish & Ef & _).
  exists status, tr_push, tr_finish. rewrite E, Ef. auto.
Qed.

End PushTurn.

(** X6.  What the coordinator is told about a push.  A turn that takes a
    request ends with one report carrying the kind and the signature of
    that request.  Its status is OK exactly when the push was a LOAD or
    LOAD_DELETE whose [init] and single [process] both returned
    PALO_SUCCESS, or a DELETE whose [delete_data] succeeded; the report
    version goes up by one exactly then, and the report carries the value
    it has afterwards.  The request version is stamped exactly for a
    DELETE.  [finish_task] is called between one and three times. *)
Theorem push_turn_report (extra : nat) (thread_count : Z) (lane : TPriority)
    (env : push_env) (w : push_world) (t : TAgentTaskRequest) (u : string)
    (p' : pool) :
  push_select thread_count lane (world_pool w) = Some (Some (t, u), p') ->
  exists req tr w',
    push_worker_turn (4 + extra) thread_count lane env w = Some (Some (req, tr), w')
    /\ finish_task_type req = task_type t
    /\ finish_signature req = signature t
    /\ (finish_status_code req = OK
        <-> ((push_type (push_req t) = LOAD \/ push_type (push_req t) = LOAD_DELETE)
             /\ pusher_init env = PALO_SUCCESS
             /\ pusher_process env 0%nat = PALO_SUCCESS)
            \/ (push_type (push_req t) = DELETE /\ delete_data_ok env = true))
    /\ _s_report_version w'
       = (if decide (finish_status_code req = OK)
          then next_report_version (_s_report_version w)
          else _s_report_version w)
    /\ finish_report_version req = Some (_s_report_version w')
    /\ (is_Some (finish_request_version req) <-> push_type (push_req t) = DELETE)
    /\ (1 <= rpc_count tr <= 3)%nat.
Proof.
  intros Hsel.
  destruct (push_worker_turn_taken extra thread_count lane env w t u p' Hsel)
    as (status & tr_push & tr_finish & Ex & Ef & Eturn).
  destruct (push_execute_cases (push_req t) (pusher_init env) (pusher_process env)
              (delete_data_ok env) (2 + extra))
    as (status' & tr_push' & Ex' & Hrpc & Hload & Hdel & Hoth).
  change (2 + (2 + extra))%nat with (4 + extra)%nat in Ex'.
  rewrite Ex in Ex'. injection Ex' as <- <-.
  destruct (finish_task_returns (finish_answers env) extra) as (tr_f & Ef' & Hcount & _).
  rewrite Ef in Ef'. injection Ef' as <-.
  eexists _, _, _. split; [exact Eturn |].
  assert (Hcode : finish_status_code
                    (push_finish_request t status
                       (if decide (status = PALO_SUCCESS)
                        then next_report_version (_s_report_version w)
                        else _s_report_version w)) = OK
                  <-> status = PALO_SUCCESS).
  { cbn [push_finish_request finish_status_code].
    destruct (decide (status = PALO_SUCCESS)); [tauto |].
    destruct (decide (status = PALO_TASK_REQUEST_ERROR)); split; intros H;
      (discriminate H || contradiction). }
  split; [reflexivity |]. split; [reflexivity |]. split; [| split; [| split; [| split]]].
  - rewrite Hcode. split.
    + intros Hs.
      destruct (push_type (push_req t)) eqn:Et.
      * left. destruct (decide (pusher_init env = PALO_SUCCESS)) as [Hi | Hi].
        -- destruct (proj1 (Hload (or_introl eq_refl)) Hi) as [E _]. split; [tauto |].
           split; [exact Hi | congruence].
        -- destruct (proj2 (Hload (or_introl eq_refl)) Hi) as [E _]. congruence.
      * left. destruct (decide (pusher_init env = PALO_SUCCESS)) as [Hi | Hi].
        -- destruct (proj1 (Hload (or_intror eq_refl)) Hi) as [E _]. split; [tauto |].
           split; [exact Hi | congruence].
        -- destruct (proj2 (Hload (or_intror eq_refl)) Hi) as [E _]. congruence.
      * right. destruct (Hdel eq_refl) as [E _]. split; [reflexivity |].
        destruct (delete_data_ok env); [reflexivity | congruence].
      * destruct (Hoth eq_refl) as [E _]. congruence.
    + intros [(Hl & Hi & Hp) | (Hd & Hok)].
      * destruct (proj1 (Hload Hl) Hi) as [E _]. congruence.
      * destruct (Hdel Hd) as [E _]. rewrite Hok in E. exact E.
  - cbn [_s_report_version].
    destruct (decide (status = PALO_SUCCESS)) as [Hs | Hs].
    + rewrite decide_True by (apply Hcode; exact Hs). reflexivity.
    + rewrite decide_False by (rewrite Hcode; exact Hs). reflexivity.
  - reflexivity.
  - cbn [push_finish_request finish_request_version].
    destruct (decide (push_type (push_req t) = DELETE)) as [Hd | Hd].
    + split; [intros _; exact Hd | intros _; eexists; reflexivity].
    + split; [intros [x Hx]; discriminate Hx | contradiction].
  - rewrite rpc_count_app, Hrpc. lia.
Qed.

Lemma push_turn_report_witness :
  exists req tr w',
    push_worker_turn 4 1 HIGH
      {| pusher_init := PALO_SUCCESS; pusher_process := Sample.always PALO_ERROR;
         delete_data_ok := true; finish_answers := Sample.always PALO_SUCCESS |}
      {| world_pool := Sample.s3_pool; _s_report_version := 10 |}
    = Some (Some (req, tr), w')
    /\ finish_signature req = 2
    /\ finish_status_code req <> OK
    /\ _s_report_version w' = 10.
Proof.
  assert (Hsel : push_select 1 HIGH Sample.s3_pool
                 = Some (Some (Sample.push_task 2 (Some "B"%string) (Some HIGH),
                               "B"%string),
                         {| _tasks := delete 1%nat (_tasks Sample.s3_pool);
                            reg := mark_running PUSH "B" (reg Sample.s3_pool) |}))
    by (vm_compute; reflexivity).
  destruct (push_turn_report 0 1 HIGH
              {| pusher_init := PALO_SUCCESS; pusher_process := Sample.always PALO_ERROR;
                 delete_data_ok := true; finish_answers := Sample.always PALO_SUCCESS |}
              {| world_pool := Sample.s3_pool; _s_report_version := 10 |}
              _ _ _ Hsel)
    as (req & tr & w' & Eturn & _ & Hsig & Hcode & Hver & _).
  exists req, tr, w'. split; [exact Eturn |]. split; [exact Hsig |].
  assert (Hno : finish_status_code req <> OK).
  { intros Hok. apply Hcode in Hok.
    destruct Hok as [(_ & _ & Hp) | (Hd & _)]; discriminate. }
  split; [exact Hno |].
  rewrite Hver. now rewrite decide_False by exact Hno.
Defined.

(** X7.  A turn of a NORMAL-lane worker settles the accounts of the
    request it takes.  On a non-empty queue of fewer than [2^31] PUSH
    requests, with running counts that are [uint32_t] values, the turn takes
    one queued request, reports it, and leaves its signature out of the
    PUSH set, the total of its user and the PUSH total lower by one, and
    every running count as it was before the turn. *)
Theorem normal_turn_settles_the_accounts (extra : nat) (thread_count : Z)
    (env : push_env) (w : push_world) :
  _tasks (world_pool w) <> [] ->
  Z.of_nat (length (_tasks (world_pool w))) < 2 ^ 31 ->
  (forall t, t ∈ _tasks (world_pool w) -> task_type t = PUSH) ->
  (forall u, 0 <= running_by_user (reg (world_pool w)) PUSH u < 2 ^ 32) ->
  exists i t req tr w',
    _tasks (world_pool w) !! i = Some t
    /\ push_worker_turn (4 + extra) thread_count NORMAL env w
       = Some (Some (req, tr), w')
    /\ finish_signature req = signature t
    /\ _tasks (world_pool w') = delete i (_tasks (world_pool w))
    /\ inflight (reg (world_pool w')) PUSH
       = inflight (reg (world_pool w)) PUSH ∖ {[signature t]}
    /\ total_by_user (reg (world_pool w')) PUSH (task_user t)
       = Int.uint32 (total_by_user (reg (world_pool w)) PUSH (task_user t) - 1)
    /\ total (reg (world_pool w')) PUSH
       = Int.uint32 (total (reg (world_pool w)) PUSH - 1)
    /\ (forall k u, running_by_user (reg (world_pool w')) k u
                    = running_by_user (reg (world_pool w)) k u).
Proof.
  intros Hne Hlen Hpush Hrange.
  destruct (normal_lane_index thread_count (world_pool w) Hne Hlen)
    as (i & t & Hi & Hg).
  pose proof (push_select_taken thread_count NORMAL (world_pool w) i t _
                Hlen Hi Hg) as Hsel.
  destruct (push_worker_turn_taken extra thread_count NORMAL env w _ _ _ Hsel)
    as (status & tr_push & tr_finish & _ & _ & Eturn).
  assert (Hk : task_type t = PUSH)
    by (apply Hpush; eapply list_elem_of_lookup_2; exact Hi).
  exists i, t. eexists _, _, _. split; [exact Hi |]. split; [exact Eturn |].
  cbn [world_pool _tasks reg]. rewrite Hk.
  split; [reflexivity |]. split; [reflexivity |]. split; [| split; [| split]].
  - rewrite inflight_remove, decide_True by reflexivity. reflexivity.
  - rewrite total_by_user_remove, decide_True by tauto. reflexivity.
  - rewrite total_remove, decide_True by tauto. reflexivity.
  - intros k u. rewrite running_by_user_remove, !running_by_user_mark.
    destruct (decide (PUSH = PUSH /\ k = PUSH /\ u = task_user t))
      as [(_ & -> & ->) | Hn].
    + rewrite decide_True by tauto. apply uint32_succ_pred, Hrange.
    + rewrite decide_False; [reflexivity | tauto].
Qed.

Lemma normal_turn_settles_the_accounts_witness :
  exists i t req tr w',
    _tasks Sample.three_submitted !! i = Some t
    /\ push_worker_turn 4 2 NORMAL
         {| pusher_init := PALO_SUCCESS; pusher_process := Sample.always PALO_SUCCESS;
            delete_data_ok := true; finish_answers := Sample.always PALO_SUCCESS |}
         {| world_pool := Sample.three_submitted; _s_report_version := 0 |}
       = Some (Some (req, tr), w')
    /\ forall k u, running_by_user (reg (world_pool w')) k u
                   = running_by_user (reg Sample.three_submitted) k u.
Proof.
  destruct (normal_turn_settles_the_accounts 0 2
              {| pusher_init := PALO_SUCCESS; pusher_process := Sample.always PALO_SUCCESS;
                 delete_data_ok := true; finish_answers := Sample.always PALO_SUCCESS |}
              {| world_pool := Sample.three_submitted; _s_report_version := 0 |})
    as (i & t & req & tr & w' & Hi & Eturn & _ & _ & _ & _ & _ & Hrun).
  - vm_compute. discriminate.
  - vm_compute. reflexivity.
  - intros t Ht. cbn in Ht.
    repeat (apply elem_of_cons in Ht; destruct Ht as [-> | Ht]; [reflexivity |]).
    apply elem_of_nil in Ht. contradiction.
  - intros u. vm_compute. split; [discriminate | reflexivity].
  - exists i, t, req, tr, w'. auto.
Defined.

(** X8.  A turn of a HIGH-lane worker can move a running count from one
    user to another.  When the first HIGH request of the queue is a PUSH
    request without [resource_info] standing directly behind a request of
    a named user, the turn raises the running count of that user by one
    and lowers the running count of the empty user by one, as [uint32_t]
    values: from 0 the latter becomes [2^32 - 1]. *)
Theorem high_turn_moves_a_running_count (extra : nat) (thread_count : Z)
    (env : push_env) (w : push_world)
    (front rest : list TAgentTaskRequest) (t' t : TAgentTaskRequest) :
  _tasks (world_pool w) = front ++ [t'; t] ++ rest ->
  Z.of_nat (length (_tasks (world_pool w))) < 2 ^ 31 ->
  priority t = Some HIGH ->
  (forall x, x ∈ front ++ [t'] -> priority x <> Some HIGH) ->
  task_type t = PUSH -> resource_info t = None ->
  is_Some (resource_info t') -> task_user t' <> ""%string ->
  exists req tr w',
    push_worker_turn (4 + extra) thread_count HIGH env w = Some (Some (req, tr), w')
    /\ finish_signature req = signature t
    /\ running_by_user (reg (world_pool w')) PUSH (task_user t')
       = Int.uint32 (running_by_user (reg (world_pool w)) PUSH (task_user t') + 1)
    /\ running_by_user (reg (world_pool w')) PUSH ""
       = Int.uint32 (running_by_user (reg (world_pool w)) PUSH "" - 1)
    /\ (running_by_user (reg (world_pool w)) PUSH "" = 0 ->
        running_by_user (reg (world_pool w')) PUSH "" = 2 ^ 32 - 1).
Proof.
  intros Hq Hlen Hp Hfront Hk Hnone Hsome Hname.
  set (i := S (length front)).
  assert (Hi : _tasks (world_pool w) !! i = Some t).
  { rewrite Hq. subst i. rewrite lookup_app_r by lia.
    replace (S (length front) - length front)%nat with 1%nat by lia. reflexivity. }
  assert (Hmin : forall j x, _tasks (world_pool w) !! j = Some x -> (j < i)%nat ->
                             priority x <> Some HIGH).
  { intros j x Hj Hlt. apply Hfront.
    rewrite Hq in Hj. change (front ++ [t'; t] ++ rest)
      with (front ++ [t'] ++ (t :: rest)) in Hj.
    rewrite app_assoc in Hj.
    rewrite lookup_app_l in Hj by (rewrite length_app; cbn; subst i; lia).
    eapply list_elem_of_lookup_2. exact Hj. }
  pose proof (high_lane_index thread_count (_tasks (world_pool w))
                (reg (world_pool w)) i t Hlen Hi Hp Hmin) as Hg.
  assert (Hu : user_in_scan (_tasks (world_pool w)) i = task_user t').
  { apply (user_in_scan_front _ i t t' front Hi Hnone); [| exact Hsome].
    rewrite Hq at 1. f_equal. subst i.
    rewrite Hq. change (front ++ [t'; t] ++ rest)
      with (front ++ [t'] ++ (t :: rest)).
    rewrite app_assoc.
    rewrite drop_app_length' by (rewrite length_app; cbn; lia). reflexivity. }
  rewrite Hu in Hg.
  assert (Ef : list_find (λ t, priority t = Some HIGH) (_tasks (world_pool w))
               = Some (i, t)) by (apply list_find_Some; auto).
  pose proof (high_lane_cases thread_count (world_pool w) Hlen) as Hc.
  rewrite Ef in Hc. destruct Hc as (r' & Hg' & Hsel).
  rewrite Hg in Hg'. injection Hg' as <-.
  destruct (push_worker_turn_taken extra thread_count HIGH env w _ _ _ Hsel)
    as (status & tr_push & tr_finish & _ & _ & Eturn).
  assert (Htu : task_user t = ""%string) by (unfold task_user; now rewrite Hnone).
  eexists _, _, _. split; [exact Eturn |].
  cbn [world_pool _tasks reg]. rewrite Hk, Htu.
  split; [reflexivity |].
  assert (Hempty : running_by_user
                     (_remove_task_info PUSH (signature t) ""
                        (mark_running PUSH (task_user t') (reg (world_pool w))))
                     PUSH ""
                   = Int.uint32 (running_by_user (reg (world_pool w)) PUSH "" - 1)).
  { rewrite running_by_user_remove, decide_True by tauto.
    rewrite running_by_user_mark, decide_False; [reflexivity |].
    intros [_ E]. congruence. }
  split; [| split].
  - rewrite running_by_user_remove, decide_False by (intros (_ & _ & E); congruence).
    rewrite running_by_user_mark, decide_True by tauto. reflexivity.
  - exact Hempty.
  - intros Hz. rewrite Hempty, Hz. reflexivity.
Qed.

Lemma high_turn_moves_a_running_count_witness :
  exists req tr w',
    push_worker_turn 4 1 HIGH
      {| pusher_init := PALO_SUCCESS; pusher_process := Sample.always PALO_SUCCESS;
         delete_data_ok := true; finish_answers := Sample.always PALO_SUCCESS |}
      {| world_pool :=
           submit_all [Sample.a1; Sample.push_task 2 None (Some HIGH)] Sample.empty_pool;
         _s_report_version := 0 |}
    = Some (Some (req, tr), w')
    /\ finish_signature req = 2
    /\ running_by_user (reg (world_pool w')) PUSH "A" = 1
    /\ running_by_user (reg (world_pool w')) PUSH "" = 2 ^ 32 - 1.
Proof.
  destruct (high_turn_moves_a_running_count 0 1
              {| pusher_init := PALO_SUCCESS; pusher_process := Sample.always PALO_SUCCESS;
                 delete_data_ok := true; finish_answers := Sample.always PALO_SUCCESS |}
              {| world_pool :=
                   submit_all [Sample.a1; Sample.push_task 2 None (Some HIGH)]
                     Sample.empty_pool;
                 _s_report_version := 0 |}
              [] [] Sample.a1 (Sample.push_task 2 None (Some HIGH)))
    as (req & tr & w' & Eturn & Hsig & HA & _ & Hwrap).
  - vm_compute. reflexivity.
  - vm_compute. reflexivity.
  - reflexivity.
  - intros x Hx. cbn in Hx. apply list_elem_of_singleton in Hx. subst x. discriminate.
  - reflexivity.
  - reflexivity.
  - eexists. reflexivity.
  - discriminate.
  - exists req, tr, w'. split; [exact Eturn |]. split; [exact Hsig |].
    split; [exact HA |]. apply Hwrap. vm_compute. reflexivity.
Defined.

(** ** The CREATE_TABLE worker *)

Lemma create_table_worker_turn_step (extra : nat) (create_ok : bool)
    (master_client : nat -> AgentStatus) (w : push_world)
    (t : TAgentTaskRequest) (rest : list TAgentTaskRequest) :
  _tasks (world_pool w) = t :: rest ->
  let v := if create_ok then next_report_version (_s_report_version w)
           else _s_report_version w in
  exists tr,
    create_table_worker_turn (4 + extra) create_ok master_client w
    = Some (create_table_finish_request t create_ok v, tr,
            {| world_pool :=
                 {| _tasks := rest;
                    reg := _remove_task_info (task_type t) (signature t) ""
                             (reg (world_pool w)) |};
               _s_report_version := v |}).
Proof.
  intros Hq v. unfold create_table_worker_turn. rewrite Hq.
  destruct (finish_task_returns master_client extra) as (tr & -> & _).
  exists tr. reflexivity.
Qed.

Lemma next_report_version_add (v c : Z) :
  (next_report_version v + c) mod 2 ^ 64 = (v + (1 + c)) mod 2 ^ 64.
Proof.
  unfold next_report_version.
  rewrite Zplus_mod_idemp_l. f_equal. lia.
Qed.

Lemma remove_task_info_signatures k s u r :
  _s_task_signatures (_remove_task_info k s u r)
  = <[k := inflight r k ∖ {[s]}]> (_s_task_signatures r).
Proof. unfold _remove_task_info. now destruct (decide (k = PUSH)). Qed.

Lemma create_table_worker_run_result (extra : nat) (create_table : nat -> bool)
    (master_client : nat -> nat -> AgentStatus) (n : nat) (w : push_world) :
  exists reqs w',
    create_table_worker_run (4 + extra) create_table master_client n
      (length (_tasks (world_pool w))) w = Some (reqs, w')
    /\ finish_key <$> reqs = task_key <$> _tasks (world_pool w)
    /\ _tasks (world_pool w') = []
    /\ (forall k s, s ∈ inflight (reg (world_pool w')) k
                    <-> s ∈ inflight (reg (world_pool w)) k
                        /\ (k, s) ∉ task_key <$> _tasks (world_pool w))
    /\ (forall k, is_Some (_s_task_signatures (reg (world_pool w')) !! k)
                  <-> is_Some (_s_task_signatures (reg (world_pool w)) !! k)
                      \/ k ∈ task_type <$> _tasks (world_pool w))
    /\ (0 <= _s_report_version w < 2 ^ 64 ->
        _s_report_version w'
        = (_s_report_version w
           + Z.of_nat (length (List.filter create_table
                                 (seq n (length (_tasks (world_pool w)))))))
          mod 2 ^ 64).
Proof.
  destruct w as [[q r] v]. cbn [world_pool _tasks reg _s_report_version].
  revert n r v. induction q as [| t q IH]; intros n r v.
  - exists [], {| world_pool := {| _tasks := []; reg := r |}; _s_report_version := v |}.
    cbn [create_table_worker_run length seq List.filter world_pool _tasks reg
         _s_report_version fmap list_fmap].
    split; [reflexivity |]. split; [reflexivity |]. split; [reflexivity |].
    split; [| split].
    + intros k s. split; [| tauto]. intros Hs. split; [exact Hs |].
      apply not_elem_of_nil.
    + intros k. split; [tauto |]. intros [H | H]; [exact H |].
      apply elem_of_nil in H. contradiction.
    + intros Hv. change (Z.of_nat 0) with 0. rewrite Z.add_0_r. symmetry.
      apply Z.mod_small. exact Hv.
  - cbn [length create_table_worker_run].
    destruct (create_table_worker_turn_step extra (create_table n) (master_client n)
                {| world_pool := {| _tasks := t :: q; reg := r |};
                   _s_report_version := v |} t q eq_refl) as (tr & ->).
    cbn [world_pool _tasks reg _s_report_version].
    set (v1 := if create_table n then next_report_version v else v).
    destruct (IH (S n) (_remove_task_info (task_type t) (signature t) "" r) v1)
      as (reqs & w' & -> & Hkeys & Hempty & Hin & Hdom & Hver).
    eexists _, w'. split; [reflexivity |].
    split; [| split; [exact Hempty | split; [| split]]].
    + rewrite !fmap_cons. f_equal. exact Hkeys.
    + intros k s. rewrite Hin, inflight_remove, fmap_cons, not_elem_of_cons.
      unfold task_key at 2.
      destruct (decide (k = task_type t)) as [-> | Hk].
      * rewrite elem_of_difference, not_elem_of_singleton.
        split.
        -- intros [[H1 H2] H3]. repeat split; try assumption.
           intros E. injection E as E. contradiction.
        -- intros [H1 [H2 H3]]. repeat split; try assumption.
           intros E. apply H2. now rewrite E.
      * split.
        -- intros [H1 H3]. repeat split; try assumption.
           intros E. injection E as E _. contradiction.
        -- intros [H1 [H2 H3]]. split; assumption.
    + intros k. rewrite Hdom, remove_task_info_signatures, fmap_cons, elem_of_cons.
      destruct (decide (k = task_type t)) as [-> | Hk].
      * rewrite lookup_insert_eq. split; [auto |]. intros _. left. now eexists.
      * rewrite lookup_insert_ne by congruence. tauto.
    + intros Hv.
      assert (Hv1 : 0 <= v1 < 2 ^ 64).
      { subst v1. destruct (create_table n); [| exact Hv].
        unfold next_report_version. apply Z.mod_pos_bound. lia. }
      rewrite (Hver Hv1). cbn [seq List.filter]. subst v1.
      destruct (create_table n).
      * cbn [length]. rewrite Nat2Z.inj_succ. rewrite next_report_version_add.
        f_equal. lia.
      * reflexivity.
Qed.

(** X9.  One CREATE_TABLE worker empties its queue from the front.  Run
    for as many turns as the queue is long, it sends one report per queued
    request, in queue order, each with the kind and signature of its
    request; afterwards the queue is empty, a signature is in flight
    exactly if it was in flight before and belongs to no request of the
    queue, and the report version has advanced by the number of turns in
    which the engine succeeded. *)
Theorem create_table_worker_drains_queue (extra : nat) (create_table : nat -> bool)
    (master_client : nat -> nat -> AgentStatus) (n : nat) (w : push_world) :
  0 <= _s_report_version w < 2 ^ 64 ->
  exists reqs w',
    create_table_worker_run (4 + extra) create_table master_client n
      (length (_tasks (world_pool w))) w = Some (reqs, w')
    /\ finish_key <$> reqs = task_key <$> _tasks (world_pool w)
    /\ _tasks (world_pool w') = []
    /\ (forall k s, s ∈ inflight (reg (world_pool w')) k
                    <-> s ∈ inflight (reg (world_pool w)) k
                        /\ (k, s) ∉ task_key <$> _tasks (world_pool w))
    /\ _s_report_version w'
       = (_s_report_version w
          + Z.of_nat (length (List.filter create_table
                                (seq n (length (_tasks (world_pool w)))))))
         mod 2 ^ 64.
Proof.
  intros Hv.
  destruct (create_table_worker_run_result extra create_table master_client n w)
    as (reqs & w' & E & Hkeys & Hempty & Hin & _ & Hver).
  exists reqs, w'. repeat (split; [assumption |]). exact (Hver Hv).
Qed.

Lemma create_table_worker_drains_queue_witness :
  exists reqs w',
    create_table_worker_run 4 (fun n => Nat.even n) (fun _ => Sample.always PALO_SUCCESS) 0 3
      {| world_pool := Sample.three_submitted; _s_report_version := 2 ^ 64 - 1 |}
    = Some (reqs, w')
    /\ finish_signature <$> reqs = [1; 2; 3]
    /\ _s_report_version w' = 1.
Proof.
  destruct (create_table_worker_drains_queue 0 (fun n => Nat.even n)
              (fun _ => Sample.always PALO_SUCCESS) 0
              {| world_pool := Sample.three_submitted; _s_report_version := 2 ^ 64 - 1 |})
    as (reqs & w' & Erun & Hkeys & _ & _ & Hver).
  - cbn. lia.
  - exists reqs, w'. split; [exact Erun |]. split.
    + replace (finish_signature <$> reqs) with (snd <$> (finish_key <$> reqs))
        by (rewrite <- list_fmap_compose; reflexivity).
      rewrite Hkeys. reflexivity.
    + rewrite Hver. vm_compute. reflexivity.
Defined.

(** ** The lanes of the push workers *)

Lemma push_worker_lanes_normal (n : nat) (high c : Z) :
  Int.uint32 high <= c ->
  push_worker_lanes n high c = replicate n NORMAL.
Proof.
  intros Hc. induction n as [| n IH]; [reflexivity |].
  cbn [push_worker_lanes replicate]. unfold push_worker_lane.
  destruct (Z.ltb_spec c (Int.uint32 high)) as [Hlt | _]; [lia |].
  now rewrite IH.
Qed.

Lemma push_worker_lanes_split (n : nat) (high c : Z) :
  0 <= c <= Int.uint32 high ->
  push_worker_lanes n high c
  = replicate (Nat.min n (Z.to_nat (Int.uint32 high - c))) HIGH
    ++ replicate (n - Z.to_nat (Int.uint32 high - c)) NORMAL.
Proof.
  assert (Hmax : Int.uint32 high < 2 ^ 32).
  { unfold Int.uint32. apply Z.mod_pos_bound. lia. }
  revert c. induction n as [| n IH]; intros c Hc; [reflexivity |].
  cbn [push_worker_lanes]. unfold push_worker_lane.
  destruct (Z.ltb_spec c (Int.uint32 high)) as [Hlt | Hge].
  - rewrite (IntFacts.uint32_small (c + 1)) by lia.
    rewrite IH by lia.
    replace (Z.to_nat (Int.uint32 high - c))
      with (S (Z.to_nat (Int.uint32 high - (c + 1)))) by lia.
    reflexivity.
  - replace (Z.to_nat (Int.uint32 high - c)) with 0%nat by lia.
    rewrite Nat.min_0_r, Nat.sub_0_r. cbn [replicate app]. f_equal.
    apply push_worker_lanes_normal. lia.
Qed.

(** X10.  The HIGH lane is given to the first workers that start.  Of [n]
    workers of the PUSH and DELETE pools that run the head of
    [_push_worker_thread_callback] one after the other, starting with the
    counter at 0, the first [min n h] serve the HIGH lane and all later
    ones the NORMAL lane, where [h] is [push_worker_count_high_priority]
    read as a [uint32_t]: a setting of 0 leaves no HIGH worker, and a
    negative setting makes every worker up to the [2^31]-th a HIGH one. *)
Theorem push_worker_lanes_first_high (n : nat) (high : Z) :
  let h := Z.to_nat (Int.uint32 high) in
  push_worker_lanes n high 0
  = replicate (Nat.min n h) HIGH ++ replicate (n - h) NORMAL
  /\ (high = 0 -> push_worker_lanes n high 0 = replicate n NORMAL)
  /\ (- 2 ^ 31 <= high < 0 -> Z.of_nat n <= 2 ^ 31 ->
      push_worker_lanes n high 0 = replicate n HIGH).
Proof.
  intros h.
  assert (Hpos : 0 <= Int.uint32 high).
  { unfold Int.uint32. apply Z.mod_pos_bound. lia. }
  assert (Hsplit : push_worker_lanes n high 0
                   = replicate (Nat.min n h) HIGH ++ replicate (n - h) NORMAL).
  { rewrite push_worker_lanes_split by lia. subst h. now rewrite Z.sub_0_r. }
  split; [exact Hsplit |]. split.
  - intros ->. apply push_worker_lanes_normal. vm_compute. discriminate.
  - intros Hneg Hn. rewrite Hsplit.
    assert (Hh : (n <= h)%nat).
    { subst h. unfold Int.uint32.
      replace (high mod 2 ^ 32) with (high + 2 ^ 32).
      - lia.
      - apply (Z.mod_unique _ _ (-1)); lia. }
    rewrite Nat.min_l by exact Hh.
    replace (n - h)%nat with 0%nat by lia. cbn [replicate]. apply app_nil_r.
Qed.

Lemma push_worker_lanes_first_high_witness :
  push_worker_lanes 4 2 0 = [HIGH; HIGH; NORMAL; NORMAL]
  /\ push_worker_lanes 2 (-1) 0 = [HIGH; HIGH].
Proof.
  destruct (push_worker_lanes_first_high 4 2) as (H & _).
  destruct (push_worker_lanes_first_high 2 (-1)) as (_ & _ & Hneg).
  split; [exact H |]. apply Hneg; lia.
Defined.

(** ** Clone: the retry loops *)

Section CloneLoops.

Variables (b : nat) (env : backend_answers).

Lemma download_file_loop_step (fuel : nat) (i : nat) (file_name : string)
    (file_size timeout n : Z) (ds : AgentStatus) :
  0 <= n < 3 ->
  download_file_loop (S fuel) b env i file_name file_size timeout n ds
  = if decide (download_file env i n = (PALO_SUCCESS, file_size))
    then Some (PALO_SUCCESS,
               [DownloadFile b file_name timeout PALO_SUCCESS; Chmod b file_name])
    else
      match download_file_loop fuel b env i file_name file_size timeout (n + 1)
              (if decide (fst (download_file env i n) <> PALO_SUCCESS)
               then fst (download_file env i n)
               else PALO_FILE_DOWNLOAD_FAILED) with
      | None => None
      | Some (ds', tr) =>
          Some (ds', DownloadFile b file_name timeout (fst (download_file env i n))
                       :: CloneSleep (n + 1) :: tr)
      end.
Proof.
  intros Hn. cbn [download_file_loop].
  destruct (Z.ltb_spec n DOWNLOAD_FILE_MAX_RETRY) as [_ | Hge];
    [| unfold DOWNLOAD_FILE_MAX_RETRY in Hge; lia].
  rewrite (IntFacts.uint32_small (n + 1)) by lia.
  destruct (download_file env i n) as [st sz]. cbn [fst].
  destruct (decide (st <> PALO_SUCCESS)) as [Hst | Hst].
  - rewrite decide_False by (intros E; injection E as E _; contradiction).
    reflexivity.
  - apply dec_stable in Hst. subst st.
    destruct (decide (sz <> file_size)) as [Hsz | Hsz].
    + rewrite decide_False by (intros E; injection E as E; contradiction).
      reflexivity.
    + apply dec_stable in Hsz. subst sz. rewrite decide_True by reflexivity.
      reflexivity.
Qed.

Lemma download_file_loop_done (fuel : nat) (i : nat) (file_name : string)
    (file_size timeout : Z) (ds : AgentStatus) :
  download_file_loop (S fuel) b env i file_name file_size timeout 3 ds
  = Some (ds, []).
Proof. reflexivity. Qed.

End CloneLoops.

(** X11.  A file is downloaded at most three times.  An attempt is good
    when [download_file] returns [PALO_SUCCESS] and the local file has the
    length [get_length] reported.  The loop stops at the first good
    attempt, makes the file readable and has slept 1, 2, ... seconds after
    the attempts before it; when none of the three attempts is good it ends
    with a status other than [PALO_SUCCESS] after sleeping 1, 2 and 3
    seconds, the last pause coming after the last attempt, and does not
    touch the file's mode. *)
Theorem download_file_loop_three_attempts (extra : nat) (b : nat)
    (env : backend_answers) (i : nat) (file_name : string)
    (file_size timeout : Z) (ds0 : AgentStatus) :
  let good n := download_file env i n = (PALO_SUCCESS, file_size) in
  exists ds tr,
    download_file_loop (4 + extra) b env i file_name file_size timeout 0 ds0
    = Some (ds, tr)
    /\ ((exists k : nat, (k < 3)%nat /\ good (Z.of_nat k)
           /\ (forall j : nat, (j < k)%nat -> ~ good (Z.of_nat j))
           /\ ds = PALO_SUCCESS
           /\ length (List.filter is_download tr) = S k
           /\ sleeps tr = Z.of_nat <$> seq 1 k
           /\ chmod_names tr = [file_name])
        \/ ((forall j : nat, (j < 3)%nat -> ~ good (Z.of_nat j))
            /\ ds <> PALO_SUCCESS
            /\ length (List.filter is_download tr) = 3%nat
            /\ sleeps tr = [1; 2; 3]
            /\ chmod_names tr = [])).
Proof.
  intros good. subst good. cbv beta.
  change (4 + extra)%nat with (S (S (S (S extra)))).
  rewrite download_file_loop_step by lia.
  destruct (decide (download_file env i 0 = (PALO_SUCCESS, file_size))) as [G0 | B0].
  { eexists _, _. split; [reflexivity |]. left. exists 0%nat.
    repeat split; try reflexivity; try lia. exact G0. }
  rewrite download_file_loop_step by lia.
  destruct (decide (download_file env i (0 + 1) = (PALO_SUCCESS, file_size)))
    as [G1 | B1].
  { eexists _, _. split; [reflexivity |]. left. exists 1%nat.
    repeat split; try reflexivity; try lia; [exact G1 |].
    intros j Hj. replace j with 0%nat by lia. exact B0. }
  rewrite download_file_loop_step by lia.
  destruct (decide (download_file env i (0 + 1 + 1) = (PALO_SUCCESS, file_size)))
    as [G2 | B2].
  { eexists _, _. split; [reflexivity |]. left. exists 2%nat.
    repeat split; try reflexivity; try lia; [exact G2 |].
    intros j Hj. destruct j as [| [| j]]; [exact B0 | exact B1 | lia]. }
  change (0 + 1 + 1 + 1) with 3. rewrite download_file_loop_done.
  eexists _, _. split; [reflexivity |]. right.
  repeat split; try reflexivity.
  - intros j Hj. destruct j as [| [| [| j]]]; [exact B0 | exact B1 | exact B2 | lia].
  - destruct (download_file env i (0 + 1 + 1)) as [st sz]. cbn [fst].
    destruct (decide (st <> PALO_SUCCESS)) as [H | _]; [exact H | discriminate].
Qed.

(** X12.  The time allowed for a download is the larger of
    [download_low_speed_time] and the time the file takes at the lowest
    speed tolerated, [file_size / (1024 * download_low_speed_limit_kbps)]
    seconds rounded down; a speed limit of 0 gives no time at all, the
    division having no result. *)
Theorem estimate_time_out_is_max (cfg : clone_config) (file_size : Z) :
  (uint64 (download_low_speed_limit_kbps cfg) = 0 ->
   estimate_time_out cfg file_size = None)
  /\ (0 < download_low_speed_limit_kbps cfg < 2 ^ 64 ->
      0 <= download_low_speed_time cfg < 2 ^ 64 ->
      0 <= file_size ->
      estimate_time_out cfg file_size
      = Some (Z.max (download_low_speed_time cfg)
                (file_size / (1024 * download_low_speed_limit_kbps cfg)))).
Proof.
  unfold estimate_time_out, uint64. split.
  - intros ->. reflexivity.
  - intros Hk Ht Hs.
    rewrite (Z.mod_small (download_low_speed_limit_kbps cfg)) by lia.
    rewrite (Z.mod_small (download_low_speed_time cfg)) by lia.
    rewrite decide_False by lia.
    rewrite Z.div_div by lia.
    rewrite (Z.mul_comm (download_low_speed_limit_kbps cfg) 1024).
    f_equal.
    destruct (Z.ltb_spec (file_size / (1024 * download_low_speed_limit_kbps cfg))
                (download_low_speed_time cfg)); lia.
Qed.

Lemma estimate_time_out_is_max_witness :
  estimate_time_out
    {| download_low_speed_limit_kbps := 50; download_low_speed_time := 300 |}
    (2 ^ 30)
  = Some 20971
  /\ estimate_time_out
       {| download_low_speed_limit_kbps := 50; download_low_speed_time := 300 |}
       1000
     = Some 300
  /\ estimate_time_out
       {| download_low_speed_limit_kbps := 0; download_low_speed_time := 300 |}
       1000
     = None.
Proof.
  split; [| split].
  - apply (estimate_time_out_is_max
             {| download_low_speed_limit_kbps := 50; download_low_speed_time := 300 |}
             (2 ^ 30)); cbn; lia.
  - apply (estimate_time_out_is_max
             {| download_low_speed_limit_kbps := 50; download_low_speed_time := 300 |}
             1000); cbn; lia.
  - apply (estimate_time_out_is_max
             {| download_low_speed_limit_kbps := 0; download_low_speed_time := 300 |}
             1000). reflexivity.
Defined.

(** ** Clone: what a run of the copy leaves in its trace *)

Lemma quiet_nil : quiet [].
Proof. repeat split. Qed.

Lemma quiet_app (a c : list clone_event) : quiet a -> quiet c -> quiet (a ++ c).
Proof.
  unfold quiet, chmod_names, contacted, released.
  intros (A1 & A2 & A3) (C1 & C2 & C3). rewrite !omap_app.
  rewrite A1, A2, A3, C1, C2, C3. repeat split.
Qed.

Section CloneTraces.

Variables (cfg : clone_config) (b : nat) (env : backend_answers).

Lemma list_file_dir_loop_result (fuel : nat) :
  forall n ds0 s0 ds s tr,
    (n < 3 \/ ds0 <> PALO_SUCCESS) ->
    list_file_dir_loop fuel b env PALO_SUCCESS n ds0 s0 = Some (ds, s, tr) ->
    quiet tr
    /\ (ds = PALO_SUCCESS -> exists m, list_file_dir env m = (PALO_SUCCESS, s)).
Proof.
  induction fuel as [| fuel IH]; intros n ds0 s0 ds s tr Hn H; [discriminate |].
  cbn [list_file_dir_loop] in H.
  rewrite bool_decide_eq_true_2 in H by reflexivity. cbn [andb] in H.
  destruct (Z.ltb_spec n DOWNLOAD_FILE_MAX_RETRY) as [Hlt | Hge].
  - destruct (list_file_dir env n) as [st str] eqn:E.
    destruct (decide (st <> PALO_SUCCESS)) as [Hst | Hst].
    + destruct (list_file_dir_loop fuel b env PALO_SUCCESS
                  (Int.uint32 (n + 1)) st str) as [[[ds' s'] tr'] |] eqn:El;
        [| discriminate].
      injection H as <- <- <-.
      destruct (IH _ _ _ _ _ _ (or_intror Hst) El) as (Hq & Hs).
      split; [| exact Hs].
      change (quiet ([ListFileDir b st; CloneSleep (Int.uint32 (n + 1))] ++ tr')).
      apply quiet_app; [repeat split | exact Hq].
    + apply dec_stable in Hst. subst st. injection H as <- <- <-.
      split; [repeat split |]. intros _. now exists n.
  - injection H as <- <- <-. split; [apply quiet_nil |].
    intros Hs. unfold DOWNLOAD_FILE_MAX_RETRY in Hge.
    destruct Hn as [Hn | Hn]; [lia | contradiction].
Qed.

Lemma list_file_dir_loop_returns (extra : nat) :
  exists res,
    list_file_dir_loop (4 + extra) b env PALO_SUCCESS 0 PALO_SUCCESS "" = Some res.
Proof.
  change (4 + extra)%nat with (S (S (S (S extra)))).
  cbn [list_file_dir_loop]. rewrite bool_decide_eq_true_2 by reflexivity.
  cbn [andb]. change (0 <? DOWNLOAD_FILE_MAX_RETRY) with true. cbn iota.
  destruct (list_file_dir env 0) as [st0 s0].
  destruct (decide (st0 <> PALO_SUCCESS)); [| eexists; reflexivity].
  change (Int.uint32 (0 + 1) <? DOWNLOAD_FILE_MAX_RETRY) with true. cbn iota.
  destruct (list_file_dir env (Int.uint32 (0 + 1))) as [st1 s1].
  destruct (decide (st1 <> PALO_SUCCESS)); [| eexists; reflexivity].
  change (Int.uint32 (Int.uint32 (0 + 1) + 1) <? DOWNLOAD_FILE_MAX_RETRY) with true.
  cbn iota.
  destruct (list_file_dir env (Int.uint32 (Int.uint32 (0 + 1) + 1))) as [st2 s2].
  destruct (decide (st2 <> PALO_SUCCESS)); [| eexists; reflexivity].
  change (Int.uint32 (Int.uint32 (Int.uint32 (0 + 1) + 1) + 1)
          <? DOWNLOAD_FILE_MAX_RETRY) with false.
  cbn iota. eexists. reflexivity.
Qed.

Lemma get_length_loop_result (fuel : nat) (i : nat) (file_name : string) :
  forall n ds0 sz0 ds sz tr,
    get_length_loop fuel b env i file_name n ds0 sz0 = Some (ds, sz, tr) ->
    quiet tr.
Proof.
  induction fuel as [| fuel IH]; intros n ds0 sz0 ds sz tr H; [discriminate |].
  cbn [get_length_loop] in H.
  destruct (n <? DOWNLOAD_FILE_MAX_RETRY).
  - destruct (get_length env i n) as [st size].
    destruct (decide (st <> PALO_SUCCESS)) as [Hst | Hst].
    + destruct (get_length_loop fuel b env i file_name (Int.uint32 (n + 1)) st size)
        as [[[ds' sz'] tr'] |] eqn:El; [| discriminate].
      injection H as <- <- <-.
      change (quiet ([GetLength b file_name st; CloneSleep (Int.uint32 (n + 1))]
                     ++ tr')).
      apply quiet_app; [repeat split | eapply IH; exact El].
    + injection H as <- <- <-. repeat split.
  - injection H as <- <- <-. apply quiet_nil.
Qed.

Lemma get_length_loop_returns (extra : nat) (i : nat) (file_name : string)
    (ds0 : AgentStatus) :
  exists res,
    get_length_loop (4 + extra) b env i file_name 0 ds0 0 = Some res.
Proof.
  change (4 + extra)%nat with (S (S (S (S extra)))).
  cbn [get_length_loop].
  change (0 <? DOWNLOAD_FILE_MAX_RETRY) with true. cbn iota.
  destruct (get_length env i 0) as [st0 s0].
  destruct (decide (st0 <> PALO_SUCCESS)); [| eexists; reflexivity].
  change (Int.uint32 (0 + 1) <? DOWNLOAD_FILE_MAX_RETRY) with true. cbn iota.
  destruct (get_length env i (Int.uint32 (0 + 1))) as [st1 s1].
  destruct (decide (st1 <> PALO_SUCCESS)); [| eexists; reflexivity].
  change (Int.uint32 (Int.uint32 (0 + 1) + 1) <? DOWNLOAD_FILE_MAX_RETRY) with true.
  cbn iota.
  destruct (get_length env i (Int.uint32 (Int.uint32 (0 + 1) + 1))) as [st2 s2].
  destruct (decide (st2 <> PALO_SUCCESS)); [| eexists; reflexivity].
  change (Int.uint32 (Int.uint32 (Int.uint32 (0 + 1) + 1) + 1)
          <? DOWNLOAD_FILE_MAX_RETRY) with false.
  cbn iota. eexists. reflexivity.
Qed.

Lemma download_file_loop_result (fuel : nat) (i : nat) (file_name : string)
    (file_size timeout : Z) :
  forall n ds0 ds tr,
    (n < 3 \/ ds0 <> PALO_SUCCESS) ->
    download_file_loop fuel b env i file_name file_size timeout n ds0
    = Some (ds, tr) ->
    contacted tr = [] /\ released tr = []
    /\ chmod_names tr = if decide (ds = PALO_SUCCESS) then [file_name] else [].
Proof.
  induction fuel as [| fuel IH]; intros n ds0 ds tr Hn H; [discriminate |].
  cbn [download_file_loop] in H.
  destruct (Z.ltb_spec n DOWNLOAD_FILE_MAX_RETRY) as [Hlt | Hge].
  - destruct (download_file env i n) as [st sz].
    assert (Hagain : forall ds1, ds1 <> PALO_SUCCESS ->
              match download_file_loop fuel b env i file_name file_size timeout
                      (Int.uint32 (n + 1)) ds1 with
              | Some (ds', tr0) =>
                  Some (ds', DownloadFile b file_name timeout st
                               :: CloneSleep (Int.uint32 (n + 1)) :: tr0)
              | None => None
              end = Some (ds, tr) ->
              contacted tr = [] /\ released tr = []
              /\ chmod_names tr
                 = if decide (ds = PALO_SUCCESS) then [file_name] else []).
    { intros ds1 Hds1 H1.
      destruct (download_file_loop fuel b env i file_name file_size timeout
                  (Int.uint32 (n + 1)) ds1) as [[ds' tr'] |] eqn:El; [| discriminate].
      injection H1 as <- <-.
      destruct (IH _ _ _ _ (or_intror Hds1) El) as (H1 & H2 & H3).
      repeat split; assumption. }
    destruct (decide (st <> PALO_SUCCESS)) as [Hst | Hst];
      [exact (Hagain _ Hst H) |].
    destruct (decide (sz <> file_size)) as [Hsz | Hsz];
      [apply (Hagain PALO_FILE_DOWNLOAD_FAILED); [discriminate | exact H] |].
    apply dec_stable in Hst. subst st. injection H as <- <-.
    repeat split.
  - injection H as <- <-. unfold DOWNLOAD_FILE_MAX_RETRY in Hge.
    destruct Hn as [Hn | Hn]; [lia |].
    rewrite decide_False by exact Hn. repeat split.
Qed.

Lemma download_file_loop_returns (extra : nat) (i : nat) (file_name : string)
    (file_size timeout : Z) (ds0 : AgentStatus) :
  exists res,
    download_file_loop (4 + extra) b env i file_name file_size timeout 0 ds0
    = Some res.
Proof.
  change (4 + extra)%nat with (S (S (S (S extra)))).
  rewrite download_file_loop_step by lia.
  destruct (decide (download_file env i 0 = (PALO_SUCCESS, file_size)));
    [eexists; reflexivity |].
  rewrite download_file_loop_step by lia.
  destruct (decide (download_file env i (0 + 1) = (PALO_SUCCESS, file_size)));
    [eexists; reflexivity |].
  rewrite download_file_loop_step by lia.
  destruct (decide (download_file env i (0 + 1 + 1) = (PALO_SUCCESS, file_size)));
    [eexists; reflexivity |].
  change (0 + 1 + 1 + 1) with 3. rewrite download_file_loop_done.
  eexists. reflexivity.
Qed.

(** The file loop makes readable a prefix of its list, in the order of the
    list, and the whole list when it leaves [status] as it was. *)
Lemma clone_files_result (fuel : nat) :
  forall i l status ds o tr,
    clone_files fuel cfg b env i l status ds = Some (o, tr) ->
    contacted tr = [] /\ released tr = []
    /\ chmod_names tr `prefix_of` l
    /\ (o = Returns status \/ o = Returns PALO_ERROR \/ o = Fails)
    /\ (o = Returns PALO_SUCCESS -> status = PALO_SUCCESS /\ chmod_names tr = l).
Proof.
  intros i l. revert i. induction l as [| f l IH]; intros i status ds o tr H.
  - cbn in H. injection H as <- <-. repeat split; auto; congruence.
  - cbn [clone_files] in H.
    destruct (get_length_loop fuel b env i f 0 ds 0) as [[[ds1 size] tr1] |] eqn:E1;
      [| discriminate].
    destruct (get_length_loop_result _ _ _ _ _ _ _ _ _ E1) as (Q1 & Q2 & Q3).
    destruct (decide (ds1 <> PALO_SUCCESS)) as [Hds1 | Hds1].
    { injection H as <- <-. rewrite Q1, Q2, Q3.
      repeat split; auto; try congruence; apply prefix_nil. }
    destruct (estimate_time_out cfg size) as [estimate |].
    2:{ injection H as <- <-. rewrite Q1, Q2, Q3.
        repeat split; auto; try congruence; apply prefix_nil. }
    destruct (download_file_loop fuel b env i f size estimate 0 ds1)
      as [[ds2 tr2] |] eqn:E2; [| discriminate].
    assert (H03 : 0 < 3 \/ ds1 <> PALO_SUCCESS) by (left; lia).
    destruct (download_file_loop_result _ _ _ _ _ _ _ _ _ H03 E2)
      as (D1 & D2 & D3).
    destruct (decide (ds2 <> PALO_SUCCESS)) as [Hds2 | Hds2].
    { injection H as <- <-.
      unfold chmod_names, contacted, released in *. rewrite !omap_app.
      rewrite Q1, Q2, Q3, D1, D2, D3, decide_False by exact Hds2.
      repeat split; auto; try congruence; apply prefix_nil. }
    apply dec_stable in Hds2.
    rewrite decide_True in D3 by exact Hds2.
    destruct (clone_files fuel cfg b env (S i) l status ds2) as [[o' tr3] |] eqn:E3;
      [| discriminate].
    injection H as <- <-.
    destruct (IH _ _ _ _ _ E3) as (R1 & R2 & R3 & R4 & R5).
    unfold chmod_names, contacted, released in *. rewrite !omap_app.
    rewrite Q1, Q2, Q3, D1, D2, D3, R1, R2. cbn [app].
    repeat split; auto.
    + now apply prefix_cons.
    + now apply R5.
    + f_equal. now apply R5.
Qed.

Lemma clone_files_returns (extra : nat) :
  forall l i status ds,
    exists res, clone_files (4 + extra) cfg b env i l status ds = Some res.
Proof.
  induction l as [| f l IH]; intros i status ds; [eexists; reflexivity |].
  cbn [clone_files].
  destruct (get_length_loop_returns extra i f ds) as ([[ds1 size] tr1] & ->).
  destruct (decide (ds1 <> PALO_SUCCESS)); [eexists; reflexivity |].
  destruct (estimate_time_out cfg size) as [estimate |]; [| eexists; reflexivity].
  destruct (download_file_loop_returns extra i f size estimate ds1)
    as ([ds2 tr2] & ->).
  destruct (decide (ds2 <> PALO_SUCCESS)); [eexists; reflexivity |].
  destruct (IH (S i) status ds2) as ([o tr3] & ->). eexists. reflexivity.
Qed.

(** The file loop ends without a result only at the division by a speed
    limit of 0. *)
Lemma clone_files_fails (fuel : nat) :
  forall l i status ds tr,
    clone_files fuel cfg b env i l status ds = Some (Fails, tr) ->
    uint64 (download_low_speed_limit_kbps cfg) = 0.
Proof.
  induction l as [| f l IH]; intros i status ds tr H.
  - cbn in H. discriminate H.
  - cbn [clone_files] in H.
    destruct (get_length_loop fuel b env i f 0 ds 0) as [[[ds1 size] tr1] |];
      [| discriminate H].
    destruct (decide (ds1 <> PALO_SUCCESS)); [discriminate H |].
    destruct (estimate_time_out cfg size) as [estimate |] eqn:Ee.
    2:{ unfold estimate_time_out in Ee.
        destruct (decide (uint64 (download_low_speed_limit_kbps cfg) = 0));
          [assumption | discriminate Ee]. }
    destruct (download_file_loop fuel b env i f size estimate 0 ds1)
      as [[ds2 tr2] |]; [| discriminate H].
    destruct (decide (ds2 <> PALO_SUCCESS)); [discriminate H |].
    destruct (clone_files fuel cfg b env (S i) l status ds2) as [[o' tr3] |] eqn:E3;
      [| discriminate H].
    injection H as -> _. exact (IH _ _ _ _ E3).
Qed.

End CloneTraces.

(** ** Clone: one source backend, and all of them *)



Section CloneBackend.

Variables (cfg : clone_config) (b : nat) (env : backend_answers).

Lemma clone_from_backend_result (fuel : nat) (o : outcome AgentStatus)
    (tr : list clone_event) :
  clone_from_backend fuel cfg b env = Some (o, tr) ->
  contacted tr = [b]
  /\ (forall r, o = Returns r ->
        (r = PALO_SUCCESS \/ r = PALO_ERROR)
        /\ released tr = if snapshot_usable env then [b] else [])
  /\ (chmod_names tr <> [] \/ o = Returns PALO_SUCCESS ->
      exists m str,
        list_file_dir env m = (PALO_SUCCESS, str)
        /\ chmod_names tr `prefix_of` add_all (split_lines str) []
        /\ (o = Returns PALO_SUCCESS ->
            chmod_names tr = add_all (split_lines str) [])).
Proof.
  unfold clone_from_backend, snapshot_usable.
  destruct (make_snapshot_ok env); cbn [andb].
  2:{ intros H. injection H as <- <-. split; [reflexivity |]. split.
      - intros r E. injection E as <-. split; [now right | reflexivity].
      - intros [Hc | Ho]; [now contradiction Hc | discriminate Ho]. }
  destruct (snapshot_path env) as [path |].
  2:{ intros H. injection H as <- <-. split; [reflexivity |]. split.
      - intros r E. injection E as <-. split; [now right | reflexivity].
      - intros [Hc | Ho]; [now contradiction Hc | discriminate Ho]. }
  rewrite bool_decide_eq_true_2 by (now eexists).
  destruct (decide (path = ""%string)) as [_ | _].
  { intros H. injection H as <- <-. split; [reflexivity |]. split.
    - intros r E. discriminate E.
    - intros [Hc | Ho]; [now contradiction Hc | discriminate Ho]. }
  destruct (list_file_dir_loop fuel b env PALO_SUCCESS 0 PALO_SUCCESS "")
    as [[[ds str] tr1] |] eqn:E1; [| discriminate].
  assert (H03 : 0 < 3 \/ PALO_SUCCESS <> PALO_SUCCESS) by (left; lia).
  destruct (list_file_dir_loop_result b env _ _ _ _ _ _ _ H03 E1)
    as ((Q1 & Q2 & Q3) & Hlist).
  destruct (decide (ds <> PALO_SUCCESS)) as [Hds | Hds].
  { intros H. cbv beta iota delta [clone_files] in H. injection H as <- <-.
    unfold chmod_names, contacted, released in *.
    cbn [omap list_omap app]. rewrite !omap_app, Q1, Q2, Q3.
    cbn [omap list_omap app]. split; [reflexivity |]. split.
    - intros r E. injection E as <-. split; [now right | reflexivity].
    - intros [Hc | Ho]; [now contradiction Hc | discriminate Ho]. }
  apply dec_stable in Hds. destruct (Hlist Hds) as (m & Hm).
  destruct (clone_file_name_list fuel str) as [l |] eqn:El; [| discriminate].
  apply clone_file_name_list_lines in El. subst l.
  destruct (clone_files fuel cfg b env 0 (add_all (split_lines str) [])
              PALO_SUCCESS ds) as [[o' tr2] |] eqn:E2; [| discriminate].
  destruct (clone_files_result cfg b env _ _ _ _ _ _ _ E2)
    as (R1 & R2 & R3 & R4 & R5).
  assert (Hlisting : forall tr', chmod_names tr' = chmod_names tr2 ->
            forall o'', (o'' = Returns PALO_SUCCESS -> o' = Returns PALO_SUCCESS) ->
            exists m str0,
              list_file_dir env m = (PALO_SUCCESS, str0)
              /\ chmod_names tr' `prefix_of` add_all (split_lines str0) []
              /\ (o'' = Returns PALO_SUCCESS ->
                  chmod_names tr' = add_all (split_lines str0) [])).
  { intros tr' Htr' o'' Ho''. exists m, str. rewrite Htr'.
    split; [exact Hm |]. split; [exact R3 |].
    intros Ho. now apply R5, Ho''. }
  destruct o' as [r |]; intros H; injection H as <- <-.
  - assert (Hc : chmod_names ([MakeSnapshot b; PrepareLocalDir b] ++ tr1 ++ tr2
                              ++ [ReleaseSnapshot b path]) = chmod_names tr2).
    { unfold chmod_names in *. rewrite !omap_app, Q1. cbn. apply app_nil_r. }
    split; [| split].
    + unfold contacted in *. cbn [omap list_omap app].
      rewrite !omap_app, Q2, R1. reflexivity.
    + intros r' E. injection E as <-. split.
      * destruct R4 as [R4 | [R4 | R4]];
          [injection R4 as ->; now left | injection R4 as ->; now right
          | discriminate R4].
      * unfold released in *. cbn [omap list_omap app].
        rewrite !omap_app, Q3, R2. reflexivity.
    + intros _. apply (Hlisting _ Hc). auto.
  - assert (Hc : chmod_names ([MakeSnapshot b; PrepareLocalDir b] ++ tr1 ++ tr2)
                 = chmod_names tr2).
    { unfold chmod_names in *. rewrite !omap_app, Q1. reflexivity. }
    split; [| split].
    + unfold contacted in *. cbn [omap list_omap app].
      rewrite !omap_app, Q2, R1. reflexivity.
    + intros r' E. discriminate E.
    + intros _. apply (Hlisting _ Hc). intros E. discriminate E.
Qed.

(** The body ends without a result only after a snapshot was made, at the
    empty snapshot path or at a speed limit of 0, and the snapshot is then
    not released. *)
Lemma clone_from_backend_fails (fuel : nat) (tr : list clone_event) :
  clone_from_backend fuel cfg b env = Some (Fails, tr) ->
  released tr = [] /\ snapshot_usable env = true
  /\ (snapshot_path env = Some ""%string
      \/ uint64 (download_low_speed_limit_kbps cfg) = 0).
Proof.
  unfold clone_from_backend, snapshot_usable.
  destruct (make_snapshot_ok env); cbn [andb]; [| intros H; discriminate H].
  destruct (snapshot_path env) as [path |]; [| intros H; discriminate H].
  rewrite bool_decide_eq_true_2 by (now eexists).
  destruct (decide (path = ""%string)) as [-> | _].
  { intros H. injection H as <-. split; [reflexivity |]. split; [reflexivity |].
    now left. }
  destruct (list_file_dir_loop fuel b env PALO_SUCCESS 0 PALO_SUCCESS "")
    as [[[ds str] tr1] |] eqn:E1; [| intros H; discriminate H].
  assert (H03 : 0 < 3 \/ PALO_SUCCESS <> PALO_SUCCESS) by (left; lia).
  destruct (list_file_dir_loop_result b env _ _ _ _ _ _ _ H03 E1)
    as ((_ & _ & Q3) & _).
  destruct (decide (ds <> PALO_SUCCESS)) as [Hds | Hds].
  { intros H. cbv beta iota delta [clone_files] in H. discriminate H. }
  destruct (clone_file_name_list fuel str) as [l |]; [| intros H; discriminate H].
  destruct (clone_files fuel cfg b env 0 l PALO_SUCCESS ds) as [[o' tr2] |] eqn:E2;
    [| intros H; discriminate H].
  destruct (clone_files_result cfg b env _ _ _ _ _ _ _ E2) as (_ & R2 & _).
  destruct o' as [r |]; intros H; [discriminate H |]. injection H as <-.
  split; [| split; [reflexivity |]].
  - unfold released in *. cbn [omap list_omap app]. rewrite !omap_app, Q3, R2.
    reflexivity.
  - right. exact (clone_files_fails cfg b env fuel _ _ _ _ _ E2).
Qed.

Lemma clone_from_backend_returns (extra : nat) :
  (forall n, (String.length (snd (list_file_dir env n)) < 4 + extra)%nat) ->
  exists res, clone_from_backend (4 + extra) cfg b env = Some res.
Proof.
  intros Hlen. unfold clone_from_backend.
  destruct (make_snapshot_ok env); [| eexists; reflexivity].
  destruct (snapshot_path env) as [path |]; [| eexists; reflexivity].
  destruct (decide (path = ""%string)); [eexists; reflexivity |].
  destruct (list_file_dir_loop_returns b env extra) as ([[ds str] tr1] & E1).
  rewrite E1.
  destruct (decide (ds <> PALO_SUCCESS)) as [Hds | Hds].
  - cbn [clone_files]. eexists. reflexivity.
  - apply dec_stable in Hds.
    assert (H03 : 0 < 3 \/ PALO_SUCCESS <> PALO_SUCCESS) by (left; lia).
    destruct (list_file_dir_loop_result b env _ _ _ _ _ _ _ H03 E1)
      as (_ & Hlist).
    destruct (Hlist Hds) as (m & Hm).
    destruct (clone_file_name_list_returns str (4 + extra)) as (l & -> & _).
    { specialize (Hlen m). rewrite Hm in Hlen. exact Hlen. }
    destruct (clone_files_returns cfg b env extra l 0%nat PALO_SUCCESS ds)
      as ([o tr2] & ->).
    destruct o; eexists; reflexivity.
Qed.

End CloneBackend.



Section CloneBackends.

Variables (fuel : nat) (cfg : clone_config).

Lemma usable_at_cons (env : backend_answers) (rest : list backend_answers)
    (b0 m : nat) :
  List.filter (fun b => usable_at (env :: rest) (b - b0)) (seq (S b0) m)
  = List.filter (fun b => usable_at rest (b - S b0)) (seq (S b0) m).
Proof.
  apply List.filter_ext_in. intros a Ha. apply in_seq in Ha.
  replace (a - b0)%nat with (S (a - S b0)) by lia. reflexivity.
Qed.

Lemma clone_backends_result :
  forall bs b0 st o tr,
    clone_backends fuel cfg b0 bs st = Some (o, tr) ->
    exists m,
      contacted tr = seq b0 m /\ (m <= length bs)%nat
      /\ forall r, o = Returns r ->
           (r = PALO_SUCCESS \/ r = PALO_ERROR \/ (r = st /\ bs = []))
           /\ released tr
              = List.filter (fun b => usable_at bs (b - b0)) (seq b0 m)
           /\ (r <> PALO_SUCCESS -> m = length bs)
           /\ (r = PALO_SUCCESS ->
               (bs = [] /\ st = PALO_SUCCESS)
               \/ exists k env trk,
                    m = S k /\ bs !! k = Some env
                    /\ clone_from_backend fuel cfg (b0 + k) env
                       = Some (Returns PALO_SUCCESS, trk)
                    /\ trk `suffix_of` tr
                    /\ forall j envj, (j < k)%nat -> bs !! j = Some envj ->
                         exists trj, clone_from_backend fuel cfg (b0 + j) envj
                                     = Some (Returns PALO_ERROR, trj)).
Proof.
  induction bs as [| env rest IH]; intros b0 st o tr H.
  - cbn in H. injection H as <- <-. exists 0%nat.
    split; [reflexivity |]. split; [cbn; lia |].
    intros r E. injection E as <-.
    split; [auto |]. split; [reflexivity |]. split; [reflexivity |].
    intros ->. now left.
  - cbn [clone_backends] in H.
    destruct (clone_from_backend fuel cfg b0 env) as [[o1 tr1] |] eqn:E1;
      [| discriminate].
    destruct (clone_from_backend_result cfg b0 env fuel o1 tr1 E1)
      as (C1 & Hr1 & _).
    destruct o1 as [r1 |].
    2:{ injection H as <- <-. exists 1%nat.
        split; [exact C1 |]. split; [cbn; lia |]. intros r E. discriminate E. }
    destruct (Hr1 r1 eq_refl) as (Hr1v & Hrel1).
    assert (Hhead : usable_at (env :: rest) (b0 - b0) = snapshot_usable env)
      by (now rewrite Nat.sub_diag).
    destruct (decide (r1 = PALO_SUCCESS)) as [-> | Hne].
    + injection H as <- <-. exists 1%nat.
      split; [exact C1 |]. split; [cbn; lia |].
      intros r E. injection E as <-.
      split; [now left |]. split.
      { rewrite Hrel1. cbn [seq List.filter]. rewrite Hhead.
        now destruct (snapshot_usable env). }
      split; [intros Hc; now contradiction Hc |].
      intros _. right. exists 0%nat, env, tr1.
      rewrite Nat.add_0_r. repeat split; try assumption; try reflexivity.
      intros j envj Hj. lia.
    + destruct (clone_backends fuel cfg (S b0) rest r1) as [[o' tr'] |] eqn:E2;
        [| discriminate].
      injection H as <- <-.
      destruct (IH _ _ _ _ E2) as (m & Cc & Hm & Hrest).
      exists (S m). split.
      { unfold contacted in *. rewrite omap_app, C1, Cc. reflexivity. }
      split; [cbn; lia |].
      intros r E. destruct (Hrest r E) as (Hv & Hrel & Hall & Hsucc).
      assert (Hr1e : r1 = PALO_ERROR) by (destruct Hr1v; [contradiction | assumption]).
      split; [| split; [| split]].
      * destruct Hv as [Hv | [Hv | [Hv _]]]; [now left | right; now left |].
        right. left. congruence.
      * unfold released in *. rewrite omap_app, Hrel1, Hrel.
        cbn [seq List.filter]. rewrite Hhead, usable_at_cons.
        now destruct (snapshot_usable env).
      * intros Hr. cbn [length]. f_equal. now apply Hall.
      * intros Hr. right.
        destruct (Hsucc Hr) as [[_ Hst] | (k & envk & trk & -> & Hk & Ek & Hsuf & Hbefore)];
          [congruence |].
        exists (S k), envk, trk.
        replace (b0 + S k)%nat with (S b0 + k)%nat by lia.
        split; [reflexivity |]. split; [exact Hk |]. split; [exact Ek |].
        split; [now apply suffix_app_r |].
        intros j envj Hj Hlj. destruct j as [| j].
        -- cbn in Hlj. injection Hlj as <-. rewrite Nat.add_0_r, <- Hr1e.
           exists tr1. exact E1.
        -- replace (b0 + S j)%nat with (S b0 + j)%nat by lia.
           apply (Hbefore j envj); [lia | exact Hlj].
Qed.

(** The loop ends without a result at a backend whose snapshot was made:
    at its empty snapshot path or at a speed limit of 0.  The snapshots of
    the backends before it are released, its own is not. *)
Lemma clone_backends_fails :
  forall bs b0 st tr,
    clone_backends fuel cfg b0 bs st = Some (Fails, tr) ->
    exists k env,
      contacted tr = seq b0 (S k) /\ bs !! k = Some env
      /\ snapshot_usable env = true
      /\ (snapshot_path env = Some ""%string
          \/ uint64 (download_low_speed_limit_kbps cfg) = 0)
      /\ released tr = List.filter (fun b => usable_at bs (b - b0)) (seq b0 k).
Proof.
  induction bs as [| env rest IH]; intros b0 st tr H.
  - cbn in H. discriminate H.
  - cbn [clone_backends] in H.
    destruct (clone_from_backend fuel cfg b0 env) as [[o1 tr1] |] eqn:E1;
      [| discriminate H].
    destruct (clone_from_backend_result cfg b0 env fuel o1 tr1 E1)
      as (C1 & Hr1 & _).
    destruct o1 as [r1 |].
    2:{ injection H as <-.
        destruct (clone_from_backend_fails cfg b0 env fuel tr1 E1)
          as (F1 & F2 & F3).
        exists 0%nat, env. split; [exact C1 |]. split; [reflexivity |].
        split; [exact F2 |]. split; [exact F3 | exact F1]. }
    destruct (Hr1 r1 eq_refl) as (_ & Hrel1).
    destruct (decide (r1 = PALO_SUCCESS)); [discriminate H |].
    destruct (clone_backends fuel cfg (S b0) rest r1) as [[o' tr'] |] eqn:E2;
      [| discriminate H].
    injection H as -> <-.
    destruct (IH _ _ _ E2) as (k & envk & Cc & Hk & Hu & Hwhy & Hrel).
    exists (S k), envk. split.
    { unfold contacted in *. rewrite omap_app, C1, Cc. reflexivity. }
    split; [exact Hk |]. split; [exact Hu |]. split; [exact Hwhy |].
    assert (Hhead : usable_at (env :: rest) (b0 - b0) = snapshot_usable env)
      by (now rewrite Nat.sub_diag).
    unfold released in *. rewrite omap_app, Hrel1, Hrel.
    cbn [seq List.filter]. rewrite Hhead, usable_at_cons.
    now destruct (snapshot_usable env).
Qed.

End CloneBackends.

Lemma clone_backends_returns (extra : nat) (cfg : clone_config) :
  forall bs b0 st,
    (forall env n, env ∈ bs ->
       (String.length (snd (list_file_dir env n)) < 4 + extra)%nat) ->
    exists res, clone_backends (4 + extra) cfg b0 bs st = Some res.
Proof.
  induction bs as [| env rest IH]; intros b0 st Hlen; [eexists; reflexivity |].
  cbn [clone_backends].
  destruct (clone_from_backend_returns cfg b0 env extra) as ([o1 tr1] & ->).
  { intros k. apply Hlen. now left. }
  destruct o1 as [r1 |]; [| eexists; reflexivity].
  destruct (decide (r1 = PALO_SUCCESS)); [eexists; reflexivity |].
  destruct (IH (S b0) r1) as ([o tr] & ->).
  { intros env' k Hin. apply Hlen. now right. }
  eexists. reflexivity.
Qed.

(** [_clone_copy] returns when no backend whose snapshot is made hands
    out an empty path and the speed limit is not 0. *)
Lemma clone_copy_no_fail (fuel : nat) (cfg : clone_config)
    (src_backends : list backend_answers) (o : outcome AgentStatus)
    (tr : list clone_event) :
  (forall env, env ∈ src_backends -> make_snapshot_ok env = true ->
     snapshot_path env <> Some ""%string) ->
  uint64 (download_low_speed_limit_kbps cfg) <> 0 ->
  _clone_copy fuel cfg src_backends = Some (o, tr) ->
  exists r, o = Returns r.
Proof.
  intros Hpath Hspeed E. destruct o as [r |]; [now exists r |].
  destruct (clone_backends_fails _ _ _ _ _ _ E)
    as (k & env & _ & Hk & Hu & [Hempty | Hzero] & _); [| contradiction].
  exfalso. apply (Hpath env); [| | exact Hempty].
  - eapply list_elem_of_lookup_2. exact Hk.
  - unfold snapshot_usable in Hu. apply andb_true_iff in Hu. apply Hu.
Qed.

(** X14.  [_clone_copy] tries the source backends in the order of the
    request and stops at the first whose copy succeeds.  With no source
    backend it returns [PALO_SUCCESS] without a single call.  The backends
    contacted are the first [m] of the list.  The call returns whenever no
    backend whose snapshot is made hands out an empty snapshot path and
    [download_low_speed_limit_kbps] is not 0 as a [uint64_t]; it ends
    without returning only at a contacted backend whose snapshot was made,
    at the [at] on its empty snapshot path or at the division by the zero
    speed limit, and the snapshot of that backend is then not released,
    those of the backends before it are.  When it returns, the status is
    [PALO_SUCCESS] or [PALO_ERROR]; all backends are contacted when the
    status is [PALO_ERROR]; a snapshot is released once on every contacted
    backend whose [make_snapshot] gave a path, and only there, also when
    the download from it failed; and on success the last contacted backend
    is the first of the list whose copy succeeds, every one before it
    having ended in [PALO_ERROR]. *)
Theorem clone_copy_tries_backends_in_order (extra : nat) (cfg : clone_config)
    (src_backends : list backend_answers) :
  (forall env n, env ∈ src_backends ->
     (String.length (snd (list_file_dir env n)) < 4 + extra)%nat) ->
  exists o tr m,
    _clone_copy (4 + extra) cfg src_backends = Some (o, tr)
    /\ (src_backends = [] -> o = Returns PALO_SUCCESS /\ tr = [])
    /\ contacted tr = seq 0 m /\ (m <= length src_backends)%nat
    /\ ((forall env, env ∈ src_backends -> make_snapshot_ok env = true ->
           snapshot_path env <> Some ""%string) ->
        uint64 (download_low_speed_limit_kbps cfg) <> 0 ->
        exists r, o = Returns r)
    /\ (o = Fails ->
        exists k env,
          m = S k /\ src_backends !! k = Some env
          /\ snapshot_usable env = true
          /\ (snapshot_path env = Some ""%string
              \/ uint64 (download_low_speed_limit_kbps cfg) = 0)
          /\ released tr = List.filter (usable_at src_backends) (seq 0 k))
    /\ forall r, o = Returns r ->
         (r = PALO_SUCCESS \/ r = PALO_ERROR)
         /\ released tr = List.filter (usable_at src_backends) (seq 0 m)
         /\ (r = PALO_ERROR -> m = length src_backends)
         /\ (r = PALO_SUCCESS -> src_backends <> [] ->
             exists k env trk,
               m = S k /\ src_backends !! k = Some env
               /\ clone_from_backend (4 + extra) cfg k env
                  = Some (Returns PALO_SUCCESS, trk)
               /\ trk `suffix_of` tr
               /\ forall j envj, (j < k)%nat -> src_backends !! j = Some envj ->
                    exists trj, clone_from_backend (4 + extra) cfg j envj
                                = Some (Returns PALO_ERROR, trj)).
Proof.
  intros Hlen.
  destruct (clone_backends_returns extra cfg src_backends 0 PALO_SUCCESS Hlen)
    as ([o tr] & E).
  destruct (clone_backends_result _ _ _ _ _ _ _ E) as (m & Hc & Hm & Hr).
  exists o, tr, m. split; [exact E |]. split.
  { intros ->. cbn in E. now injection E as <- <-. }
  split; [exact Hc |]. split; [exact Hm |]. split.
  { intros Hpath Hspeed.
    exact (clone_copy_no_fail _ _ _ _ _ Hpath Hspeed E). }
  split.
  { intros ->.
    destruct (clone_backends_fails _ _ _ _ _ _ E)
      as (k & env & Hck & Hk & Hu & Hwhy & Hrel).
    exists k, env. split.
    { rewrite Hc in Hck. apply (f_equal (@length nat)) in Hck.
      now rewrite !length_seq in Hck. }
    split; [exact Hk |]. split; [exact Hu |]. split; [exact Hwhy |].
    rewrite Hrel. apply List.filter_ext. intros a. now rewrite Nat.sub_0_r. }
  intros r Ho. destruct (Hr r Ho) as (Hv & Hrel & Hall & Hsucc).
  split; [| split; [| split]].
  - destruct Hv as [Hv | [Hv | [Hv _]]]; auto.
  - rewrite Hrel. apply List.filter_ext. intros a. now rewrite Nat.sub_0_r.
  - intros ->. apply Hall. discriminate.
  - intros Hs Hne. destruct (Hsucc Hs) as [[Hnil _] | Hk]; [contradiction |].
    exact Hk.
Qed.

Lemma clone_copy_tries_backends_in_order_witness :
  exists tr,
    _clone_copy 40 CloneSample.cfg
      [CloneSample.refusing_backend; CloneSample.short_backend;
       CloneSample.good_backend; CloneSample.good_backend]
    = Some (Returns PALO_SUCCESS, tr)
    /\ contacted tr = [0; 1; 2]%nat
    /\ released tr = [1; 2]%nat.
Proof.
  destruct (clone_copy_tries_backends_in_order 36 CloneSample.cfg
              [CloneSample.refusing_backend; CloneSample.short_backend;
               CloneSample.good_backend; CloneSample.good_backend])
    as (o & tr & m & E & _ & Hc & _ & Hreturns & _ & Hr).
  - intros env n Hin.
    repeat (apply elem_of_cons in Hin; destruct Hin as [-> | Hin];
            [vm_compute; lia |]).
    apply elem_of_nil in Hin. contradiction.
  - destruct Hreturns as (r & ->).
    { intros env Hin _.
      repeat (apply elem_of_cons in Hin; destruct Hin as [-> | Hin];
              [discriminate |]).
      apply elem_of_nil in Hin. contradiction. }
    { vm_compute. discriminate. }
    pose proof E as E'. vm_compute in E'. injection E' as Ho Htr.
    exists tr. rewrite <- Ho in E. split; [exact E |].
    destruct (Hr PALO_SUCCESS (f_equal Returns (eq_sym Ho))) as (_ & Hrel & _).
    assert (Hm : m = 3%nat).
    { apply (f_equal (@length nat)) in Hc. rewrite length_seq in Hc.
      rewrite <- Hc, <- Htr. vm_compute. reflexivity. }
    subst m. split; [exact Hc |]. rewrite Hrel. vm_compute. reflexivity.
Defined.

(** ** The alter worker *)

(** X15.  What [_alter_table] does for a ROLLUP or SCHEMA_CHANGE request
    depends on the status of the last alter.  The engine is asked to alter
    only when that status is DONE, WAITING or FAILED, in the last case
    after a [drop_table] that must succeed; with any other status nothing
    is altered and the request still counts as done.  A request that is
    done advances the report version, before the tablet info is looked up:
    when the lookup fails the report is RUNTIME_ERROR without tablet infos
    although the version has moved.  The report is never ANALYSIS_ERROR. *)
Theorem alter_table_outcomes (env : alter_env) (signature : Z)
    (task_type : TTaskType) (report_version : Z) :
  task_type = ROLLUP \/ task_type = SCHEMA_CHANGE ->
  let failed := bool_decide (show_alter_table_status env = ALTER_TABLE_FAILED) in
  let go := negb failed || drop_table_ok env in
  let altering :=
    go && negb (bool_decide (show_alter_table_status env = ALTER_TABLE_OTHER)) in
  let done := go && (negb altering || alter_ok env) in
  let '(req, calls, v) := _alter_table env signature task_type report_version in
  calls = [ShowAlterTableStatus]
          ++ (if failed then [DropTable] else [])
          ++ (if altering
              then [if decide (task_type = ROLLUP) then CreateRollupTable
                    else SchemaChange]
              else [])
          ++ (if done then [ReportTabletInfo] else [])
  /\ v = (if done then next_report_version report_version else report_version)
  /\ finish_report_version req = Some v
  /\ finish_status_code req
     = (if done && report_tablet_info_ok env then OK else RUNTIME_ERROR)
  /\ finish_tablet_infos_set req = done && report_tablet_info_ok env.
Proof.
  intros Hk. destruct env as [prior drop_ok alt_ok info_ok print].
  cbn [show_alter_table_status drop_table_ok alter_ok report_tablet_info_ok].
  destruct Hk as [-> | ->]; destruct prior, drop_ok, alt_ok, info_ok;
    cbn; repeat split; reflexivity.
Qed.

Lemma alter_table_outcomes_witness :
  let env := {| show_alter_table_status := ALTER_TABLE_WAITING;
                drop_table_ok := true; alter_ok := true;
                report_tablet_info_ok := false;
                print_agent_status := fun _ => "error"%string |} in
  let '(req, calls, v) := _alter_table env 7 ROLLUP 41 in
  calls = [ShowAlterTableStatus; CreateRollupTable; ReportTabletInfo]
  /\ v = 42
  /\ finish_status_code req = RUNTIME_ERROR.
Proof.
  pose proof (alter_table_outcomes
                {| show_alter_table_status := ALTER_TABLE_WAITING;
                   drop_table_ok := true; alter_ok := true;
                   report_tablet_info_ok := false;
                   print_agent_status := fun _ => "error"%string |}
                7 ROLLUP 41 (or_introl eq_refl)) as H.
  cbv zeta in *.
  destruct (_alter_table _ 7 ROLLUP 41) as [[req calls] v].
  destruct H as (Hc & Hv & _ & Hs & _).
  split; [exact Hc |]. split; [exact Hv | exact Hs].
Defined.

Lemma alter_table_report (env : alter_env) (signature : Z) (task_type : TTaskType)
    (report_version : Z) :
  task_type = ROLLUP \/ task_type = SCHEMA_CHANGE ->
  let '(req, _, _) := _alter_table env signature task_type report_version in
  finish_task_type req = task_type
  /\ finish_signature req = signature
  /\ finish_status_code req <> ANALYSIS_ERROR.
Proof.
  intros Hk. destruct env as [prior drop_ok alt_ok info_ok print].
  destruct Hk as [-> | ->]; destruct prior, drop_ok, alt_ok, info_ok;
    cbn; repeat split; discriminate.
Qed.

Lemma alter_table_worker_report_cases (env : alter_env) (t : TAgentTaskRequest)
    (v : Z) :
  ((task_type t = ROLLUP \/ task_type t = SCHEMA_CHANGE)
   /\ exists req calls v',
        _alter_table env (signature t) (task_type t) v = (req, calls, v')
        /\ alter_table_worker_report env t v = (Some req, calls, v'))
  \/ (task_type t <> ROLLUP /\ task_type t <> SCHEMA_CHANGE
      /\ alter_table_worker_report env t v = (None, [], v)).
Proof.
  unfold alter_table_worker_report.
  destruct (task_type t) eqn:Ek;
    try (right; repeat split; discriminate).
  - left. split; [now left |].
    destruct (_alter_table env (signature t) ROLLUP v) as [[req calls] v'].
    now exists req, calls, v'.
  - left. split; [now right |].
    destruct (_alter_table env (signature t) SCHEMA_CHANGE v) as [[req calls] v'].
    now exists req, calls, v'.
Qed.

(** X16.  The alter worker answers every request it takes and
    deregisters it, whatever its kind.  For a ROLLUP or SCHEMA_CHANGE
    request it runs [_alter_table] on the signature and the kind of the
    request: the report it sends is the one [_alter_table] builds, the
    calls to the engine are those of [_alter_table] and the report version
    is the one [_alter_table] leaves; that report carries the kind and the
    signature of the request and is never ANALYSIS_ERROR.  A request of any
    other kind is answered with a report on which nothing was set, without
    a call to the engine and with the report version unchanged. *)
Theorem alter_worker_answers_every_request (extra : nat) (env : alter_env)
    (master_client : nat -> AgentStatus) (w : push_world)
    (t : TAgentTaskRequest) (rest : list TAgentTaskRequest) :
  _tasks (world_pool w) = t :: rest ->
  exists req calls tr w',
    alter_table_worker_turn (4 + extra) env master_client w
    = Some (req, calls, tr, w')
    /\ _tasks (world_pool w') = rest
    /\ (signature t ∉ inflight (reg (world_pool w')) (task_type t))
    /\ (1 <= rpc_count tr <= 3)%nat
    /\ (task_type t = ROLLUP \/ task_type t = SCHEMA_CHANGE ->
        exists r,
          req = Some r
          /\ _alter_table env (signature t) (task_type t) (_s_report_version w)
             = (r, calls, _s_report_version w'))
    /\ (forall r, req = Some r ->
          (task_type t = ROLLUP \/ task_type t = SCHEMA_CHANGE)
          /\ finish_task_type r = task_type t
          /\ finish_signature r = signature t
          /\ finish_status_code r <> ANALYSIS_ERROR)
    /\ (task_type t <> ROLLUP -> task_type t <> SCHEMA_CHANGE ->
        req = None /\ calls = []
        /\ _s_report_version w' = _s_report_version w).
Proof.
  intros Hq. unfold alter_table_worker_turn. rewrite Hq.
  destruct (finish_task_returns master_client extra) as (tr & Efin & Hrpc & _).
  rewrite Efin.
  assert (Hgone : signature t ∉ inflight
            (_remove_task_info (task_type t) (signature t) "" (reg (world_pool w)))
            (task_type t)).
  { rewrite inflight_remove, decide_True by reflexivity.
    rewrite elem_of_difference, elem_of_singleton. tauto. }
  destruct (alter_table_worker_report_cases env t (_s_report_version w))
    as [(Hk & req & calls & v' & Ealter & ->) | (H1 & H2 & ->)].
  - pose proof (alter_table_report env (signature t) (task_type t)
                  (_s_report_version w) Hk) as Hrep.
    rewrite Ealter in Hrep.
    eexists _, _, _, _. split; [reflexivity |]. split; [reflexivity |].
    split; [exact Hgone |]. split; [exact Hrpc |]. split; [| split].
    + intros _. exists req. split; [reflexivity | exact Ealter].
    + intros r E. injection E as <-. split; [exact Hk | exact Hrep].
    + intros H1 H2. destruct Hk; contradiction.
  - eexists _, _, _, _. split; [reflexivity |]. split; [reflexivity |].
    split; [exact Hgone |]. split; [exact Hrpc |]. split; [| split].
    + intros [Hk | Hk]; contradiction.
    + intros r E. discriminate E.
    + intros _ _. repeat split.
Qed.

Lemma alter_worker_answers_every_request_witness :
  exists r tr w',
    alter_table_worker_turn 4 AlterSample.done_env (Sample.always PALO_SUCCESS)
      {| world_pool := AlterSample.rollup_submitted; _s_report_version := 5 |}
    = Some (Some r,
            [ShowAlterTableStatus; CreateRollupTable; ReportTabletInfo], tr, w')
    /\ finish_task_type r = ROLLUP
    /\ finish_signature r = 9
    /\ finish_status_code r = OK
    /\ _tasks (world_pool w') = []
    /\ _s_report_version w' = 6.
Proof.
  destruct (alter_worker_answers_every_request 0 AlterSample.done_env
              (Sample.always PALO_SUCCESS)
              {| world_pool := AlterSample.rollup_submitted;
                 _s_report_version := 5 |}
              AlterSample.rollup_task [])
    as (req & calls & tr & w' & E & Hq & _ & _ & Halter & _ & _).
  - vm_compute. reflexivity.
  - destruct Halter as (r & -> & Er); [now left |].
    vm_compute in Er. injection Er as Hr Hcalls Hv.
    exists r, tr, w'. rewrite <- Hcalls in E. split; [exact E |].
    split; [now rewrite <- Hr |]. split; [now rewrite <- Hr |].
    split; [now rewrite <- Hr |]. split; [exact Hq | symmetry; exact Hv].
Defined.

(** ** The clone worker *)

(** X17.  What a clone task reports.  The task copies exactly when the
    tablet is not found on this node and a shard path is obtained.  It
    always ends: it comes to its report unless it copies and [_clone_copy]
    does not return, and so it does whenever no backend whose snapshot is
    made hands out an empty snapshot path and the speed limit is not 0.
    When it comes to its report: the tablet is ready when it was found on
    this node, in which case nothing is copied, or when shard path, copy
    and [load_header] all succeeded.  The report is OK with tablet infos
    exactly when the tablet is ready, its info can be read and it is not
    stale; a ready tablet that is stale is dropped, also one that was on
    this node before the task, and the report is then RUNTIME_ERROR; the
    local directory is removed exactly when the tablet is not ready. *)
Theorem clone_task_outcomes (extra : nat) (cfg : clone_config) (env : clone_env)
    (clone_req : TCloneReq) (src_backends : list backend_answers) :
  (forall b n, b ∈ src_backends ->
     (String.length (snd (list_file_dir b n)) < 4 + extra)%nat) ->
  let fuel := (4 + extra)%nat in
  let copies := negb (get_table_exists env) && obtain_shard_path_ok env in
  exists o,
    clone_task fuel cfg env clone_req src_backends = Some o
    /\ (o = Fails
        <-> copies = true
            /\ exists tr, _clone_copy fuel cfg src_backends = Some (Fails, tr))
    /\ ((forall b, b ∈ src_backends -> make_snapshot_ok b = true ->
           snapshot_path b <> Some ""%string) ->
        uint64 (download_low_speed_limit_kbps cfg) <> 0 ->
        o <> Fails)
    /\ forall code infos calls, o = Returns (code, infos, calls) ->
         let ready :=
           get_table_exists env
           || (obtain_shard_path_ok env && clone_copy_ok fuel cfg src_backends
               && load_header_ok env) in
         let stale :=
           is_stale clone_req (tablet_info_version env)
             (tablet_info_version_hash env) in
         let good := ready && clone_report_tablet_info_ok env && negb stale in
         code = (if good then OK else RUNTIME_ERROR)
         /\ infos = good
         /\ existsb is_clone_copy calls = copies
         /\ (copies = true ->
             exists st tr,
               _clone_copy fuel cfg src_backends = Some (Returns st, tr)
               /\ CloneCopy tr ∈ calls)
         /\ existsb is_clone_drop_table calls
            = ready && clone_report_tablet_info_ok env && stale
         /\ existsb is_remove_local_dir calls = negb ready.
Proof.
  intros Hlen fuel copies.
  destruct (clone_backends_returns extra cfg src_backends 0 PALO_SUCCESS Hlen)
    as ([oc trc] & Ec).
  change (clone_backends (4 + extra) cfg 0 src_backends PALO_SUCCESS)
    with (_clone_copy fuel cfg src_backends) in Ec.
  assert (Hcopy : forall r, oc = Returns r -> r = PALO_SUCCESS \/ r = PALO_ERROR).
  { intros r ->. unfold _clone_copy in Ec.
    destruct (clone_backends_result _ _ _ _ _ _ _ Ec) as (m & _ & _ & Hr).
    destruct (Hr r eq_refl) as ([Hv | [Hv | [Hv _]]] & _); auto. }
  assert (Hsafe : (forall b, b ∈ src_backends -> make_snapshot_ok b = true ->
                     snapshot_path b <> Some ""%string) ->
                  uint64 (download_low_speed_limit_kbps cfg) <> 0 ->
                  oc <> Fails).
  { intros Hpath Hspeed ->.
    destruct (clone_copy_no_fail _ _ _ _ _ Hpath Hspeed Ec) as (r & Hr).
    discriminate Hr. }
  subst copies. unfold clone_task, clone_copy_ok. rewrite Ec.
  destruct env as [found shard load info v h].
  cbn [get_table_exists obtain_shard_path_ok load_header_ok
       clone_report_tablet_info_ok tablet_info_version tablet_info_version_hash].
  destruct oc as [r |].
  - assert (Hr : r = PALO_SUCCESS \/ r = PALO_ERROR) by (now apply Hcopy).
    clear Hcopy Hsafe.
    destruct (is_stale clone_req v h);
      destruct Hr as [-> | ->]; destruct found, shard, load, info; cbn;
      (eexists; split; [reflexivity |]);
      (split; [split; [intros E; discriminate E
                      | intros (Hc & tr & E); congruence] |]);
      (split; [intros _ _ E; discriminate E |]);
      intros code infos calls E; injection E as <- <- <-;
      rewrite ?existsb_app; cbn;
      (split; [reflexivity |]); (split; [reflexivity |]);
      (split; [reflexivity |]);
      (split; [| split; reflexivity]);
      intros Hc; try discriminate Hc;
      eexists _, trc; (split; [reflexivity |]);
      rewrite ?elem_of_app, ?elem_of_cons; tauto.
  - clear Hcopy.
    destruct (is_stale clone_req v h);
      destruct found, shard, load, info; cbn;
      (eexists; split; [reflexivity |]);
      try (split; [split; [intros _; split; [reflexivity | now exists trc]
                          | reflexivity] |];
           split; [intros Hp Hs; exfalso; exact (Hsafe Hp Hs eq_refl) |];
           intros code infos calls E; discriminate E);
      (split; [split; [intros E; discriminate E
                      | intros (Hc & _); discriminate Hc] |]);
      (split; [intros _ _ E; discriminate E |]);
      intros code infos calls E; injection E as <- <- <-;
      rewrite ?existsb_app; cbn;
      (split; [reflexivity |]); (split; [reflexivity |]);
      (split; [reflexivity |]);
      (split; [| split; reflexivity]);
      intros Hc; discriminate Hc.
Qed.

Lemma clone_task_outcomes_witness :
  exists calls,
    clone_task 40 CloneSample.cfg
      {| get_table_exists := false; obtain_shard_path_ok := true;
         load_header_ok := true; clone_report_tablet_info_ok := true;
         tablet_info_version := 4; tablet_info_version_hash := 99 |}
      {| committed_version := Some 4; committed_version_hash := Some 99 |}
      [CloneSample.refusing_backend; CloneSample.good_backend]
    = Some (Returns (OK, true, calls))
    /\ existsb is_clone_copy calls = true
    /\ existsb is_clone_drop_table calls = false
    /\ existsb is_remove_local_dir calls = false.
Proof.
  destruct (clone_task_outcomes 36 CloneSample.cfg
              {| get_table_exists := false; obtain_shard_path_ok := true;
                 load_header_ok := true; clone_report_tablet_info_ok := true;
                 tablet_info_version := 4; tablet_info_version_hash := 99 |}
              {| committed_version := Some 4; committed_version_hash := Some 99 |}
              [CloneSample.refusing_backend; CloneSample.good_backend])
    as (o & E & _ & _ & Hret).
  - intros b n Hin.
    repeat (apply elem_of_cons in Hin; destruct Hin as [-> | Hin];
            [vm_compute; lia |]).
    apply elem_of_nil in Hin. contradiction.
  - pose proof E as E'. vm_compute in E'.
    destruct o as [[[code infos] calls] |]; [| discriminate E'].
    injection E' as <- <- _.
    pose proof (Hret OK true calls eq_refl) as H. cbv zeta in H.
    destruct H as (_ & _ & Hcopy & _ & Hdrop & Hdir).
    exists calls. split; [exact E |].
    split; [exact Hcopy |]. split; [exact Hdrop | exact Hdir].
Defined.

(** ** Clone: the order of the downloads *)

Lemma add_all_order (names acc : list string) :
  add_all names acc
  = rev (List.filter (fun x => negb (is_header_file x)) names)
    ++ acc ++ List.filter is_header_file names.
Proof.
  revert acc. induction names as [| x names IH]; intros acc.
  - cbn. now rewrite app_nil_r.
  - change (add_all (x :: names) acc) with (add_all names (add_file_name x acc)).
    rewrite IH. unfold add_file_name. cbn [List.filter].
    destruct (is_header_file x); cbn [negb rev].
    + now rewrite <- !app_assoc.
    + now rewrite <- !app_assoc.
Qed.

(** X18.  The order in which a clone downloads the files of a listing:
    first the names that are not header files, in the reverse of their
    order in the listing, then the header files in the order of the
    listing. *)
Theorem clone_download_order (fuel : nat) (file_list_str : string)
    (file_name_list : list string) :
  clone_file_name_list fuel file_list_str = Some file_name_list ->
  file_name_list
  = rev (List.filter (fun x => negb (is_header_file x)) (split_lines file_list_str))
    ++ List.filter is_header_file (split_lines file_list_str).
Proof.
  intros H. apply clone_file_name_list_lines in H. subst file_name_list.
  now rewrite add_all_order.
Qed.

Lemma clone_download_order_witness :
  ["data_1.dat"; "data_0.dat"; "header.hdr"]%string
  = rev (List.filter (fun x => negb (is_header_file x))
           (split_lines Sample.s4_listing))
    ++ List.filter is_header_file (split_lines Sample.s4_listing).
Proof.
  apply (clone_download_order 40 Sample.s4_listing). vm_compute. reflexivity.
Defined.

(** ** From submission to the task report *)

Lemma submit_task_signatures (t : TAgentTaskRequest) (p : pool) (k : TTaskType) :
  is_Some (_s_task_signatures (reg (submit_task t p)) !! k)
  <-> is_Some (_s_task_signatures (reg p) !! k) \/ k = task_type t.
Proof.
  unfold submit_task.
  destruct (decide (signature t ∈ inflight (reg p) (task_type t))) as [Hin | Hout].
  - rewrite (record_task_info_present _ _ (task_user t) _ Hin). cbn [reg].
    split; [auto |]. intros [H | ->]; [exact H |].
    unfold inflight, signature_set in Hin.
    destruct (_s_task_signatures (reg p) !! task_type t); [now eexists |].
    apply elem_of_empty in Hin. contradiction.
  - destruct (record_task_info_fresh _ _ (task_user t) _ Hout)
      as (r' & -> & Hsig & _).
    cbn [reg]. rewrite Hsig.
    destruct (decide (k = task_type t)) as [-> | Hk].
    + rewrite lookup_insert_eq. split; [auto |]. intros _. now eexists.
    + rewrite lookup_insert_ne by congruence. tauto.
Qed.

Lemma submit_task_covers (t : TAgentTaskRequest) (p : pool) :
  queue_covers p -> queue_covers (submit_task t p).
Proof.
  intros Hcov. destruct (submit_task_cases t p) as [[_ ->] | (_ & Hq & Hi)];
    [exact Hcov |].
  intros k s. rewrite Hi, Hq, fmap_app, elem_of_app.
  destruct (decide (k = task_type t)) as [-> | Hk].
  - rewrite elem_of_union, elem_of_singleton. intros [-> | Hs].
    + right. apply list_elem_of_singleton. reflexivity.
    + left. now apply Hcov.
  - intros Hs. left. now apply Hcov.
Qed.

Lemma submit_all_from_empty (ts : list TAgentTaskRequest) :
  let p := submit_all ts Sample.empty_pool in
  queue_registered p /\ queue_distinct p /\ queue_covers p
  /\ (forall t, t ∈ ts -> signature t ∈ inflight (reg p) (task_type t))
  /\ (forall k, is_Some (_s_task_signatures (reg p) !! k) <-> k ∈ task_type <$> ts).
Proof.
  cbv zeta. induction ts as [| t ts (IHr & IHd & IHc & IHa & IHk)] using rev_ind.
  - split; [| split; [| split; [| split]]].
    + intros t Ht. apply elem_of_nil in Ht. contradiction.
    + constructor.
    + intros k s Hs. cbn in Hs. apply elem_of_empty in Hs. contradiction.
    + intros t Ht. apply elem_of_nil in Ht. contradiction.
    + intros k. cbn. rewrite lookup_empty. split.
      * intros [x Hx]. discriminate Hx.
      * intros H. apply elem_of_nil in H. contradiction.
  - rewrite submit_all_snoc.
    destruct (submit_task_queue t _ IHr IHd) as (Hr & Hd & _).
    split; [exact Hr |]. split; [exact Hd |].
    split; [now apply submit_task_covers |]. split.
    + intros t' Ht'. apply elem_of_app in Ht'. destruct Ht' as [Ht' | Ht'].
      * apply inflight_submit_mono. now apply IHa.
      * apply list_elem_of_singleton in Ht'. subst t'. apply inflight_submit_self.
    + intros k. rewrite submit_task_signatures, IHk, fmap_app, elem_of_app.
      cbn. rewrite list_elem_of_singleton. tauto.
Qed.

(** X19.  From submission to the task report.  When a list of requests is
    submitted to an empty pool and one CREATE_TABLE worker then takes as
    many turns as the queue is long, every submitted request is answered by
    exactly one report, no request is in flight any more, and the map the
    task reporter sends to the master still has an entry, now with an
    empty set, for every kind that was submitted, and no entry for any
    other kind. *)
Theorem drained_pool_reports_empty_kinds (extra : nat) (create_table : nat -> bool)
    (master_client : nat -> nat -> AgentStatus) (v : Z)
    (ts : list TAgentTaskRequest) :
  let w := {| world_pool := submit_all ts Sample.empty_pool;
              _s_report_version := v |} in
  exists reqs w',
    create_table_worker_run (4 + extra) create_table master_client 0
      (length (_tasks (world_pool w))) w = Some (reqs, w')
    /\ NoDup (finish_key <$> reqs)
    /\ (forall t, t ∈ ts -> task_key t ∈ finish_key <$> reqs)
    /\ (forall k, inflight (reg (world_pool w')) k = ∅)
    /\ (forall k, report_task_request (reg (world_pool w')) !! k
                  = if bool_decide (k ∈ task_type <$> ts) then Some ∅ else None).
Proof.
  intros w.
  destruct (submit_all_from_empty ts) as (Hreg & Hdis & Hcov & Hall & Hdom).
  destruct (create_table_worker_run_result extra create_table master_client 0 w)
    as (reqs & w' & E & Hkeys & _ & Hin & Hdom' & _).
  exists reqs, w'. split; [exact E |].
  assert (Hnone : forall k, inflight (reg (world_pool w')) k = ∅).
  { intros k. apply elem_of_equiv_empty_L. intros s Hs.
    apply Hin in Hs. destruct Hs as [Hs Hnot]. apply Hnot. now apply Hcov. }
  split; [| split; [| split; [exact Hnone |]]].
  - rewrite Hkeys. exact Hdis.
  - intros t Ht. rewrite Hkeys. apply Hcov. now apply Hall.
  - intros k. unfold report_task_request.
    assert (Hkinds : k ∈ task_type <$> _tasks (world_pool w) -> k ∈ task_type <$> ts).
    { intros Hk. apply Hdom.
      apply list_elem_of_fmap in Hk. destruct Hk as (t & -> & Ht).
      apply Hreg in Ht. unfold inflight, signature_set in Ht.
      destruct (_s_task_signatures (reg (submit_all ts Sample.empty_pool))
                  !! task_type t); [now eexists |].
      apply elem_of_empty in Ht. contradiction. }
    destruct (bool_decide_reflect (k ∈ task_type <$> ts)) as [Hk | Hk].
    + assert (Hs : is_Some (_s_task_signatures (reg (world_pool w')) !! k)).
      { apply Hdom'. left. now apply Hdom. }
      destruct Hs as [X HX]. rewrite HX. f_equal.
      specialize (Hnone k). unfold inflight, signature_set in Hnone.
      now rewrite HX in Hnone.
    + destruct (_s_task_signatures (reg (world_pool w')) !! k) as [X |] eqn:HX;
        [| reflexivity].
      exfalso. apply Hk.
      assert (Hs : is_Some (_s_task_signatures (reg (world_pool w')) !! k))
        by (rewrite HX; now eexists).
      apply Hdom' in Hs. destruct Hs as [Hs | Hs]; [now apply Hdom | now apply Hkinds].
Qed.

(** ** The accounts of the push pool *)

Lemma count_user_app (u : string) (a c : list TAgentTaskRequest) :
  count_user u (a ++ c) = (count_user u a + count_user u c)%nat.
Proof. unfold count_user. now rewrite List.filter_app, length_app. Qed.

Lemma count_user_le (u : string) (l : list TAgentTaskRequest) :
  (count_user u l <= length l)%nat.
Proof. unfold count_user. apply List.filter_length_le. Qed.

Lemma count_user_delete (u : string) (l : list TAgentTaskRequest) (i : nat)
    (t : TAgentTaskRequest) :
  l !! i = Some t ->
  count_user u l
  = (count_user u (delete i l) + if decide (task_user t = u) then 1 else 0)%nat.
Proof.
  revert i. induction l as [| x l IH]; intros i Hi; [discriminate |].
  destruct i as [| i].
  - injection Hi as ->. change (delete 0%nat (t :: l)) with l. unfold count_user.
    cbn [List.filter]. destruct (decide (task_user t = u)) as [Hu | Hu].
    + rewrite bool_decide_eq_true_2 by exact Hu. cbn [length]. lia.
    + rewrite bool_decide_eq_false_2 by exact Hu. lia.
  - change (delete (S i) (x :: l)) with (x :: delete i l).
    cbn in Hi. specialize (IH i Hi).
    unfold count_user in *. cbn [List.filter].
    destruct (decide (task_user t = u));
      destruct (bool_decide (task_user x = u)); cbn [length]; lia.
Qed.

Lemma count_user_snoc (u : string) (l : list TAgentTaskRequest)
    (t : TAgentTaskRequest) :
  count_user u (l ++ [t])
  = (count_user u l + if decide (task_user t = u) then 1 else 0)%nat.
Proof.
  rewrite count_user_app. f_equal. unfold count_user. cbn [List.filter].
  destruct (decide (task_user t = u)) as [Hu | Hu].
  - now rewrite bool_decide_eq_true_2.
  - now rewrite bool_decide_eq_false_2.
Qed.

Section Accounts.

Variable thread_count : Z.

Lemma push_op_step_accounts (op : push_op) (s s' : push_pool_state) :
  accounts_exact s -> all_push s ->
  Z.of_nat (state_size s) + 1 < 2 ^ 31 ->
  (forall t, op = OpSubmit t -> task_type t = PUSH) ->
  push_op_step thread_count op s = Some s' ->
  accounts_exact s' /\ all_push s' /\ (state_size s' <= state_size s + 1)%nat.
Proof.
  intros (Hrun & Htu & Htot) Hall Hsize Hop Hstep.
  destruct s as [[q r] ip]. unfold state_size, all_push in *.
  cbn [ps_pool in_progress _tasks reg] in *.
  destruct op as [t | | j]; cbn [push_op_step ps_pool in_progress] in Hstep.
  - (* submit_task *)
    injection Hstep as <-. specialize (Hop t eq_refl).
    destruct (submit_task_cases t {| _tasks := q; reg := r |})
      as [[_ ->] | (Hout & Hq & _)].
    { unfold accounts_exact. cbn [ps_pool in_progress _tasks reg].
      repeat split; auto; lia. }
    cbn [reg _tasks] in Hout, Hq.
    pose proof (record_task_info_counts (task_type t) (signature t) (task_user t)
                  r Hout) as Hrec.
    cbv zeta in Hrec. destruct Hrec as (_ & Htu' & Htot' & Hrun').
    assert (Hreg : reg (submit_task t {| _tasks := q; reg := r |})
                   = snd (_record_task_info (task_type t) (signature t)
                            (task_user t) r)).
    { unfold submit_task. cbn [reg _tasks].
      destruct (_record_task_info (task_type t) (signature t) (task_user t) r)
        as [[] r']; reflexivity. }
    cbn [ps_pool in_progress]. rewrite Hq. split; [| split].
    + unfold accounts_exact. cbn [ps_pool in_progress]. rewrite Hq, Hreg.
      split; [| split].
      * intros u. unfold running_by_user. rewrite Hrun'. apply Hrun.
      * intros u. rewrite Htu', count_user_snoc, Hop.
        destruct (decide (task_user t = u)) as [<- | Hu].
        -- rewrite decide_True by tauto. rewrite Htu.
           rewrite IntFacts.uint32_small.
           ++ lia.
           ++ pose proof (count_user_le (task_user t) q).
              pose proof (count_user_le (task_user t) ip). lia.
        -- rewrite decide_False by (intros (_ & _ & E); congruence).
           rewrite Htu. lia.
      * rewrite Htot', Hop, decide_True by tauto. rewrite Htot.
        rewrite IntFacts.uint32_small by lia. rewrite length_app. cbn [length]. lia.
    + intros t' Ht'. rewrite <- app_assoc in Ht'.
      apply elem_of_app in Ht'. destruct Ht' as [Ht' | Ht'].
      * apply Hall. apply elem_of_app. now left.
      * apply elem_of_app in Ht'. destruct Ht' as [Ht' | Ht'].
        -- apply list_elem_of_singleton in Ht'. now subst t'.
        -- apply Hall. apply elem_of_app. now right.
    + rewrite length_app. cbn [length]. lia.
  - (* the selection block *)
    destruct q as [| t0 q0] eqn:Eq.
    { assert (Hnone : push_select thread_count NORMAL {| _tasks := []; reg := r |}
                      = None) by reflexivity.
      rewrite Hnone in Hstep. discriminate Hstep. }
    rewrite <- Eq in *.
    destruct (normal_lane_index thread_count {| _tasks := q; reg := r |})
      as (i & t & Hi & Hg).
    { cbn [_tasks]. rewrite Eq. discriminate. }
    { cbn [_tasks]. lia. }
    rewrite (push_select_taken thread_count NORMAL {| _tasks := q; reg := r |}
               i t _ ltac:(cbn [_tasks]; lia) Hi Hg) in Hstep.
    injection Hstep as <-. cbn [_tasks reg] in Hi.
    assert (Hk : task_type t = PUSH).
    { apply Hall. apply elem_of_app. left. eapply list_elem_of_lookup_2, Hi. }
    cbn [ps_pool in_progress _tasks reg]. rewrite Hk.
    pose proof (lookup_lt_Some _ _ _ Hi) as Hlt.
    split; [| split].
    + unfold accounts_exact. cbn [ps_pool in_progress _tasks reg].
      split; [| split].
      * intros u. rewrite running_by_user_mark, count_user_snoc.
        destruct (decide (task_user t = u)) as [<- | Hu].
        -- rewrite decide_True by tauto. rewrite Hrun.
           rewrite IntFacts.uint32_small.
           ++ lia.
           ++ pose proof (count_user_le (task_user t) ip). lia.
        -- rewrite decide_False by (intros (_ & E); congruence).
           rewrite Hrun. lia.
      * intros u. change (total_by_user (mark_running PUSH (task_user t) r) PUSH u)
          with (total_by_user r PUSH u).
        rewrite Htu, count_user_snoc, (count_user_delete u q i t Hi). lia.
      * change (total (mark_running PUSH (task_user t) r) PUSH) with (total r PUSH).
        rewrite Htot, (length_delete q i) by (eexists; exact Hi).
        rewrite length_app. cbn [length]. lia.
    + intros t' Ht'. apply elem_of_app in Ht'. destruct Ht' as [Ht' | Ht'].
      * apply Hall. apply elem_of_app. left.
        eapply list_elem_of_delete_inv, Ht'.
      * apply elem_of_app in Ht'. destruct Ht' as [Ht' | Ht'].
        -- apply Hall. apply elem_of_app. now right.
        -- apply list_elem_of_singleton in Ht'. now subst t'.
    + rewrite (length_delete q i) by (eexists; exact Hi).
      rewrite length_app. cbn [length]. lia.
  - (* _remove_task_info *)
    destruct (ip !! j) as [t |] eqn:Hj; [| discriminate Hstep].
    injection Hstep as <-.
    assert (Hk : task_type t = PUSH).
    { apply Hall. apply elem_of_app. right. eapply list_elem_of_lookup_2, Hj. }
    cbn [ps_pool in_progress _tasks reg]. rewrite Hk.
    pose proof (lookup_lt_Some _ _ _ Hj) as Hlt.
    pose proof (count_user_delete (task_user t) ip j t Hj) as Hself.
    rewrite decide_True in Hself by reflexivity.
    split; [| split].
    + unfold accounts_exact. cbn [ps_pool in_progress _tasks reg].
      split; [| split].
      * intros u. rewrite running_by_user_remove.
        destruct (decide (task_user t = u)) as [<- | Hu].
        -- rewrite decide_True by tauto. rewrite Hrun.
           rewrite IntFacts.uint32_small.
           ++ lia.
           ++ pose proof (count_user_le (task_user t) ip). lia.
        -- rewrite decide_False by (intros (_ & _ & E); congruence).
           rewrite Hrun, (count_user_delete u ip j t Hj).
           rewrite decide_False by exact Hu. lia.
      * intros u. rewrite total_by_user_remove.
        destruct (decide (task_user t = u)) as [<- | Hu].
        -- rewrite decide_True by tauto. rewrite Htu.
           rewrite IntFacts.uint32_small.
           ++ lia.
           ++ pose proof (count_user_le (task_user t) q).
              pose proof (count_user_le (task_user t) ip). lia.
        -- rewrite decide_False by (intros (_ & _ & E); congruence).
           rewrite Htu, (count_user_delete u ip j t Hj).
           rewrite decide_False by exact Hu. lia.
      * rewrite total_remove, decide_True by tauto. rewrite Htot.
        rewrite (length_delete ip j) by (eexists; exact Hj).
        rewrite IntFacts.uint32_small by lia. lia.
    + intros t' Ht'. apply Hall. apply elem_of_app in Ht'.
      apply elem_of_app. destruct Ht' as [Ht' | Ht']; [now left | right].
      eapply list_elem_of_delete_inv, Ht'.
    + rewrite (length_delete ip j) by (eexists; exact Hj). lia.
Qed.

Lemma push_ops_run_accounts (ops : list push_op) :
  forall s s',
    accounts_exact s -> all_push s ->
    Z.of_nat (state_size s + length ops) < 2 ^ 31 ->
    (forall t, OpSubmit t ∈ ops -> task_type t = PUSH) ->
    push_ops_run thread_count ops s = Some s' ->
    accounts_exact s'.
Proof.
  induction ops as [| op ops IH]; intros s s' Hacc Hall Hsize Hops Hrun.
  - cbn in Hrun. now injection Hrun as <-.
  - cbn [push_ops_run] in Hrun.
    destruct (push_op_step thread_count op s) as [s1 |] eqn:Hstep;
      [| discriminate Hrun].
    cbn [length] in Hsize.
    destruct (push_op_step_accounts op s s1 Hacc Hall) as (Hacc1 & Hall1 & Hsize1);
      [lia | | exact Hstep |].
    { intros t ->. apply Hops. now left. }
    apply (IH s1 s' Hacc1 Hall1); [lia | | exact Hrun].
    intros t Ht. apply Hops. now right.
Qed.

End Accounts.

(** X20.  As long as only NORMAL-lane workers take requests, the counters
    of the push pool say what is there.  After any sequence of fewer than
    [2^31] calls on an empty pool, each a [submit_task] of a PUSH request, a
    selection by a NORMAL-lane worker or the [_remove_task_info] of a
    request in progress, the running count of every user is the number of
    his requests in progress, his total the number of his requests queued
    or in progress, and the PUSH total the number of all of them; so no
    running count exceeds the total of its user, and no user total the PUSH
    total. *)
Theorem push_accounts_exact (thread_count : Z) (ops : list push_op)
    (s : push_pool_state) :
  Z.of_nat (length ops) < 2 ^ 31 ->
  (forall t, OpSubmit t ∈ ops -> task_type t = PUSH) ->
  push_ops_run thread_count ops
    {| ps_pool := Sample.empty_pool; in_progress := [] |} = Some s ->
  accounts_exact s
  /\ forall u,
       0 <= running_by_user (reg (ps_pool s)) PUSH u
         <= total_by_user (reg (ps_pool s)) PUSH u
       /\ total_by_user (reg (ps_pool s)) PUSH u <= total (reg (ps_pool s)) PUSH.
Proof.
  intros Hlen Hops Hrun.
  assert (Hacc : accounts_exact s).
  { apply (push_ops_run_accounts thread_count ops
             {| ps_pool := Sample.empty_pool; in_progress := [] |} s);
      try assumption.
    - split; [intros u; vm_compute; reflexivity |].
      split; [intros u; vm_compute; reflexivity | vm_compute; reflexivity].
    - intros t Ht. cbn in Ht. apply elem_of_nil in Ht. contradiction. }
  split; [exact Hacc |].
  destruct Hacc as (Hr & Ht & Htot). intros u.
  rewrite Hr, Ht, Htot.
  pose proof (count_user_le u (_tasks (ps_pool s))).
  pose proof (count_user_le u (in_progress s)). lia.
Qed.

Lemma push_accounts_exact_witness :
  exists s,
    push_ops_run 2
      [OpSubmit Sample.a1; OpSubmit Sample.a2; OpSubmit Sample.t3;
       OpSelect; OpSelect; OpFinish 0%nat]
      {| ps_pool := Sample.empty_pool; in_progress := [] |} = Some s
    /\ accounts_exact s
    /\ running_by_user (reg (ps_pool s)) PUSH "A" = 1
    /\ total (reg (ps_pool s)) PUSH = 2.
Proof.
  set (ops := [OpSubmit Sample.a1; OpSubmit Sample.a2; OpSubmit Sample.t3;
               OpSelect; OpSelect; OpFinish 0%nat]).
  assert (Hlen : Z.of_nat (length ops) < 2 ^ 31) by (cbn; lia).
  assert (Hops : forall t, OpSubmit t ∈ ops -> task_type t = PUSH).
  { intros t Ht. subst ops.
    repeat (apply elem_of_cons in Ht; destruct Ht as [Ht | Ht];
            [first [injection Ht as ->; reflexivity | discriminate Ht] |]).
    apply elem_of_nil in Ht. contradiction. }
  destruct (push_ops_run 2 ops {| ps_pool := Sample.empty_pool; in_progress := [] |})
    as [s |] eqn:E; [| vm_compute in E; discriminate E].
  exists s. split; [reflexivity |].
  destruct (push_accounts_exact 2 ops s Hlen Hops E) as (Hacc & _).
  split; [exact Hacc |].
  pose proof E as E'. vm_compute in E'. injection E' as <-.
  split; vm_compute; reflexivity.
Defined.

(** ** The restore worker *)

Lemma find_char_of_substring (c : ascii) (s : string) :
  forall n m rest,
    substring n m s = String c rest ->
    exists p, find_char c s = Some p /\ (p <= n)%nat.
Proof.
  induction s as [| a s IH]; intros n m rest H.
  - destruct n, m; discriminate H.
  - destruct n as [| n].
    + destruct m as [| m]; [discriminate H |].
      cbn in H. injection H as -> _. exists 0%nat. cbn.
      rewrite decide_True by reflexivity. split; [reflexivity | lia].
    + cbn in H. destruct (IH n m rest H) as (p & Hp & Hle).
      cbn [find_char]. destruct (decide (a = c)).
      * exists 0%nat. split; [reflexivity | lia].
      * rewrite Hp. exists (S p). split; [reflexivity | lia].
Qed.

(** X21.  When the renaming of a restored file throws.  For a regular
    file [dir/name] whose path fits [uint32_t], the renaming step throws
    [std::out_of_range] exactly when [name] is longer than four characters,
    ends in [.idx] or [.dat] and has no underscore; a file whose name is
    longer than four characters and ends in [.hdr] is always renamed; and
    a file whose name has at most four characters, [.hdr] itself among
    them, keeps its name. *)
Theorem restore_rename_throws_iff (tablet_id : Z) (dir name : string) :
  Z.of_nat (String.length (dir +:+ String slash name)) < 2 ^ 32 - 1 ->
  rfind_char slash name = None ->
  let suffix := substring (String.length name - 4) 4 name in
  (restore_rename tablet_id false (dir +:+ String slash name) = OutOfRange
   <-> (4 < String.length name)%nat
       /\ (suffix = ".idx" \/ suffix = ".dat")%string
       /\ find_char underscore name = None)
  /\ ((4 < String.length name)%nat -> suffix = ".hdr"%string ->
      exists new_file_path_str,
        restore_rename tablet_id false (dir +:+ String slash name)
        = Renamed new_file_path_str)
  /\ ((String.length name <= 4)%nat ->
      restore_rename tablet_id false (dir +:+ String slash name) = Unchanged).
Proof.
  intros Hlen Hns suffix.
  rewrite (restore_rename_regular tablet_id dir name Hlen Hns).
  fold suffix. cbv zeta.
  destruct (Nat.leb_spec (String.length name) 4) as [Hle | Hgt].
  { split; [| split; [intros H; lia | reflexivity]].
    split; [discriminate | intros [H _]; lia]. }
  destruct (decide (suffix <> ".hdr" /\ suffix <> ".idx" /\ suffix <> ".dat")%string)
    as [(H1 & H2 & H3) | Hsome].
  { split; [| split; [intros _ E; contradiction | intros H; lia]].
    split; [discriminate |]. intros (_ & [E | E] & _); contradiction. }
  destruct (decide (suffix = ".hdr"%string)) as [Hhdr | Hdata].
  - destruct (find_char_of_substring dot name (String.length name - 4) 4 "hdr"%string
                Hhdr) as (p & Hp & _).
    rewrite Hp. split.
    + split; [discriminate |]. intros (_ & [E | E] & _); rewrite Hhdr in E;
        discriminate E.
    + split; [| intros H; lia]. intros _ _. eexists. reflexivity.
  - split; [| split; [intros _ E; contradiction | intros H; lia]].
    assert (Hd : (suffix = ".idx" \/ suffix = ".dat")%string).
    { destruct (decide (suffix = ".idx"%string)) as [E | N1]; [now left |].
      destruct (decide (suffix = ".dat"%string)) as [E | N2]; [now right |].
      exfalso. apply Hsome. auto. }
    destruct (find_char underscore name) as [p |].
    + split; [discriminate |]. intros (_ & _ & E). discriminate E.
    + split; [auto | reflexivity].
Qed.

Lemma restore_rename_throws_iff_witness :
  restore_rename 7 false "/d/abcd.dat" = OutOfRange
  /\ (exists new_file_path_str,
        restore_rename 7 false "/d/10_3.hdr" = Renamed new_file_path_str)
  /\ restore_rename 7 false "/d/.hdr" = Unchanged.
Proof.
  split; [| split].
  - apply (restore_rename_throws_iff 7 "/d" "abcd.dat");
      [vm_compute; reflexivity | reflexivity |].
    split; [vm_compute; lia |]. split; [now right | reflexivity].
  - apply (restore_rename_throws_iff 7 "/d" "10_3.hdr");
      [vm_compute; reflexivity | reflexivity | vm_compute; lia | reflexivity].
  - apply (restore_rename_throws_iff 7 "/d" ".hdr");
      [vm_compute; reflexivity | reflexivity | vm_compute; lia].
Defined.

(** X22.  What a restore task reports.  The status is OK exactly when
    [write_json_to_file], [obtain_shard_path], the download command and
    [load_header] all succeeded: a failed tablet info lookup leaves it OK,
    the report then carrying an empty list of tablet infos.  Files are
    renamed only after a successful download into an existing directory,
    and the task does not come to its report exactly when that renaming
    throws. *)
Theorem restore_task_outcomes (tablet_id : Z) (env : restore_env) :
  let downloaded :=
    write_json_to_file_ok env && restore_shard_path_ok env && exec_cmd_ok env in
  let renaming := downloaded && local_file_path_exists env in
  (restore_task tablet_id env = Fails
   <-> renaming = true
       /\ restore_rename_loop tablet_id (directory_entries env) = Fails)
  /\ forall code infos calls,
       restore_task tablet_id env = Returns (code, infos, calls) ->
       code = (if downloaded && restore_load_header_ok env
               then OK else RUNTIME_ERROR)
       /\ infos = (if downloaded && restore_load_header_ok env
                      && restore_tablet_info_ok env
                   then 1%nat else 0%nat)
       /\ List.filter is_rename calls
          = (if renaming
             then match restore_rename_loop tablet_id (directory_entries env) with
                  | Returns renames => renames
                  | Fails => []
                  end
             else []).
Proof.
  assert (Hren : forall entries renames,
            restore_rename_loop tablet_id entries = Returns renames ->
            List.filter is_rename renames = renames).
  { induction entries as [| [d path] rest IH]; intros renames H.
    - injection H as <-. reflexivity.
    - cbn [restore_rename_loop] in H.
      destruct (restore_rename tablet_id d path) as [| new |];
        [now apply IH | | discriminate H].
      destruct (restore_rename_loop tablet_id rest) as [l |]; [| discriminate H].
      injection H as <-. cbn [List.filter is_rename]. f_equal. now apply IH. }
  unfold restore_task.
  destruct env as [json shard cmd dir entries load info].
  cbn [write_json_to_file_ok restore_shard_path_ok exec_cmd_ok
       local_file_path_exists directory_entries restore_load_header_ok
       restore_tablet_info_ok].
  destruct (restore_rename_loop tablet_id entries) as [renames |] eqn:El.
  - specialize (Hren entries renames El).
    destruct json, shard, cmd, dir, load, info; cbn;
      (split; [split; [discriminate | intros [_ H]; discriminate H]
              | intros code infos calls H; injection H as <- <- <-;
                repeat first [ rewrite List.filter_app
                             | rewrite Hren
                             | progress cbn [List.filter is_rename app] ];
                rewrite ?app_nil_r; repeat split; reflexivity]).
  - destruct json, shard, cmd, dir, load, info; cbn;
      (split; [split; [try discriminate; auto
                      | first [intros [H _]; discriminate H | reflexivity]]
              | intros code infos calls H; try discriminate H;
                injection H as <- <- <-; repeat split; reflexivity]).
Qed.

Lemma restore_task_outcomes_witness :
  exists calls,
    restore_task 7 RestoreSample.lookup_fails = Returns (OK, 0%nat, calls)
    /\ List.filter is_rename calls = [Rename "/d/10_3.hdr" "/d/7.hdr"].
Proof.
  destruct (restore_task 7 RestoreSample.lookup_fails) as [[[code infos] calls] |] eqn:E;
    [| vm_compute in E; discriminate E].
  destruct (restore_task_outcomes 7 RestoreSample.lookup_fails) as (_ & H).
  destruct (H code infos calls E) as (-> & -> & Hcalls).
  exists calls. split; [reflexivity |]. rewrite Hcalls. vm_compute. reflexivity.
Defined.
